(** * Navigation synthesis and merge of docs/scripts/gen_mkdocs_yml.py

    A shallow embedding of the navigation-tree builder
    ([DocumentationGenerator._build_nav_structure_only]), of the export-list
    extraction ([_parse_init_doc_and_all], [process_init_module]) and of the
    configuration merge ([SafeMkDocsConfigUpdater]) together with the
    properties the specification states about them.

    Python values are modelled as follows.
    - [str] is [string]: a sequence of characters.  The character
      classifications used by [str.lower], [str.title], [str.strip] and the
      regular expressions are those of ASCII text.
    - a [dict] is an association list in insertion order; [dict_set] is
      [d[k] = v] (an existing key keeps its position).
    - a [tuple] or [list] of strings is [list string].
    - [ast.parse] and [ast.literal_eval] belong to Python's library; they
      are the parameters of the class [PythonAst].
    - the two files the updater touches form the record [fs]; the faults
      of the operating system on a write are an explicit argument. *)

From Stdlib Require Import List String Ascii Bool Arith Lia Sorted Permutation.
Import ListNotations.
Open Scope string_scope.
Open Scope list_scope.

Set Implicit Arguments.
Set Warnings "-register-all".

(* ===================================================================== *)
(** ** Python strings *)
(* ===================================================================== *)

Module PyStr.

Definition nl : ascii := "010"%char.
Definition NL : string := String nl EmptyString.

(** [s[n:]] and [s[:n]] for [0 <= n]. *)
Fixpoint drop (n : nat) (s : string) : string :=
  match n, s with
  | O, _ => s
  | S _, EmptyString => EmptyString
  | S k, String _ s' => drop k s'
  end.

Fixpoint take (n : nat) (s : string) : string :=
  match n, s with
  | O, _ => EmptyString
  | S _, EmptyString => EmptyString
  | S k, String c s' => String c (take k s')
  end.

(** [s.startswith(p)]. *)
Fixpoint startswith (p s : string) : bool :=
  match p, s with
  | EmptyString, _ => true
  | String _ _, EmptyString => false
  | String a p', String b s' => if Ascii.eqb a b then startswith p' s' else false
  end.

(** [s.find(sub)]: index of the first occurrence. *)
Fixpoint find (sub s : string) : option nat :=
  if startswith sub s then Some 0
  else match s with
       | EmptyString => None
       | String _ s' => option_map S (find sub s')
       end.

(** [sub in s]. *)
Definition contains (sub s : string) : bool :=
  match find sub s with Some _ => true | None => false end.

(** [s.replace(old, new)] for a non-empty [old]: occurrences are taken from
    the left and do not overlap.  [skip] counts the characters of a matched
    occurrence that are still to be passed over. *)
Fixpoint replace_from (old new : string) (skip : nat) (s : string) : string :=
  match s with
  | EmptyString => EmptyString
  | String c s' =>
      match skip with
      | S k => replace_from old new k s'
      | O => if startswith old s
             then new ++ replace_from old new (length old - 1) s'
             else String c (replace_from old new 0 s')
      end
  end.

(** With an empty [old] Python puts [new] before every character and at the
    end. *)
Fixpoint replace_empty (new s : string) : string :=
  match s with
  | EmptyString => new
  | String c s' => new ++ String c (replace_empty new s')
  end.

Definition replace (old new s : string) : string :=
  match old with
  | EmptyString => replace_empty new s
  | String _ _ => replace_from old new 0 s
  end.

(** ["sep".join(l)]. *)
Fixpoint join (sep : string) (l : list string) : string :=
  match l with
  | [] => EmptyString
  | [x] => x
  | x :: rest => x ++ sep ++ join sep rest
  end.

(** [s.split("\n")]: never empty, [""] gives [[""]]. *)
Fixpoint split_nl (s : string) : list string :=
  match s with
  | EmptyString => [EmptyString]
  | String c s' =>
      if Ascii.eqb c nl then EmptyString :: split_nl s'
      else match split_nl s' with
           | [] => [String c EmptyString]
           | l :: ls => String c l :: ls
           end
  end.

(** White space of [str.strip()], [str.isspace] and of [\s]: the characters
    9..13, 28..31 and the blank. *)
Definition is_space (c : ascii) : bool :=
  let n := nat_of_ascii c in
  (((9 <=? n) && (n <=? 13)) || ((28 <=? n) && (n <=? 31)) || (n =? 32))%nat.

Fixpoint lstrip (s : string) : string :=
  match s with
  | EmptyString => EmptyString
  | String c s' => if is_space c then lstrip s' else s
  end.

Fixpoint rstrip (s : string) : string :=
  match s with
  | EmptyString => EmptyString
  | String c s' =>
      match rstrip s' with
      | EmptyString => if is_space c then EmptyString else String c EmptyString
      | r => String c r
      end
  end.

Definition strip (s : string) : string := rstrip (lstrip s).

(** Truth value of a string: [bool(s)]. *)
Definition truthy (s : string) : bool :=
  match s with EmptyString => false | String _ _ => true end.

Definition is_upper (c : ascii) : bool :=
  let n := nat_of_ascii c in ((65 <=? n) && (n <=? 90))%nat.
Definition is_lower (c : ascii) : bool :=
  let n := nat_of_ascii c in ((97 <=? n) && (n <=? 122))%nat.
Definition to_lower (c : ascii) : ascii :=
  if is_upper c then ascii_of_nat (nat_of_ascii c + 32) else c.
Definition to_upper (c : ascii) : ascii :=
  if is_lower c then ascii_of_nat (nat_of_ascii c - 32) else c.

(** [s.lower()]. *)
Fixpoint lower (s : string) : string :=
  match s with
  | EmptyString => EmptyString
  | String c s' => String (to_lower c) (lower s')
  end.

(** [s.title()]: a cased character that follows an uncased one is put in
    upper case, one that follows a cased character in lower case. *)
Fixpoint title_from (prev_cased : bool) (s : string) : string :=
  match s with
  | EmptyString => EmptyString
  | String c s' =>
      let cased := is_upper c || is_lower c in
      String (if prev_cased then to_lower c else to_upper c)
             (title_from cased s')
  end.

Definition title (s : string) : string := title_from false s.

(** [s[-1]] of a tuple of strings that is known to be non-empty. *)
Definition last_seg (p : list string) : string := last p EmptyString.

End PyStr.


Import PyStr.

(* ===================================================================== *)
(** ** Dictionaries, tuples of path segments, [sorted] *)
(* ===================================================================== *)

Section Dict.
Variables (K V : Type) (keq : K -> K -> bool).

Definition dict := list (K * V).

(** [d.get(k)] *)
Fixpoint dict_get (k : K) (d : dict) : option V :=
  match d with
  | [] => None
  | (k', v) :: d' => if keq k k' then Some v else dict_get k d'
  end.

(** [k in d] *)
Definition dict_mem (k : K) (d : dict) : bool :=
  match dict_get k d with Some _ => true | None => false end.

(** [d[k] = v]: a key that is present keeps its place, a new key goes to
    the end. *)
Fixpoint dict_set (k : K) (v : V) (d : dict) : dict :=
  match d with
  | [] => [(k, v)]
  | (k', v') :: d' =>
      if keq k k' then (k', v) :: d' else (k', v') :: dict_set k v d'
  end.

Definition dict_keys (d : dict) : list K := map fst d.
End Dict.

(** A module path: [tuple(parts)]. *)
Definition parts := list string.

Fixpoint parts_eqb (a b : parts) : bool :=
  match a, b with
  | [], [] => true
  | x :: a', y :: b' => String.eqb x y && parts_eqb a' b'
  | _, _ => false
  end.

(** Order of Python tuples of strings: lexicographic, a proper prefix is
    smaller. *)
Fixpoint parts_compare (a b : parts) : comparison :=
  match a, b with
  | [], [] => Eq
  | [], _ :: _ => Lt
  | _ :: _, [] => Gt
  | x :: a', y :: b' =>
      match String.compare x y with
      | Eq => parts_compare a' b'
      | c => c
      end
  end.

Definition parts_ltb (a b : parts) : bool :=
  match parts_compare a b with Lt => true | _ => false end.

Section Sorted.
Variables (A : Type) (ltb : A -> A -> bool).

Fixpoint insert_sorted (x : A) (l : list A) : list A :=
  match l with
  | [] => [x]
  | y :: ys => if ltb y x then y :: insert_sorted x ys else x :: y :: ys
  end.

(** [sorted(l)]: stable, ascending. *)
Fixpoint sorted (l : list A) : list A :=
  match l with
  | [] => []
  | x :: xs => insert_sorted x (sorted xs)
  end.
End Sorted.

(* ===================================================================== *)
(** ** Navigation data *)
(* ===================================================================== *)

(** One entry of a navigation list: [{label: target}] or
    [{label: [entries]}]. *)
Inductive nav_item : Type :=
| NavLink (label target : string)
| NavGroup (label : string) (items : list nav_item).

(** A value of [nav_structure[package][display_key]]: the list
    [group_items] or, for a collapsed group, the bare index path. *)
Inductive nav_value : Type :=
| NavItems (items : list nav_item)
| NavTarget (target : string).

(** [package_nodes[package]]: module path -> index page. *)
Definition nodes_t := dict parts string.
(** [nav_structure[package]]: display key -> group. *)
Definition package_nav := dict string nav_value.
(** [nav_structure]. *)
Definition nav_structure_t := dict string package_nav.

(** The options of [DocumentationConfig] that the modelled code reads
    ([verbose] only switches log lines). *)
Record DocumentationConfig : Type := {
  exclude_patterns : list string;
  exclude_files : list string;
  docs_base_path : string;
  only_index_pages : bool;
  single_entry_as_group : bool
}.

(** [groups[key]]. *)
Record group_data : Type := {
  Index : string;
  children__ : nodes_t
}.

(* ===================================================================== *)
(** ** Tree builder: the block shared by [_build_nav_structure_only] and
       [process_package] *)
(* ===================================================================== *)

(** The loop [for parts_tuple, index_path in nodes.items()] that fills
    [groups]. *)
Definition add_to_groups (groups : dict parts group_data)
           (entry : parts * string) : dict parts group_data :=
  let '(parts_tuple, index_path) := entry in
  if (3 <=? List.length parts_tuple)%nat then
    let key := firstn 3 parts_tuple in
    let groups1 :=
      if dict_mem parts_eqb key groups then groups
      else dict_set parts_eqb key
             {| Index := index_path; children__ := [] |} groups in
    match dict_get parts_eqb key groups1 with
    | Some data =>
        dict_set parts_eqb key
          {| Index := Index data;
             children__ := dict_set parts_eqb parts_tuple index_path
                             (children__ data) |} groups1
    | None => groups1
    end
  else groups.

Definition build_groups (nodes : nodes_t) : dict parts group_data :=
  fold_left add_to_groups nodes [].

(** [child_index_map]: the nodes one segment below [first3]. *)
Definition child_index_map (nodes : nodes_t) (first3 : parts) : nodes_t :=
  fold_left
    (fun m '(parts_tuple, index_path) =>
       if (List.length parts_tuple =? 4)%nat && parts_eqb (firstn 3 parts_tuple) first3
       then dict_set parts_eqb parts_tuple index_path m else m)
    nodes [].

(** [any((len(p) > 4 and list(p[:4]) == list(child_parts)) for p in nodes.keys())] *)
Definition has_deeper (nodes : nodes_t) (child_parts : parts) : bool :=
  existsb (fun p => (4 <? List.length p)%nat && parts_eqb (firstn 4 p) child_parts)
          (dict_keys nodes).

(** [[p for p in nodes.keys() if (len(p) == 5 and list(p[:4]) == list(child_parts))]] *)
Definition grand_children (nodes : nodes_t) (child_parts : parts) : list parts :=
  filter (fun p => (List.length p =? 5)%nat && parts_eqb (firstn 4 p) child_parts)
         (dict_keys nodes).

(** [nodes[gc_parts]] for a key of [nodes]. *)
Definition node_path (nodes : nodes_t) (p : parts) : string :=
  match dict_get parts_eqb p nodes with Some path => path | None => EmptyString end.

(** The entry appended to [group_items] for one child. *)
Definition child_entry (nodes : nodes_t) (cmap : nodes_t) (child_parts : parts)
  : nav_item :=
  let child_name := last_seg child_parts in
  let child_path := node_path cmap child_parts in
  if negb (has_deeper nodes child_parts) then NavLink child_name child_path
  else
    NavGroup child_name
      (NavLink child_name child_path
       :: map (fun gc_parts => NavLink (last_seg gc_parts) (node_path nodes gc_parts))
              (sorted parts_ltb (grand_children nodes child_parts))).

(** [group_items] of the group [first3]. *)
Definition group_items (nodes : nodes_t) (first3 : parts) (data : group_data)
  : list nav_item :=
  let group_label := last_seg first3 in
  let cmap := child_index_map nodes first3 in
  NavLink group_label (Index data)
  :: map (child_entry nodes cmap) (sorted parts_ltb (dict_keys cmap)).

(** One turn of [for first3, data in groups.items()]. *)
Definition place_group (cfg : DocumentationConfig) (nodes : nodes_t)
           (pnav : package_nav) (g : parts * group_data) : package_nav :=
  let '(first3, data) := g in
  let display_key := join "." first3 in
  let pnav1 :=
    if dict_mem String.eqb display_key pnav then pnav
    else dict_set String.eqb display_key (NavItems []) pnav in
  let items := group_items nodes first3 data in
  if (List.length items =? 1)%nat then
    if single_entry_as_group cfg
    then dict_set String.eqb display_key (NavItems items) pnav1
    else dict_set String.eqb display_key (NavTarget (Index data)) pnav1
  else dict_set String.eqb display_key (NavItems items) pnav1.

(** The navigation of one package from its collected nodes. *)
Definition synthesize_nav (cfg : DocumentationConfig) (nodes : nodes_t)
           (pnav : package_nav) : package_nav :=
  fold_left (place_group cfg nodes) (build_groups nodes) pnav.

(* ===================================================================== *)
(** ** Export-list extraction *)
(* ===================================================================== *)

(** A value returned by [ast.literal_eval]: a [str], a [list], a [tuple], or
    a value of another type (a number, [bytes], [None], a [set], ...), which
    is kept as the text of its literal. *)
Inductive pyvalue : Type :=
| PyStr (s : string)
| PyList (items : list pyvalue)
| PyTuple (items : list pyvalue)
| PyOther (literal : string).

(** An assignment target: [ast.Name] or any other node. *)
Inductive target : Type :=
| Name (id : string)
| OtherTarget.

(** A statement of a module body over expressions of type [E]. *)
Inductive stmt (E : Type) : Type :=
| Assign (targets : list target) (value : E)
| OtherStmt.
Arguments OtherStmt {E}.

(** The tree of [ast.parse] with the result of [ast.get_docstring]. *)
Record module_ast (E : Type) : Type := {
  docstring : option string;
  body : list (stmt E)
}.

(** The parsing primitives of Python's [ast] module, which the generator
    calls and does not define.  [None] stands for a raised exception. *)
Class PythonAst : Type := {
  expr : Type;
  (** [ast.parse(text)] followed by [ast.get_docstring(tree)] *)
  ast_parse : string -> option (module_ast expr);
  (** [ast.literal_eval(node)] *)
  literal_eval : expr -> option pyvalue;
  (** [str(v)] of a value that is not a [str] *)
  str_other : pyvalue -> string
}.

(** A candidate of [python_files]: a file [dirs/stem.py] below the package
    root.  [pf_text] is [source_path.read_text(encoding='utf-8')], [None]
    when it raises. *)
Record py_file : Type := {
  pf_dirs : list string;
  pf_stem : string;
  pf_text : option string
}.

Section Classifier.
Context {py : PythonAst}.

(** [str(v)] *)
Definition py_str (v : pyvalue) : string :=
  match v with
  | PyStr s => s
  | _ => str_other v
  end.

(** [isinstance(target, ast.Name) and target.id == '__all__'] *)
Definition is_all_target (t : target) : bool :=
  match t with
  | Name id => String.eqb id "__all__"
  | OtherTarget => false
  end.

(** The body of [for target in node.targets]: one turn. *)
Definition eval_target (value : expr) (exports : list string) (t : target)
  : list string :=
  if is_all_target t then
    match literal_eval value with
    | Some (PyList items) => map py_str items
    | Some (PyTuple items) => map py_str items
    | Some _ => exports
    | None => exports
    end
  else exports.

(** The body of [for node in tree.body]: one turn. *)
Definition eval_stmt (exports : list string) (node : stmt expr) : list string :=
  match node with
  | Assign targets value => fold_left (eval_target value) targets exports
  | OtherStmt => exports
  end.

Definition _parse_init_doc_and_all (source : option string)
  : option string * list string :=
  match source with
  | None => (None, [])
  | Some text =>
      match ast_parse text with
      | None => (None, [])
      | Some tree => (docstring tree, fold_left eval_stmt (body tree) [])
      end
  end.

(** [Path.with_name("index.md")] on a relative document path. *)
Definition with_name_index (doc_path : list string) : list string :=
  removelast doc_path ++ ["index.md"].

(** Returns [(parts, doc_path, has_all)]; [full_doc_path] is not used by
    the structure pass. *)
Definition process_init_module (parts0 : parts) (doc_path : list string)
           (source : option string) : parts * list string * bool :=
  let '(_, exports) := _parse_init_doc_and_all source in
  let has_all := (0 <? List.length exports)%nat in
  if (1 <? List.length parts0)%nat
  then (removelast parts0, with_name_index doc_path, has_all)
  else (parts0, doc_path, has_all).

End Classifier.

(* ===================================================================== *)
(** ** Classification loop and [_build_nav_structure_only] *)
(* ===================================================================== *)

(** [name.rfind(".")] *)
Fixpoint rfind_dot (s : string) : option nat :=
  match s with
  | EmptyString => None
  | String c s' =>
      match rfind_dot s' with
      | Some i => Some (S i)
      | None => if Ascii.eqb c "."%char then Some 0 else None
      end
  end.

(** [PurePath.suffix] of a final component. *)
Definition path_suffix (name : string) : string :=
  match rfind_dot name with
  | Some i => if ((0 <? i) && (i <? String.length name - 1))%nat
              then drop i name else EmptyString
  | None => EmptyString
  end.

(** [PurePath.with_suffix(suffix)] on the final component. *)
Definition with_suffix (name suffix : string) : string :=
  take (String.length name - String.length (path_suffix name)) name ++ suffix.

Definition str_in (x : string) (l : list string) : bool :=
  existsb (String.eqb x) l.

(** [should_exclude_path(path)], [path] given by [path.parts]. *)
Definition should_exclude_path (cfg : DocumentationConfig) (path : list string)
  : bool :=
  if existsb (fun pattern => str_in pattern path) (exclude_patterns cfg) then true
  else if str_in (last_seg path) (exclude_files cfg) then true
  else if startswith "." (last_seg path) then true
  else false.

(** A package of [config.packages] as the generator sees it. *)
Record package : Type := {
  (** [config.get_package_display_name(package_path)] *)
  pkg_name : string;
  (** [(self.root / package_path).parts] *)
  pkg_src : list string;
  (** [python_files], the sorted result of the scan; [None] when
      [code_src] does not exist, is not a directory, or the scan raises *)
  pkg_files : option (list py_file)
}.

(** The attributes of [DocumentationGenerator] written by the structure
    pass. *)
Record generator : Type := {
  skipped_files : list (list string);
  error_files : list (list string);
  nav_structure : nav_structure_t;
  package_nodes : dict string nodes_t
}.

(** [DocumentationGenerator.__init__] *)
Definition new_generator : generator :=
  {| skipped_files := []; error_files := [];
     nav_structure := []; package_nodes := [] |}.

(** State of the loop over [python_files]: the two lists, the nodes of the
    package and the local variable [has_all] ([None] while unassigned). *)
Record scan_state : Type := {
  sc_skipped : list (list string);
  sc_errors : list (list string);
  sc_nodes : nodes_t;
  sc_has_all : option bool
}.

Section StructurePass.
Context {py : PythonAst}.
Variable cfg : DocumentationConfig.

(** [f"{docs_base_path}/{package_name}/{doc_path.as_posix()}"] *)
Definition index_path_of (package_name : string) (doc_path : list string)
  : string :=
  docs_base_path cfg ++ "/" ++ package_name ++ "/" ++ join "/" doc_path.

(** The statement [if source_is_init := (path.name == '__init__.py' and
    has_all): ...] that closes a turn of the loop. *)
Definition record_node (package_name : string) (path : list string)
           (parts1 : parts) (doc_path : list string) (st : scan_state)
  : scan_state :=
  if String.eqb (last_seg path) "__init__.py" then
    match sc_has_all st with
    | Some true =>
        {| sc_skipped := sc_skipped st; sc_errors := sc_errors st;
           sc_nodes := dict_set parts_eqb parts1
                         (index_path_of package_name doc_path) (sc_nodes st);
           sc_has_all := sc_has_all st |}
    | Some false => st
    | None =>
        (* reading the unassigned local raises; the handler of the turn
           records the file *)
        {| sc_skipped := sc_skipped st; sc_errors := sc_errors st ++ [path];
           sc_nodes := sc_nodes st; sc_has_all := None |}
    end
  else st.

(** One turn of [for path in python_files]. *)
Definition visit_file (code_src : list string) (package_name : string)
           (st : scan_state) (f : py_file) : scan_state :=
  let path := code_src ++ pf_dirs f ++ [(pf_stem f ++ ".py")%string] in
  if should_exclude_path cfg path then
    {| sc_skipped := sc_skipped st ++ [path]; sc_errors := sc_errors st;
       sc_nodes := sc_nodes st; sc_has_all := sc_has_all st |}
  else
    let module_path := pf_dirs f ++ [pf_stem f] in
    let doc_path := pf_dirs f ++ [with_suffix (pf_stem f) ".md"] in
    if String.eqb (last_seg module_path) "__init__" then
      let '(parts1, doc_path1, has_all) :=
        process_init_module module_path doc_path (pf_text f) in
      let st1 := {| sc_skipped := sc_skipped st; sc_errors := sc_errors st;
                    sc_nodes := sc_nodes st; sc_has_all := Some has_all |} in
      match parts1 with
      | [] => st1
      | _ :: _ =>
          if negb has_all then st1
          else record_node package_name path parts1 doc_path1 st1
      end
    else if String.eqb (last_seg module_path) "__main__" then st
    else if only_index_pages cfg then st
    else record_node package_name path module_path doc_path st.

Definition _build_nav_structure_only (pkg : package) (g : generator)
  : generator :=
  match pkg_files pkg with
  | None => g
  | Some python_files =>
      let package_name := pkg_name pkg in
      let nodes0 :=
        match dict_get String.eqb package_name (package_nodes g) with
        | Some nodes => nodes
        | None => []
        end in
      let st := fold_left (visit_file (pkg_src pkg) package_name) python_files
                  {| sc_skipped := skipped_files g; sc_errors := error_files g;
                     sc_nodes := nodes0; sc_has_all := None |} in
      let nodes := sc_nodes st in
      let nav :=
        match nodes with
        | [] => nav_structure g
        | _ :: _ =>
            let pnav0 :=
              match dict_get String.eqb package_name (nav_structure g) with
              | Some pnav => pnav
              | None => []
              end in
            dict_set String.eqb package_name
              (synthesize_nav cfg nodes pnav0) (nav_structure g)
        end in
      {| skipped_files := sc_skipped st; error_files := sc_errors st;
         nav_structure := nav;
         package_nodes := dict_set String.eqb package_name nodes (package_nodes g) |}
  end.

(** The first pass of [generate]: [for package_path in
    self.config.packages: self._build_nav_structure_only(package_path)]. *)
Definition first_pass (packages : list package) (g : generator) : generator :=
  fold_left (fun g pkg => _build_nav_structure_only pkg g) packages g.
End StructurePass.

(* ===================================================================== *)
(** ** Rendering ([SafeMkDocsConfigUpdater]) *)
(* ===================================================================== *)

Definition replacements : list (string * string) :=
  [("Llm", "LLM"); ("Api", "API"); ("Ai", "AI"); ("Http", "HTTP");
   ("Json", "JSON"); ("Xml", "XML"); ("Url", "URL"); ("Uri", "URI");
   ("Uuid", "UUID"); ("Id", "ID")].

Definition _format_display_name (name : string) : string :=
  fold_left (fun formatted '(old, new) => replace old new formatted)
            replacements (title (replace "_" " " name)).

(** [key if ('.' in key) else self._format_display_name(key)] *)
Definition format_key (key : string) : string :=
  if contains "." key then key else _format_display_name key.

(** [_build_nav_structure] on the dictionary of one package, whose values
    are lists or strings (the builder stores no nested dictionary). *)
Definition _build_nav_structure (structure : package_nav) : list nav_item :=
  map (fun '(key, value) =>
         match value with
         | NavItems items => NavGroup (format_key key) items
         | NavTarget path => NavLink (format_key key) path
         end)
      (sorted (fun a b => String.ltb (fst a) (fst b)) structure).

Definition _build_api_reference_nav (nav : nav_structure_t) : list nav_item :=
  map (fun '(package_name, package_structure) =>
         NavGroup (_format_display_name package_name)
                  (_build_nav_structure package_structure))
      nav.

(** [" " * n] *)
Fixpoint spaces (n : nat) : string :=
  match n with
  | O => EmptyString
  | S k => String " "%char (spaces k)
  end.

(** The non-blank lines of a rendered sub-list, nothing for an empty one. *)
Definition sub_lines (sub_yaml : string) : list string :=
  if truthy sub_yaml
  then filter (fun sub_line => truthy (strip sub_line)) (split_nl sub_yaml)
  else [].

(** The lines one entry of [nav_list] adds in [_nav_to_yaml_string]. *)
Fixpoint item_lines (indent : nat) (item : nav_item) {struct item} : list string :=
  match item with
  | NavLink key value =>
      [(spaces indent ++ "- " ++ key ++ ": " ++ value)%string]
  | NavGroup key value =>
      (spaces indent ++ "- " ++ key ++ ":")%string
      :: sub_lines
           (join NL
              ((fix all_lines (l : list nav_item) : list string :=
                  match l with
                  | [] => []
                  | x :: rest => item_lines (indent + 2) x ++ all_lines rest
                  end) value))
  end.

Definition _nav_to_yaml_string (nav_list : list nav_item) (indent : nat) : string :=
  join NL (flat_map (item_lines indent) nav_list).

Definition LLM_OVERVIEW_PATH : string := "extras/llms/index.md".

(** Step 1 of [_generate_api_reference_content]: the package whose name is
    ['bridgic-core'] up to case. *)
Definition core_lines (nav : nav_structure_t) : list string :=
  match filter (fun k => String.eqb (lower k) "bridgic-core") (dict_keys nav) with
  | [] => []
  | core_key :: _ =>
      match dict_get String.eqb core_key nav with
      | None => []
      | Some structure =>
          flat_map
            (fun item =>
               match item with
               | NavGroup key value =>
                   ("    - " ++ _format_display_name key ++ ":")%string
                   :: sub_lines (_nav_to_yaml_string value 6)
               | NavLink key _ =>
                   [("    - " ++ _format_display_name key ++ ":")%string]
               end)
            (_build_api_reference_nav [(core_key, structure)])
      end
  end.

(** Step 2: one pair [(dotted, index_path)] per package named
    ['bridgic-llms-...']. *)
Definition integration_entries (nav : nav_structure_t) : list (string * string) :=
  flat_map
    (fun pkg_name =>
       if startswith "bridgic-llms-" pkg_name then
         let suffix := replace "bridgic-llms-" "" pkg_name in
         let dotted_suffix := replace "-" "_" suffix in
         [(("bridgic.llms." ++ dotted_suffix)%string,
           ("reference/" ++ pkg_name ++ "/bridgic/llms/" ++ dotted_suffix
              ++ "/index.md")%string)]
       else [])
    (dict_keys nav).

Definition integration_lines (nav : nav_structure_t) : list string :=
  match integration_entries nav with
  | [] => []
  | entries =>
      ["    - Bridgic-Integration:";
       "      - llms:";
       ("        - llms: " ++ LLM_OVERVIEW_PATH)%string]
      ++ map (fun '(dotted, path) => ("        - " ++ dotted ++ ": " ++ path)%string)
             entries
  end.

Definition _generate_api_reference_content (nav : nav_structure_t) : string :=
  join NL (core_lines nav ++ integration_lines nav).

(* ===================================================================== *)
(** ** Files and the two merge routines *)
(* ===================================================================== *)

(** The two files of the updater: [scripts/mkdocs_template.yml] and
    [mkdocs.yml] ([self.mkdocs_path]); [None] is a file that does not
    exist.  The two paths differ by construction. *)
Record fs : Type := {
  template_file : option string;
  mkdocs_file : option string
}.

(** What the operating system does during one call: nothing unusual, the
    read of the input raises, [open(path, 'w')] raises, or [f.write] raises
    after [written] characters reached the file. *)
Inductive io_fault : Type :=
| NoFault
| ReadFails
| OpenFails
| WriteFails (written : nat).

(** [with open(self.mkdocs_path, 'w', encoding='utf-8') as f:
    f.write(final_content)].  Mode ['w'] truncates the file when it is
    opened.  The boolean tells whether the block ended without an
    exception. *)
Definition write_mkdocs (fault : io_fault) (final_content : string) (f : fs)
  : bool * fs :=
  match fault with
  | OpenFails => (false, f)
  | WriteFails written =>
      (false, {| template_file := template_file f;
                 mkdocs_file := Some (take written final_content) |})
  | _ =>
      (true, {| template_file := template_file f;
                mkdocs_file := Some final_content |})
  end.

Definition PLACEHOLDER : string := "{{API_REFERENCE_CONTENT}}".

Definition is_read_fault (fault : io_fault) : bool :=
  match fault with ReadFails => true | _ => false end.

(** [update_mkdocs_config]: the returned boolean and the files afterwards. *)
Definition update_mkdocs_config (fault : io_fault) (nav : nav_structure_t)
           (f : fs) : bool * fs :=
  match template_file f with
  | None => (false, f)
  | Some template_content =>
      if is_read_fault fault then (false, f)
      else if negb (contains PLACEHOLDER template_content) then (false, f)
      else
        let api_reference_content := _generate_api_reference_content nav in
        let final_content :=
          replace PLACEHOLDER api_reference_content template_content in
        write_mkdocs fault final_content f
  end.

(** *** Regular expressions of the legacy routine *)

(** [\s*$] at the start of [r] under [re.MULTILINE]: the number of
    characters the greedy [\s*] keeps, if the match succeeds. *)
Fixpoint ws_to_eol (r : string) : option nat :=
  match r with
  | EmptyString => Some 0
  | String c r' =>
      if is_space c then
        match ws_to_eol r' with
        | Some k => Some (S k)
        | None => if Ascii.eqb c nl then Some 0 else None
        end
      else None
  end.

(** [nav:\s*$] matched at the start of [r]: length of the match. *)
Definition match_nav_start (r : string) : option nat :=
  if startswith "nav:" r
  then option_map (fun k => 4 + k) (ws_to_eol (drop 4 r))
  else None.

(** [re.search(pattern, s, flags=re.MULTILINE)] for a pattern that begins
    with [^]: the leftmost line start where [m] matches.  [bol] tells
    whether the current position is a line start, [pos] is its index. *)
Fixpoint search_bol {R : Type} (m : string -> option R) (bol : bool) (pos : nat)
         (s : string) : option (nat * R) :=
  match (if bol then m s else None) with
  | Some r => Some (pos, r)
  | None =>
      match s with
      | EmptyString => None
      | String c s' => search_bol m (Ascii.eqb c nl) (S pos) s'
      end
  end.

(** [re.search(r'^nav:\s*$', s, flags=re.MULTILINE)]: [(m.start(), m.end())]. *)
Definition search_nav_start (s : string) : option (nat * nat) :=
  match search_bol match_nav_start true 0 s with
  | Some (start, len) => Some (start, start + len)
  | None => None
  end.

Definition is_key_char (c : ascii) : bool :=
  is_lower c || Ascii.eqb c "_"%char.

(** [[a-z_]+:] matched at the start of [r]. *)
Fixpoint match_key_colon (seen : bool) (r : string) : bool :=
  match r with
  | EmptyString => false
  | String c r' =>
      if is_key_char c then match_key_colon true r'
      else seen && Ascii.eqb c ":"%char
  end.

(** [\n([a-z_]+:)] matched at the start of [r]. *)
Definition match_next_config (r : string) : option unit :=
  match r with
  | String c r' =>
      if Ascii.eqb c nl && match_key_colon false r' then Some tt else None
  | EmptyString => None
  end.

(** [re.search(r'^\n([a-z_]+:)', s, flags=re.MULTILINE)]: [m.start()]. *)
Definition search_next_config (s : string) : option nat :=
  option_map fst (search_bol match_next_config true 0 s).

(** *** [_rebuild_nav_content] *)

(** The first loop: drops the [- API Reference:] line and the lines after
    it up to the next line that starts with ["  - "]. *)
Fixpoint keep_lines (skip_api_reference : bool) (nav_lines : list string)
  : list string :=
  match nav_lines with
  | [] => []
  | line :: rest =>
      if startswith "- API Reference:" (strip line) then keep_lines true rest
      else if skip_api_reference then
        if startswith "  - " line && negb (startswith "    " line)
        then line :: keep_lines false rest
        else keep_lines true rest
      else line :: keep_lines false rest
  end.

(** [about_index] *)
Fixpoint find_about (i : nat) (lines : list string) : option nat :=
  match lines with
  | [] => None
  | line :: rest =>
      if startswith "- About:" (strip line) then Some i
      else find_about (S i) rest
  end.

Definition new_api_section (nav : nav_structure_t) : string :=
  "  - API Reference:" ++ NL
    ++ _nav_to_yaml_string (_build_api_reference_nav nav) 2.

Definition splice_section (new_nav_lines : list string) (section : string)
  : list string :=
  match find_about 0 new_nav_lines with
  | Some about_index =>
      firstn about_index new_nav_lines
        ++ [section; EmptyString] ++ skipn about_index new_nav_lines
  | None =>
      (if truthy (strip (last new_nav_lines EmptyString))
       then new_nav_lines ++ [EmptyString] else new_nav_lines)
        ++ [section]
  end.

Definition _rebuild_nav_content (nav_content : string) (nav : nav_structure_t)
  : string :=
  join NL (splice_section (keep_lines false (split_nl nav_content))
                          (new_api_section nav)).

(** The staging step: [(content_before_nav, nav_content, content_after_nav)]. *)
Definition stage_nav (original_content : string)
  : option (string * string * string) :=
  match search_nav_start original_content with
  | None => None
  | Some (nav_start, nav_start_pos) =>
      let content_before_nav := take nav_start original_content in
      let remaining_content := drop nav_start_pos original_content in
      match search_next_config remaining_content with
      | Some start =>
          Some (content_before_nav,
                take (start + 1) remaining_content,
                drop (start + 1) remaining_content)
      | None => Some (content_before_nav, remaining_content, EmptyString)
      end
  end.

Definition _update_mkdocs_config_legacy (fault : io_fault) (nav : nav_structure_t)
           (f : fs) : bool * fs :=
  match mkdocs_file f with
  | None => (false, f)
  | Some original_content =>
      if is_read_fault fault then (false, f)
      else
        match stage_nav original_content with
        | None => (false, f)
        | Some (content_before_nav, nav_content, content_after_nav) =>
            let new_nav_content := _rebuild_nav_content nav_content nav in
            let final_content :=
              (content_before_nav ++ "nav:" ++ NL ++ new_nav_content
                 ++ (if truthy content_after_nav then content_after_nav
                     else EmptyString))%string in
            write_mkdocs fault final_content f
        end
  end.


(* ===================================================================== *)
(** ** The part of [generate] that decides [mkdocs.yml] *)
(* ===================================================================== *)

Section Generate.
Context {py : PythonAst}.

(** The first pass followed by [if self.nav_structure:
    self.update_mkdocs_config()].  The second pass writes the pages and
    leaves [mkdocs.yml] alone. *)
Definition generate (cfg : DocumentationConfig) (packages : list package)
           (fault : io_fault) (f : fs) : generator * fs :=
  let g := first_pass cfg packages new_generator in
  match nav_structure g with
  | [] => (g, f)
  | _ :: _ => (g, snd (update_mkdocs_config fault (nav_structure g) f))
  end.
End Generate.

(* ===================================================================== *)
(** ** Vocabulary of the statements *)
(* ===================================================================== *)

(** The packages [_generate_api_reference_content] looks at. *)
Definition rendered_package (pkg_name : string) : bool :=
  String.eqb (lower pkg_name) "bridgic-core" || startswith "bridgic-llms-" pkg_name.

Definition rendered_part (nav : nav_structure_t) : nav_structure_t :=
  filter (fun entry => rendered_package (fst entry)) nav.

(** The targets a navigation list links to, at any depth. *)
Fixpoint item_targets (item : nav_item) : list string :=
  match item with
  | NavLink _ target => [target]
  | NavGroup _ items =>
      (fix all_targets (l : list nav_item) : list string :=
         match l with
         | [] => []
         | x :: rest => item_targets x ++ all_targets rest
         end) items
  end.

Definition value_targets (v : nav_value) : list string :=
  match v with
  | NavItems items => flat_map item_targets items
  | NavTarget target => [target]
  end.

(** The targets of the navigation of one package. *)
Definition nav_targets (pnav : package_nav) : list string :=
  flat_map (fun entry => value_targets (snd entry)) pnav.

(* ===================================================================== *)
(** ** Sample inputs *)
(* ===================================================================== *)

Definition sample_cfg : DocumentationConfig :=
  {| exclude_patterns := ["__pycache__"; "tests"];
     exclude_files := ["setup.py"];
     docs_base_path := "reference";
     only_index_pages := true;
     single_entry_as_group := true |}.

(** The nodes of a package with the index [pkg.sub.mod] and its child
    [pkg.sub.mod.leaf]. *)
Definition sample_nodes (package_name : string) : nodes_t :=
  [ (["pkg"; "sub"; "mod"],
     ("reference/" ++ package_name ++ "/pkg/sub/mod/index.md")%string);
    (["pkg"; "sub"; "mod"; "leaf"],
     ("reference/" ++ package_name ++ "/pkg/sub/mod/leaf/index.md")%string) ].

(** The navigation structure with that one package. *)
Definition sample_nav (package_name : string) : nav_structure_t :=
  [ (package_name, synthesize_nav sample_cfg (sample_nodes package_name) []) ].

Definition sample_template : string :=
  "site_name: demo
nav:
  - Home: index.md
  - API Reference:
{{API_REFERENCE_CONTENT}}
plugins:
  - search
".



Definition sample_mkdocs : string :=
  "site_name: old
nav:
  - Home: index.md

  - About: about.md

plugins:
  - search
".

Definition sample_fs : fs :=
  {| template_file := Some sample_template; mkdocs_file := Some sample_mkdocs |}.

(** The sample destination without a template beside it. *)
Definition sample_fs_no_template : fs :=
  {| template_file := None; mkdocs_file := Some sample_mkdocs |}.

(** All characters of [s] satisfy [p]. *)
Fixpoint str_forallb (p : ascii -> bool) (s : string) : bool :=
  match s with
  | EmptyString => true
  | String c s' => p c && str_forallb p s'
  end.

(** *** Package indices and their origin *)

Section Acceptance.
Context {py : PythonAst}.
Variable cfg : DocumentationConfig.

(** [path.parts] of a candidate. *)
Definition file_path (code_src : list string) (f : py_file) : list string :=
  code_src ++ pf_dirs f ++ [(pf_stem f ++ ".py")%string].

(** The export list extracted from a candidate. *)
Definition exports_of (f : py_file) : list string :=
  snd (_parse_init_doc_and_all (pf_text f)).

(** A package index with a non-empty export list that the exclusion rules
    let through. *)
Definition accepted_index (code_src : list string) (f : py_file) : bool :=
  negb (should_exclude_path cfg (file_path code_src f))
  && String.eqb (pf_stem f) "__init__"
  && (0 <? List.length (exports_of f))%nat.

(** The module path and the index page under which a package index is
    registered. *)
Definition init_entry (package_name : string) (f : py_file) : parts * string :=
  let '(parts1, doc_path1, _) :=
    process_init_module (pf_dirs f ++ [pf_stem f])
                        (pf_dirs f ++ [with_suffix (pf_stem f) ".md"])
                        (pf_text f) in
  (parts1, index_path_of cfg package_name doc_path1).

(** [(parts, target)] is the entry of an accepted package index of one of
    the [packages] with the display name [package_name]. *)
Definition has_origin (packages : list package) (package_name : string)
           (entry : parts * string) : Prop :=
  exists pkg files f,
    In pkg packages /\ pkg_name pkg = package_name
    /\ pkg_files pkg = Some files /\ In f files
    /\ accepted_index (pkg_src pkg) f = true
    /\ init_entry package_name f = entry.
End Acceptance.

(** *** The order of the scan *)

(** [path.relative_to(code_src).parts] *)
Definition rel_path (f : py_file) : list string :=
  pf_dirs f ++ [(pf_stem f ++ ".py")%string].

(** [sorted([...])] over the paths found below one package root: paths
    compare by their parts. *)
Definition sort_files (files : list py_file) : list py_file :=
  sorted (fun a b => parts_ltb (rel_path a) (rel_path b)) files.

(** *** A small instance of the parsing primitives *)

(** Expressions of the sample sources: a list or tuple of names in quotes, a
    call, a sum. *)
Inductive sample_expr : Type :=
| SList (names : list string)
| STuple (names : list string)
| SCall (func : string)
| SSum (left right : sample_expr).

Definition sample_literal_eval (e : sample_expr) : option pyvalue :=
  match e with
  | SList names => Some (PyList (map PyStr names))
  | STuple names => Some (PyTuple (map PyStr names))
  | SCall _ => None
  | SSum _ _ => None
  end.

Definition src_exports : string := "__all__ = ['X']".
Definition src_computed : string := "__all__ = make() + ['X']".
Definition src_plain : string := "import os".

(** The sample parser knows three source texts; any other text is a syntax
    error. *)
Definition sample_parse (text : string) : option (module_ast sample_expr) :=
  if String.eqb text src_exports then
    Some {| docstring := None;
            body := [OtherStmt; Assign [Name "__all__"] (SList ["X"])] |}
  else if String.eqb text src_computed then
    Some {| docstring := Some "computed";
            body := [Assign [Name "__all__"] (SSum (SCall "make") (SList ["X"]))] |}
  else if String.eqb text src_plain then
    Some {| docstring := None; body := [OtherStmt] |}
  else None.

Definition sample_ast : PythonAst :=
  {| expr := sample_expr;
     ast_parse := sample_parse;
     literal_eval := sample_literal_eval;
     str_other := fun _ => EmptyString |}.

Definition init_file (dirs : list string) (text : string) : py_file :=
  {| pf_dirs := dirs; pf_stem := "__init__"; pf_text := Some text |}.

(** The scenario of the specification: [pkg/__init__.py] without an export
    list, [pkg/sub/__init__.py] with one, and the module [pkg/sub/leaf.py]. *)
Definition scenario_files : list py_file :=
  [ init_file ["pkg"] src_plain;
    init_file ["pkg"; "sub"] src_exports;
    {| pf_dirs := ["pkg"; "sub"]; pf_stem := "leaf"; pf_text := Some src_plain |} ].

Definition package_of (files : list py_file) : package :=
  {| pkg_name := "bridgic-core";
     pkg_src := ["/"; "repo"; "bridgic-core"];
     pkg_files := Some (sort_files files) |}.

(** A group [a.b.c] whose own index has an export list, beside the
    sub-package [a.b.c.Zed]. *)
Definition zed_files : list py_file :=
  [ init_file ["a"; "b"; "c"] src_exports;
    init_file ["a"; "b"; "c"; "Zed"] src_exports ].

(** A group [a.b.c] whose own index has no export list; its sub-package
    [a.b.c.d] has one. *)
Definition orphan_files : list py_file :=
  [ init_file ["a"; "b"; "c"] src_plain;
    init_file ["a"; "b"; "c"; "d"] src_exports ].

(** A package index six segments deep, the only one with an export list. *)
Definition deep_files : list py_file :=
  [ init_file ["a"; "b"; "c"] src_plain;
    init_file ["a"; "b"; "c"; "d"; "e"; "f"] src_exports ].

(** A group with two children, one of which has sub-packages of its own. *)
Definition nested_files : list py_file :=
  [ init_file ["a"; "b"; "c"] src_exports;
    init_file ["a"; "b"; "c"; "y"] src_exports;
    init_file ["a"; "b"; "c"; "x"] src_exports;
    init_file ["a"; "b"; "c"; "x"; "u"] src_exports;
    init_file ["a"; "b"; "c"; "x"; "u"; "v"] src_exports;
    init_file ["a"; "b"] src_exports;
    init_file ["a"; "b"; "solo"] src_exports ].

Definition sample_cfg_collapsed : DocumentationConfig :=
  {| exclude_patterns := exclude_patterns sample_cfg;
     exclude_files := exclude_files sample_cfg;
     docs_base_path := docs_base_path sample_cfg;
     only_index_pages := only_index_pages sample_cfg;
     single_entry_as_group := false |}.

(** The nodes of a package with the single index [a.b.solo], and the
    navigation built from nodes alone. *)
Definition solo_nodes : nodes_t :=
  [ (["a"; "b"; "solo"], "reference/bridgic-core/a/b/solo/index.md") ].

Definition nav_structure_of_nodes (cfg : DocumentationConfig) (nodes : nodes_t)
  : package_nav :=
  synthesize_nav cfg nodes [].

(** *** Registration order *)

(** [p] lies under the group key [key]: it has at least three segments and
    the first three are [key]. *)
Definition under_key (key p : parts) : bool :=
  (3 <=? List.length p)%nat && parts_eqb (firstn 3 p) key.

(** The page of the first node under [key], in the order of the
    dictionary. *)
Fixpoint first_under_key (nodes : nodes_t) (key : parts) : option string :=
  match nodes with
  | [] => None
  | (p, t) :: rest =>
      if under_key key p then Some t else first_under_key rest key
  end.

(* ===================================================================== *)
(** ** Further vocabulary *)
(* ===================================================================== *)

(** The character [c] does not occur in [s]. *)
Definition lacks (c : ascii) (s : string) : bool :=
  str_forallb (fun x => negb (Ascii.eqb x c)) s.

(** A cased character: a letter. *)
Definition is_cased (c : ascii) : bool := is_upper c || is_lower c.

(* ===================================================================== *)
(** ** Package names ([DocumentationConfig]) *)
(* ===================================================================== *)

(** [s.split(sep)] for a separator of one character. *)
Fixpoint split_on (sep : ascii) (s : string) : list string :=
  match s with
  | EmptyString => [EmptyString]
  | String c s' =>
      if Ascii.eqb c sep then EmptyString :: split_on sep s'
      else match split_on sep s' with
           | [] => [String c EmptyString]
           | l :: ls => String c l :: ls
           end
  end.

(** [PurePosixPath(p).name]: the last component of [p] that is neither
    empty nor ["."]; the empty string when there is none. *)
Definition path_name (p : string) : string :=
  last (filter (fun c => truthy c && negb (String.eqb c "."))
               (split_on "/" p))
       EmptyString.

(** An entry of [package_info]. *)
Record package_info_entry : Type := {
  info_name : string;
  info_description : string
}.

(** [self.package_info]: package path -> name and description. *)
Definition package_info_t := dict string package_info_entry.

Definition get_package_display_name (package_info : package_info_t)
           (package_path : string) : string :=
  match dict_get String.eqb package_path package_info with
  | Some entry => info_name entry
  | None => replace "-" "_" (path_name package_path)
  end.

Definition get_package_description (package_info : package_info_t)
           (package_path : string) : string :=
  match dict_get String.eqb package_path package_info with
  | Some entry => info_description entry
  | None => EmptyString
  end.

(* ===================================================================== *)
(** ** The rendering, line by line *)
(* ===================================================================== *)

(** The lines of one entry written out directly: its own line at [indent]
    and, for a group, the lines of its entries two columns further in. *)
Fixpoint render_item (indent : nat) (item : nav_item) {struct item} : list string :=
  match item with
  | NavLink key value =>
      [(spaces indent ++ "- " ++ key ++ ": " ++ value)%string]
  | NavGroup key value =>
      (spaces indent ++ "- " ++ key ++ ":")%string
      :: (fix all_lines (l : list nav_item) : list string :=
            match l with
            | [] => []
            | x :: rest => render_item (indent + 2) x ++ all_lines rest
            end) value
  end.

(** No label and no target of the entry holds a line break. *)
Fixpoint item_plain (item : nav_item) : bool :=
  match item with
  | NavLink key value => lacks nl key && lacks nl value
  | NavGroup key value =>
      lacks nl key
      && (fix all_plain (l : list nav_item) : bool :=
            match l with
            | [] => true
            | x :: rest => item_plain x && all_plain rest
            end) value
  end.

(** The number of entries of a navigation list, at any depth. *)
Fixpoint item_count (item : nav_item) : nat :=
  match item with
  | NavLink _ _ => 1
  | NavGroup _ value =>
      S ((fix all_count (l : list nav_item) : nat :=
            match l with
            | [] => 0
            | x :: rest => item_count x + all_count rest
            end) value)
  end.

(** An entry of a package's navigation turned into a list item under its
    own key, without [_format_display_name]. *)
Definition verbatim_item (entry : string * nav_value) : nav_item :=
  match snd entry with
  | NavItems items => NavGroup (fst entry) items
  | NavTarget path => NavLink (fst entry) path
  end.

(* ===================================================================== *)
(** ** The page pass ([process_package]) *)
(* ===================================================================== *)

(** The calls into [mkdocs_gen_files] as the generator sees them: whether
    [self.nav[nav_key] = nav_path] raises, and whether
    [create_documentation_file(full_doc_path, identifier, source_path)]
    meets an exception while it opens, writes and registers the page. *)
Class GenFiles : Type := {
  nav_set_raises : list string -> string -> bool;
  page_raises : list string -> string -> list string -> bool
}.

(** The attributes of [DocumentationGenerator] written by the page pass:
    those of the structure pass, [generated_files] and the assignments made
    to [self.nav]. *)
Record documentation : Type := {
  doc_generator : generator;
  generated_files : list (list string);
  nav : list (list string * string)
}.

(** State of the loop of [process_package] over [python_files]. *)
Record page_state : Type := {
  pg_scan : scan_state;
  pg_generated : list (list string);
  pg_nav : list (list string * string)
}.

(** [generate_module_identifier] *)
Definition generate_module_identifier (parts0 : parts) : string :=
  join "." parts0.

(** [self.error_files.append((path, str(e)))] *)
Definition add_error (path : list string) (st : page_state) : page_state :=
  {| pg_scan := {| sc_skipped := sc_skipped (pg_scan st);
                   sc_errors := sc_errors (pg_scan st) ++ [path];
                   sc_nodes := sc_nodes (pg_scan st);
                   sc_has_all := sc_has_all (pg_scan st) |};
     pg_generated := pg_generated st; pg_nav := pg_nav st |}.

Section PagePass.
Context {py : PythonAst} {gen_files : GenFiles}.
Variable cfg : DocumentationConfig.

(** The block that closes [_build_nav_structure_only] and
    [process_package]: the navigation of the package is rebuilt from its
    nodes. *)
Definition place_package (package_name : string) (g : generator)
           (st : scan_state) : generator :=
  let nodes := sc_nodes st in
  let nav :=
    match nodes with
    | [] => nav_structure g
    | _ :: _ =>
        let pnav0 :=
          match dict_get String.eqb package_name (nav_structure g) with
          | Some pnav => pnav
          | None => []
          end in
        dict_set String.eqb package_name
          (synthesize_nav cfg nodes pnav0) (nav_structure g)
    end in
  {| skipped_files := sc_skipped st; error_files := sc_errors st;
     nav_structure := nav;
     package_nodes := dict_set String.eqb package_name nodes (package_nodes g) |}.

(** [create_documentation_file]: its result, and the source recorded in
    [error_files] by its handler. *)
Definition create_documentation_file (full_doc_path : list string)
           (identifier : string) (source_path : list string) (st : page_state)
  : bool * page_state :=
  if page_raises full_doc_path identifier source_path
  then (false, add_error source_path st)
  else (true, st).

(** The end of a turn of the loop, from [identifier = ...] on.
    [full_doc_path] is [Path(docs_base_path) / package_name / doc_path],
    given by the operands. *)
Definition write_page (package_name : string) (path : list string)
           (parts1 : parts) (doc_path : list string) (st : page_state)
  : page_state :=
  let identifier := generate_module_identifier parts1 in
  let full_doc_path := docs_base_path cfg :: package_name :: doc_path in
  let nav_key := package_name :: parts1 in
  let nav_path := (package_name ++ "/" ++ join "/" doc_path)%string in
  let in_nav :=
    negb (only_index_pages cfg)
    || (only_index_pages cfg && String.eqb (last_seg path) "__init__.py") in
  if in_nav && nav_set_raises nav_key nav_path then
    (* the handler of the turn *)
    add_error path st
  else
    let st1 :=
      if in_nav
      then {| pg_scan := pg_scan st; pg_generated := pg_generated st;
              pg_nav := pg_nav st ++ [(nav_key, nav_path)] |}
      else st in
    let '(created, st2) :=
      create_documentation_file full_doc_path identifier path st1 in
    if created then
      {| pg_scan := record_node cfg package_name path parts1 doc_path
                                (pg_scan st2);
         pg_generated := pg_generated st2 ++ [full_doc_path];
         pg_nav := pg_nav st2 |}
    else st2.

(** One turn of [for path in python_files] in [process_package]. *)
Definition document_file (code_src : list string) (package_name : string)
           (st : page_state) (f : py_file) : page_state :=
  let path := code_src ++ pf_dirs f ++ [(pf_stem f ++ ".py")%string] in
  if should_exclude_path cfg path then
    {| pg_scan := {| sc_skipped := sc_skipped (pg_scan st) ++ [path];
                     sc_errors := sc_errors (pg_scan st);
                     sc_nodes := sc_nodes (pg_scan st);
                     sc_has_all := sc_has_all (pg_scan st) |};
       pg_generated := pg_generated st; pg_nav := pg_nav st |}
  else
    let module_path := pf_dirs f ++ [pf_stem f] in
    let doc_path := pf_dirs f ++ [with_suffix (pf_stem f) ".md"] in
    if String.eqb (last_seg module_path) "__init__" then
      let '(parts1, doc_path1, has_all) :=
        process_init_module module_path doc_path (pf_text f) in
      let st1 :=
        {| pg_scan := {| sc_skipped := sc_skipped (pg_scan st);
                         sc_errors := sc_errors (pg_scan st);
                         sc_nodes := sc_nodes (pg_scan st);
                         sc_has_all := Some has_all |};
           pg_generated := pg_generated st; pg_nav := pg_nav st |} in
      match parts1 with
      | [] => st1
      | _ :: _ =>
          if negb has_all then st1
          else write_page package_name path parts1 doc_path1 st1
      end
    else if String.eqb (last_seg module_path) "__main__" then st
    else if only_index_pages cfg then st
    else write_page package_name path module_path doc_path st.

Definition process_package (pkg : package) (d : documentation)
  : documentation :=
  match pkg_files pkg with
  | None => d
  | Some python_files =>
      let g := doc_generator d in
      let package_name := pkg_name pkg in
      let nodes0 :=
        match dict_get String.eqb package_name (package_nodes g) with
        | Some nodes => nodes
        | None => []
        end in
      let st := fold_left (document_file (pkg_src pkg) package_name) python_files
                  {| pg_scan := {| sc_skipped := skipped_files g;
                                   sc_errors := error_files g;
                                   sc_nodes := nodes0; sc_has_all := None |};
                     pg_generated := generated_files d; pg_nav := nav d |} in
      {| doc_generator := place_package package_name g (pg_scan st);
         generated_files := pg_generated st; nav := pg_nav st |}
  end.

(** The second pass of [generate]: [for package_path in
    self.config.packages: self.process_package(package_path)]. *)
Definition second_pass (packages : list package) (d : documentation)
  : documentation :=
  fold_left (fun d pkg => process_package pkg d) packages d.

(** The two passes of [generate] on a new generator; the scan of a package
    gives the same [python_files] in both. *)
Definition both_passes (packages : list package) : documentation :=
  second_pass packages
    {| doc_generator := first_pass cfg packages new_generator;
       generated_files := []; nav := [] |}.

(** The value stored for a group: [group_items], or the bare index for a
    group of one entry when [single_entry_as_group] is off. *)
Definition group_value (nodes : nodes_t) (first3 : parts) (data : group_data)
  : nav_value :=
  let items := group_items nodes first3 data in
  if (List.length items =? 1)%nat then
    if single_entry_as_group cfg then NavItems items
    else NavTarget (Index data)
  else NavItems items.

(** The files of a package that [should_exclude_path] rejects. *)
Definition excluded_paths (pkg : package) : list (list string) :=
  match pkg_files pkg with
  | Some files =>
      filter (should_exclude_path cfg) (map (file_path (pkg_src pkg)) files)
  | None => []
  end.

(** Whether a file gets a page: a package index with a non-empty export
    list, or a module other than [__main__] when [only_index_pages] is
    off. *)
Definition page_file (code_src : list string) (f : py_file) : bool :=
  negb (should_exclude_path cfg (file_path code_src f))
  && (if String.eqb (pf_stem f) "__init__"
      then (0 <? List.length (exports_of f))%nat
      else negb (String.eqb (pf_stem f) "__main__")
           && negb (only_index_pages cfg)).
End PagePass.

(** The nodes of two or more segments. *)
Definition long_nodes (nodes : nodes_t) : nodes_t :=
  filter (fun e => (2 <=? List.length (fst e))%nat) nodes.

(** Two node dictionaries with the same keys in the same order, and the same
    page for every key of two or more segments. *)
Definition same_long (a b : nodes_t) : Prop :=
  Forall2 (fun e e' => fst e = fst e'
                       /\ (2 <= List.length (fst e) -> snd e = snd e')) a b.

(** *** The outcome of the page pass for one file *)

Section PageOutcome.
Context {py : PythonAst} {gen_files : GenFiles}.
Variable cfg : DocumentationConfig.

(** [parts] and [doc_path] of a file when its page is written. *)
Definition page_entry (f : py_file) : parts * list string :=
  if String.eqb (pf_stem f) "__init__" then
    fst (process_init_module (pf_dirs f ++ [pf_stem f])
                             (pf_dirs f ++ [with_suffix (pf_stem f) ".md"])
                             (pf_text f))
  else (pf_dirs f ++ [pf_stem f], pf_dirs f ++ [with_suffix (pf_stem f) ".md"]).

(** [full_doc_path] of a file. *)
Definition page_path (package_name : string) (f : py_file) : list string :=
  docs_base_path cfg :: package_name :: snd (page_entry f).

(** [(nav_key, nav_path)] of a file. *)
Definition nav_entry (package_name : string) (f : py_file)
  : list string * string :=
  (package_name :: fst (page_entry f),
   (package_name ++ "/" ++ join "/" (snd (page_entry f)))%string).

Definition nav_fails (package_name : string) (f : py_file) : bool :=
  nav_set_raises (fst (nav_entry package_name f)) (snd (nav_entry package_name f)).

(** An exception is met in the turn of a file that gets a page. *)
Definition page_fails (code_src : list string) (package_name : string)
           (f : py_file) : bool :=
  nav_fails package_name f
  || page_raises (page_path package_name f)
                 (generate_module_identifier (fst (page_entry f)))
                 (file_path code_src f).
End PageOutcome.

(** Two [package_nodes] with the same package names in the same order and,
    name by name, node dictionaries that are [same_long]. *)
Definition nodes_agree (a b : dict string nodes_t) : Prop :=
  Forall2 (fun e e' => fst e = fst e' /\ same_long (snd e) (snd e')) a b.

(** The page of a node of two or more segments. *)
Definition index_of_parts (cfg : DocumentationConfig) (package_name : string)
           (parts0 : parts) : string :=
  index_path_of cfg package_name (parts0 ++ ["index.md"]).

(** [python_files] of a package, empty when the scan gives none. *)
Definition files_of (pkg : package) : list py_file :=
  match pkg_files pkg with
  | Some files => files
  | None => []
  end.

Section PageAccounts.
Context {py : PythonAst} {gen_files : GenFiles}.
Variable cfg : DocumentationConfig.

(** The sources of a package whose turn met an exception. *)
Definition failed_sources (pkg : package) : list (list string) :=
  map (file_path (pkg_src pkg))
      (filter (fun f => page_file cfg (pkg_src pkg) f
                        && page_fails cfg (pkg_src pkg) (pkg_name pkg) f)
              (files_of pkg)).

(** The pages of a package that were written. *)
Definition written_pages (pkg : package) : list (list string) :=
  map (page_path cfg (pkg_name pkg))
      (filter (fun f => page_file cfg (pkg_src pkg) f
                        && negb (page_fails cfg (pkg_src pkg) (pkg_name pkg) f))
              (files_of pkg)).

(** The assignments to [self.nav] made for a package. *)
Definition nav_assignments (pkg : package) : list (list string * string) :=
  map (nav_entry (pkg_name pkg))
      (filter (fun f => page_file cfg (pkg_src pkg) f
                        && negb (nav_fails (pkg_name pkg) f))
              (files_of pkg)).
End PageAccounts.

(** *** The page of a module ([create_documentation_file]) *)

(** [identifier.split('.')[-1] if '.' in identifier else identifier] *)
Definition module_title (identifier : string) : string :=
  if contains "." identifier
  then last (split_on "." identifier) EmptyString
  else identifier.

(** The text of the page, one [fd.write] after the other. *)
Definition page_text (package_info : package_info_t) (identifier : string)
           (source_path : list string) (package_path : string) : string :=
  ("# " ++ module_title identifier ++ NL ++ NL)
  ++ (if String.eqb (last_seg source_path) "__init__.py" then
        (if String.eqb identifier "bridgic.core.automa"
         then "::: bridgic.core.automa.worker._worker_decorator" ++ NL
         else EmptyString)
        ++ "::: " ++ identifier ++ NL
      else
        (if truthy package_path then
           let description := get_package_description package_info package_path in
           if truthy description then "> " ++ description ++ NL ++ NL
           else EmptyString
         else EmptyString)
        ++ "::: " ++ identifier ++ NL).

(** *** Sources with a reassigned and with a numeric export list *)






(* ===================================================================== *)
(** ** Facts about strings *)
(* ===================================================================== *)





Lemma drop_empty (n : nat) : drop n EmptyString = EmptyString.
Proof. now destruct n. Qed.

Lemma str_app_assoc (a b c : string) : ((a ++ b) ++ c = a ++ (b ++ c))%string.
Proof. induction a as [|x a IH]; simpl; auto. now rewrite IH. Qed.


Lemma str_length_app (a b : string) :
  String.length (a ++ b) = String.length a + String.length b.
Proof. induction a as [|x a IH]; simpl; auto. Qed.

Lemma startswith_app (p s : string) : startswith p (p ++ s) = true.
Proof.
  induction p as [|c p IH]; simpl; auto. now rewrite Ascii.eqb_refl.
Qed.

Lemma startswith_split (p s : string) :
  startswith p s = true -> s = (p ++ drop (String.length p) s)%string.
Proof.
  revert s; induction p as [|c p IH]; intros s H; simpl in *; auto.
  destruct s as [|d s]; [discriminate|].
  destruct (Ascii.eqb_spec c d) as [->|]; [|discriminate].
  simpl. now rewrite <- IH.
Qed.

(** [find] returns the least index at which [sub] starts. *)
Lemma find_some (sub s : string) (n : nat) :
  find sub s = Some n ->
  startswith sub (drop n s) = true /\
  (forall i, i < n -> startswith sub (drop i s) = false) /\
  n <= String.length s.
Proof.
  revert n; induction s as [|c s IH]; intros n; simpl.
  - destruct (startswith sub "") eqn:E; [|discriminate].
    intros [= <-]. simpl. repeat split; auto; intros; lia.
  - destruct (startswith sub (String c s)) eqn:E.
    + intros [= <-]. simpl. repeat split; auto; intros; lia.
    + destruct (find sub s) as [m|] eqn:F; simpl; [|discriminate].
      intros [= <-]. destruct (IH m eq_refl) as (H1 & H2 & H3).
      simpl. repeat split; auto; [|lia].
      intros [|i] Hi; simpl; auto. apply H2; lia.
Qed.

Lemma find_none (sub s : string) :
  find sub s = None -> forall i, startswith sub (drop i s) = false.
Proof.
  induction s as [|c s IH]; simpl.
  - destruct (startswith sub "") eqn:E; [discriminate|].
    intros _ i. now rewrite drop_empty.
  - destruct (startswith sub (String c s)) eqn:E; [discriminate|].
    destruct (find sub s) eqn:F; simpl; [discriminate|].
    intros _ [|i]; simpl; auto.
Qed.

Lemma find_here (sub s : string) :
  startswith sub s = true -> find sub s = Some 0.
Proof. intros H. destruct s; simpl; now rewrite H. Qed.

Lemma find_at (sub pre post : string) :
  (forall i, i < String.length pre ->
             startswith sub (drop i (pre ++ sub ++ post)) = false) ->
  find sub (pre ++ sub ++ post) = Some (String.length pre).
Proof.
  induction pre as [|c pre IH]; intros H.
  - simpl. apply find_here, startswith_app.
  - change ((String c pre ++ sub ++ post)%string)
      with (String c (pre ++ sub ++ post)).
    cbn [find]. pose proof (H 0 ltac:(simpl; lia)) as H0.
    cbn [drop] in H0.
    change ((String c pre ++ sub ++ post)%string)
      with (String c (pre ++ sub ++ post)) in H0.
    rewrite H0, IH; [reflexivity|].
    intros i Hi. apply (H (S i)). simpl; lia.
Qed.

(** Characters passed over are dropped. *)
Lemma replace_from_skip (old new : string) (k : nat) (s : string) :
  replace_from old new k s = replace_from old new 0 (drop k s).
Proof.
  revert k; induction s as [|c s IH]; intros [|k]; simpl; auto.
Qed.



Lemma contains_find (sub s : string) :
  contains sub s = true <-> exists n, find sub s = Some n.
Proof.
  unfold contains. destruct (find sub s) as [m|]; split; eauto.
  - discriminate.
  - intros [n H]; discriminate.
Qed.

(* ===================================================================== *)
(** ** Primary mode: substitution into the template *)
(* ===================================================================== *)



Lemma rendered_keys (p : string -> bool) (nav : nav_structure_t) :
  (forall k, p k = true -> rendered_package k = true) ->
  filter p (dict_keys (rendered_part nav)) = filter p (dict_keys nav).
Proof.
  intros Hp. induction nav as [|[k v] nav IH]; simpl; auto.
  destruct (rendered_package k) eqn:R; simpl.
  - now rewrite IH.
  - destruct (p k) eqn:P; auto. apply Hp in P. congruence.
Qed.

Lemma rendered_get (k : string) (nav : nav_structure_t) :
  rendered_package k = true ->
  dict_get String.eqb k (rendered_part nav) = dict_get String.eqb k nav.
Proof.
  intros Hk. induction nav as [|[k' v] nav IH]; simpl; auto.
  destruct (String.eqb_spec k k') as [<-|Hne].
  - rewrite Hk. simpl. now rewrite String.eqb_refl.
  - destruct (rendered_package k'); simpl; auto.
    destruct (String.eqb_spec k k'); [contradiction|auto].
Qed.

Lemma core_lines_rendered (nav : nav_structure_t) :
  core_lines (rendered_part nav) = core_lines nav.
Proof.
  unfold core_lines.
  rewrite rendered_keys.
  2:{ intros k Hk. unfold rendered_package. now rewrite Hk. }
  destruct (filter _ (dict_keys nav)) as [|core_key rest] eqn:F; auto.
  assert (In core_key (filter (fun k => String.eqb (lower k) "bridgic-core")
                              (dict_keys nav))) as Hin
      by (rewrite F; now left).
  apply filter_In in Hin. destruct Hin as [_ Hcore].
  rewrite rendered_get; auto.
  unfold rendered_package. now rewrite Hcore.
Qed.

Lemma integration_entries_rendered (nav : nav_structure_t) :
  integration_entries (rendered_part nav) = integration_entries nav.
Proof.
  unfold integration_entries, dict_keys.
  induction nav as [|[k v] nav IH]; [reflexivity|].
  unfold rendered_part. cbn [filter fst]. fold (rendered_part nav).
  destruct (rendered_package k) eqn:R; cbn [map fst flat_map].
  - f_equal. apply IH.
  - unfold rendered_package in R. apply orb_false_iff in R.
    destruct R as [_ R]. rewrite R. apply IH.
Qed.

(** Packages other than ['bridgic-core'] and ['bridgic-llms-*'] leave no
    trace in the generated text. *)
Lemma content_of_rendered_part (nav : nav_structure_t) :
  _generate_api_reference_content nav
  = _generate_api_reference_content (rendered_part nav).
Proof.
  unfold _generate_api_reference_content, integration_lines.
  now rewrite core_lines_rendered, integration_entries_rendered.
Qed.




(* ===================================================================== *)
(** ** Failures of the merge and the destination file *)
(* ===================================================================== *)

Lemma write_mkdocs_failure (fault : io_fault) (content : string) (f : fs) :
  (forall written, fault <> WriteFails written) ->
  fst (write_mkdocs fault content f) = false ->
  snd (write_mkdocs fault content f) = f.
Proof.
  intros Hw. destruct fault as [| | |written]; simpl; try discriminate; auto.
  now destruct (Hw written).
Qed.

Lemma write_mkdocs_template (fault : io_fault) (content : string) (f : fs) :
  template_file (snd (write_mkdocs fault content f)) = template_file f.
Proof. now destruct fault. Qed.

(** C2 (as the claim states it, refuted): the write raises after the
    destination was opened; both merge routines report the failure and the
    destination, which held [sample_mkdocs], is left empty. *)
Lemma C2_write_error_truncates_destination :
  mkdocs_file sample_fs = Some sample_mkdocs
  /\ update_mkdocs_config (WriteFails 0) (sample_nav "bridgic-core") sample_fs
     = (false, {| template_file := Some sample_template;
                  mkdocs_file := Some EmptyString |})
  /\ _update_mkdocs_config_legacy (WriteFails 0) (sample_nav "bridgic-core")
       sample_fs
     = (false, {| template_file := Some sample_template;
                  mkdocs_file := Some EmptyString |}).
Proof. repeat split; vm_compute; reflexivity. Qed.

(** C2 (amended): a merge that fails because the placeholder is absent,
    because the [nav:] marker of the legacy routine is missing, or because
    the destination cannot be opened leaves both files as they were; more
    generally, a failed merge changed nothing unless the write itself raised
    after the destination had been opened. *)
Theorem C2_failure_before_write_keeps_files
        (fault : io_fault) (nav : nav_structure_t) (f : fs) :
  ((forall t, template_file f = Some t -> contains PLACEHOLDER t = false) ->
   update_mkdocs_config fault nav f = (false, f))
  /\ ((forall o, mkdocs_file f = Some o -> search_nav_start o = None) ->
      _update_mkdocs_config_legacy fault nav f = (false, f))
  /\ (fault = OpenFails ->
      update_mkdocs_config fault nav f = (false, f)
      /\ _update_mkdocs_config_legacy fault nav f = (false, f))
  /\ ((forall written, fault <> WriteFails written) ->
      (fst (update_mkdocs_config fault nav f) = false ->
       snd (update_mkdocs_config fault nav f) = f)
      /\ (fst (_update_mkdocs_config_legacy fault nav f) = false ->
          snd (_update_mkdocs_config_legacy fault nav f) = f)).
Proof.
  split; [|split; [|split]].
  - intros H. unfold update_mkdocs_config.
    destruct (template_file f) as [t|] eqn:T; auto.
    rewrite (H t eq_refl). cbn [negb]. now destruct (is_read_fault fault).
  - intros H. unfold _update_mkdocs_config_legacy, stage_nav.
    destruct (mkdocs_file f) as [o|] eqn:M; auto.
    rewrite (H o eq_refl). now destruct (is_read_fault fault).
  - intros ->. split.
    + unfold update_mkdocs_config.
      destruct (template_file f); auto. cbn [is_read_fault].
      now destruct (negb _).
    + unfold _update_mkdocs_config_legacy.
      destruct (mkdocs_file f); auto. cbn [is_read_fault].
      now destruct (stage_nav _) as [[[? ?] ?]|].
  - intros Hw. split.
    + unfold update_mkdocs_config.
      destruct (template_file f); auto.
      destruct (is_read_fault fault); auto.
      destruct (negb _); auto.
      now apply write_mkdocs_failure.
    + unfold _update_mkdocs_config_legacy.
      destruct (mkdocs_file f); auto.
      destruct (is_read_fault fault); auto.
      destruct (stage_nav _) as [[[? ?] ?]|]; auto.
      now apply write_mkdocs_failure.
Qed.

(** C2 on three failing merges: no placeholder, no [nav:] line, a
    destination that cannot be opened. *)
Lemma C2_failure_before_write_keeps_files_witness :
  update_mkdocs_config NoFault (sample_nav "bridgic-core")
    {| template_file := Some sample_mkdocs; mkdocs_file := Some sample_mkdocs |}
  = (false,
     {| template_file := Some sample_mkdocs; mkdocs_file := Some sample_mkdocs |})
  /\ _update_mkdocs_config_legacy NoFault (sample_nav "bridgic-core")
       {| template_file := None; mkdocs_file := Some "site_name: demo" |}
     = (false, {| template_file := None; mkdocs_file := Some "site_name: demo" |})
  /\ update_mkdocs_config OpenFails (sample_nav "bridgic-core") sample_fs
     = (false, sample_fs).
Proof.
  split; [|split].
  - destruct (C2_failure_before_write_keeps_files NoFault
                (sample_nav "bridgic-core")
                {| template_file := Some sample_mkdocs;
                   mkdocs_file := Some sample_mkdocs |}) as (H & _).
    apply H. intros t [= <-]. vm_compute. reflexivity.
  - destruct (C2_failure_before_write_keeps_files NoFault
                (sample_nav "bridgic-core")
                {| template_file := None;
                   mkdocs_file := Some "site_name: demo" |}) as (_ & H & _).
    apply H. intros o [= <-]. vm_compute. reflexivity.
  - destruct (C2_failure_before_write_keeps_files OpenFails
                (sample_nav "bridgic-core") sample_fs) as (_ & _ & H & _).
    apply H. reflexivity.
Defined.

(* ===================================================================== *)
(** ** Re-running the merge *)
(* ===================================================================== *)

Lemma update_keeps_template (fault : io_fault) (nav : nav_structure_t) (f : fs) :
  template_file (snd (update_mkdocs_config fault nav f)) = template_file f.
Proof.
  unfold update_mkdocs_config.
  destruct (template_file f) eqn:T; auto.
  destruct (is_read_fault fault); auto.
  destruct (negb _); auto.
  now rewrite write_mkdocs_template.
Qed.

(** The result of a fault-free merge as a function of the template alone. *)
Lemma update_result (nav : nav_structure_t) (f : fs) :
  update_mkdocs_config NoFault nav f =
  match template_file f with
  | Some t =>
      if contains PLACEHOLDER t
      then (true, {| template_file := Some t;
                     mkdocs_file :=
                       Some (replace PLACEHOLDER
                               (_generate_api_reference_content nav) t) |})
      else (false, f)
  | None => (false, f)
  end.
Proof.
  unfold update_mkdocs_config.
  destruct (template_file f) as [t|] eqn:T; auto.
  cbn [is_read_fault]. destruct (contains PLACEHOLDER t); cbn [negb]; auto.
  unfold write_mkdocs. now rewrite T.
Qed.

(** C9: the merge is idempotent and deterministic.  Merging again into the
    files a merge left gives the same result and the same files; two merges
    from the same template and navigation structure succeed or fail together
    and, when they succeed, write the same destination text whatever the
    destination held before; the same holds for two runs of the generation
    on the same packages. *)
Theorem C9_merge_idempotent
        (py : PythonAst) (cfg : DocumentationConfig) (packages : list package)
        (nav : nav_structure_t) (f : fs) :
  update_mkdocs_config NoFault nav (snd (update_mkdocs_config NoFault nav f))
  = update_mkdocs_config NoFault nav f
  /\ (forall f', template_file f' = template_file f ->
        fst (update_mkdocs_config NoFault nav f')
        = fst (update_mkdocs_config NoFault nav f)
        /\ (fst (update_mkdocs_config NoFault nav f) = true ->
            mkdocs_file (snd (update_mkdocs_config NoFault nav f'))
            = mkdocs_file (snd (update_mkdocs_config NoFault nav f))))
  /\ generate cfg packages NoFault (snd (generate cfg packages NoFault f))
     = generate cfg packages NoFault f.
Proof.
  assert (forall nav0 f0,
             update_mkdocs_config NoFault nav0
               (snd (update_mkdocs_config NoFault nav0 f0))
             = update_mkdocs_config NoFault nav0 f0) as Hidem.
  { intros nav0 f0. rewrite (update_result nav0 f0).
    destruct (template_file f0) as [t|] eqn:T.
    - destruct (contains PLACEHOLDER t) eqn:C; cbn [snd].
      + rewrite update_result. cbn [template_file]. now rewrite C.
      + rewrite update_result, T. now rewrite C.
    - cbn [snd]. now rewrite update_result, T. }
  split; [apply Hidem|split].
  - intros f' Heq. rewrite (update_result nav f'), (update_result nav f), Heq.
    destruct (template_file f) as [t|]; [|split; [reflexivity|discriminate]].
    destruct (contains PLACEHOLDER t); split; auto; discriminate.
  - unfold generate.
    destruct (nav_structure (first_pass cfg packages new_generator)) as [|e nav0];
      cbn [snd]; auto.
    f_equal. f_equal. apply Hidem.
Qed.

(** C9 on the sample files: the text written does not depend on what the
    destination held. *)
Lemma C9_merge_idempotent_witness :
  mkdocs_file (snd (update_mkdocs_config NoFault (sample_nav "bridgic-core")
                      {| template_file := Some sample_template;
                         mkdocs_file := None |}))
  = mkdocs_file (snd (update_mkdocs_config NoFault (sample_nav "bridgic-core")
                        sample_fs)).
Proof.
  pose (py := {| expr := unit; ast_parse := fun _ => None;
                 literal_eval := fun _ => None;
                 str_other := fun _ => EmptyString |}).
  apply (C9_merge_idempotent py sample_cfg [] (sample_nav "bridgic-core")
           sample_fs); vm_compute; reflexivity.
Defined.

(* ===================================================================== *)
(** ** The legacy routine: staging of the [nav:] region *)
(* ===================================================================== *)











(* ===================================================================== *)
(** ** Facts about dictionaries, tuples and [sorted] *)
(* ===================================================================== *)

Lemma parts_eqb_eq (a b : parts) : parts_eqb a b = true <-> a = b.
Proof.
  revert b; induction a as [|x a IH]; intros [|y b]; simpl; split;
    try discriminate; auto.
  - intros H. apply andb_true_iff in H. destruct H as [H1 H2].
    apply String.eqb_eq in H1. apply IH in H2. congruence.
  - intros [= -> ->]. rewrite String.eqb_refl. now apply IH.
Qed.

Lemma parts_eqb_refl (a : parts) : parts_eqb a a = true.
Proof. now apply parts_eqb_eq. Qed.

Section DictFacts.
Variables (K V : Type) (keq : K -> K -> bool).
Hypothesis keq_eq : forall a b, keq a b = true <-> a = b.

Lemma dict_set_in (k0 k : K) (v0 v : V) (d : dict K V) :
  In (k, v) (dict_set keq k0 v0 d) -> In (k, v) d \/ (k = k0 /\ v = v0).
Proof.
  induction d as [|[k' v'] d IH]; simpl.
  - intros [[= <- <-]|[]]. now right.
  - destruct (keq k0 k') eqn:E.
    + apply keq_eq in E. subst k'. intros [[= <- <-]|H]; auto.
    + intros [H|H]; auto. destruct (IH H); auto.
Qed.

Lemma dict_get_in (k : K) (v : V) (d : dict K V) :
  dict_get keq k d = Some v -> In (k, v) d.
Proof.
  induction d as [|[k' v'] d IH]; simpl; [discriminate|].
  destruct (keq k k') eqn:E.
  - apply keq_eq in E. subst k'. intros [= ->]. now left.
  - auto.
Qed.

Lemma dict_get_set_same (k : K) (v : V) (d : dict K V) :
  dict_get keq k (dict_set keq k v d) = Some v.
Proof.
  assert (keq k k = true) as R by now apply keq_eq.
  induction d as [|[k' v'] d IH]; simpl.
  - now rewrite R.
  - destruct (keq k k') eqn:E; simpl; now rewrite E.
Qed.

Lemma dict_get_set_other (k k0 : K) (v0 : V) (d : dict K V) :
  k <> k0 -> dict_get keq k (dict_set keq k0 v0 d) = dict_get keq k d.
Proof.
  intros Hne.
  assert (keq k k0 = false) as N.
  { destruct (keq k k0) eqn:E; auto. apply keq_eq in E. contradiction. }
  induction d as [|[k' v'] d IH]; simpl.
  - now rewrite N.
  - destruct (keq k0 k') eqn:E; simpl.
    + apply keq_eq in E. subst k'. now rewrite N.
    + destruct (keq k k'); auto.
Qed.

Lemma dict_keys_in (k : K) (d : dict K V) :
  In k (dict_keys d) -> exists v, dict_get keq k d = Some v.
Proof.
  unfold dict_keys.
  induction d as [|[k' v'] d IH]; simpl; [intros []|].
  destruct (keq k k') eqn:E; eauto.
  intros [<-|H]; auto.
  assert (keq k' k' = true) by now apply keq_eq. congruence.
Qed.

Lemma dict_set_keys (k0 k : K) (v0 : V) (d : dict K V) :
  In k (dict_keys (dict_set keq k0 v0 d)) <-> k = k0 \/ In k (dict_keys d).
Proof.
  unfold dict_keys.
  induction d as [|[k' v'] d IH]; simpl.
  - intuition.
  - destruct (keq k0 k') eqn:E; simpl.
    + apply keq_eq in E. subst k'. intuition.
    + rewrite IH. intuition.
Qed.
End DictFacts.

Section SortedFacts.
Variables (A : Type) (ltb : A -> A -> bool).

Lemma insert_sorted_in (x y : A) (l : list A) :
  In y (insert_sorted ltb x l) <-> y = x \/ In y l.
Proof.
  induction l as [|z l IH]; simpl.
  - intuition.
  - destruct (ltb z x); simpl; [rewrite IH|]; intuition.
Qed.

(** [sorted] keeps the elements. *)
Lemma sorted_in (y : A) (l : list A) : In y (sorted ltb l) <-> In y l.
Proof.
  induction l as [|x l IH]; simpl; [tauto|].
  rewrite insert_sorted_in, IH. intuition.
Qed.

Lemma insert_sorted_length (x : A) (l : list A) :
  List.length (insert_sorted ltb x l) = S (List.length l).
Proof.
  induction l as [|z l IH]; simpl; auto.
  destruct (ltb z x); simpl; auto.
Qed.

Lemma sorted_length (l : list A) : List.length (sorted ltb l) = List.length l.
Proof.
  induction l as [|x l IH]; simpl; auto.
  now rewrite insert_sorted_length, IH.
Qed.
End SortedFacts.

(** A property of the accumulator that every step keeps holds at the end of
    a [fold_left]. *)
Lemma fold_left_invariant (A B : Type) (step : A -> B -> A) (P : A -> Prop)
      (l : list B) :
  (forall a b, In b l -> P a -> P (step a b)) ->
  forall a, P a -> P (fold_left step l a).
Proof.
  induction l as [|b l IH]; simpl; intros Hstep a Ha; [assumption|].
  apply IH; auto.
Qed.

(* ===================================================================== *)
(** ** The tree builder *)
(* ===================================================================== *)

Lemma item_targets_group (label : string) (items : list nav_item) :
  item_targets (NavGroup label items) = flat_map item_targets items.
Proof.
  cbn [item_targets]. induction items as [|x items IH]; [reflexivity|].
  cbn [flat_map]. now rewrite <- IH.
Qed.

(** Every group comes from a node of at least three segments: its key is
    the first three of them and its index is the page of that node. *)
Lemma build_groups_origin (nodes : nodes_t) (key : parts) (data : group_data) :
  In (key, data) (build_groups nodes) ->
  exists p, In (p, Index data) nodes /\ 3 <= List.length p /\ key = firstn 3 p.
Proof.
  unfold build_groups. revert key data.
  apply (@fold_left_invariant _ _ add_to_groups
           (fun groups => forall key data, In (key, data) groups ->
              exists p, In (p, Index data) nodes /\ 3 <= List.length p
                        /\ key = firstn 3 p)).
  2:{ intros key data []. }
  intros groups [pt ip] Hin Hinv key data. unfold add_to_groups.
  destruct (3 <=? List.length pt)%nat eqn:L; [|apply Hinv].
  apply Nat.leb_le in L.
  set (key0 := firstn 3 pt).
  set (groups1 := if dict_mem parts_eqb key0 groups then groups
                  else dict_set parts_eqb key0
                         {| Index := ip; children__ := [] |} groups).
  assert (forall k d, In (k, d) groups1 ->
            exists p, In (p, Index d) nodes /\ 3 <= List.length p
                      /\ k = firstn 3 p) as Hinv1.
  { intros k d. unfold groups1.
    destruct (dict_mem parts_eqb key0 groups); [apply Hinv|].
    intros H. apply (dict_set_in _ parts_eqb_eq) in H.
    destruct H as [H|[-> ->]]; [now apply Hinv|].
    exists pt. auto. }
  destruct (dict_get parts_eqb key0 groups1) as [data0|] eqn:G;
    [|apply Hinv1].
  intros H. apply (dict_set_in _ parts_eqb_eq) in H.
  destruct H as [H|[-> ->]]; [now apply Hinv1|].
  apply (dict_get_in _ parts_eqb_eq) in G. cbn [Index]. now apply Hinv1.
Qed.

(** The children of a group are nodes of four segments below its key. *)
Lemma child_index_map_in (nodes : nodes_t) (first3 p : parts) (t : string) :
  In (p, t) (child_index_map nodes first3) ->
  In (p, t) nodes /\ List.length p = 4 /\ firstn 3 p = first3.
Proof.
  unfold child_index_map. revert p t.
  apply (@fold_left_invariant _ _
           (fun (m : nodes_t) (e : parts * string) =>
              let '(parts_tuple, index_path) := e in
              if (List.length parts_tuple =? 4)%nat
                 && parts_eqb (firstn 3 parts_tuple) first3
              then dict_set parts_eqb parts_tuple index_path m else m)
           (fun m => forall p t, In (p, t) m ->
              In (p, t) nodes /\ List.length p = 4 /\ firstn 3 p = first3)).
  2:{ intros p t []. }
  intros m [pt ip] Hin Hinv p t.
  destruct ((List.length pt =? 4)%nat && parts_eqb (firstn 3 pt) first3) eqn:C;
    [|apply Hinv].
  apply andb_true_iff in C. destruct C as [C1 C2].
  apply Nat.eqb_eq in C1. apply parts_eqb_eq in C2.
  intros H. apply (dict_set_in _ parts_eqb_eq) in H.
  destruct H as [H|[-> ->]]; auto.
Qed.

Lemma node_path_in (d : nodes_t) (p : parts) :
  In p (dict_keys d) -> In (p, node_path d p) d.
Proof.
  intros H. destruct (dict_keys_in _ parts_eqb_eq _ _ H) as [v Hv].
  unfold node_path. rewrite Hv. now apply (dict_get_in _ parts_eqb_eq).
Qed.

Lemma grand_children_in (nodes : nodes_t) (child gc : parts) :
  In gc (grand_children nodes child) ->
  In gc (dict_keys nodes) /\ List.length gc = 5 /\ firstn 4 gc = child.
Proof.
  unfold grand_children. intros H. apply filter_In in H.
  destruct H as [H C]. apply andb_true_iff in C. destruct C as [C1 C2].
  apply Nat.eqb_eq in C1. apply parts_eqb_eq in C2. auto.
Qed.

(** The two-level cap: what the entry of a child links to is the child, a
    node of four segments, or one of its grand-children, nodes of five
    segments; all of them lie below the group key. *)
Lemma child_entry_targets (nodes : nodes_t) (first3 child : parts) (t : string) :
  In child (dict_keys (child_index_map nodes first3)) ->
  In t (item_targets (child_entry nodes (child_index_map nodes first3) child)) ->
  exists p, In (p, t) nodes
            /\ (List.length p = 4 \/ List.length p = 5)
            /\ firstn 3 p = first3.
Proof.
  intros Hchild. pose proof (node_path_in _ _ Hchild) as Hpath.
  apply child_index_map_in in Hpath. destruct Hpath as (Hc1 & Hc2 & Hc3).
  unfold child_entry. destruct (negb (has_deeper nodes child)).
  - simpl. intros [<-|[]]. exists child. auto.
  - rewrite item_targets_group. simpl.
    intros [<-|H]; [exists child; auto|].
    apply in_flat_map in H. destruct H as (item & Hitem & Ht).
    apply in_map_iff in Hitem. destruct Hitem as (gc & <- & Hgc).
    apply sorted_in, grand_children_in in Hgc.
    destruct Hgc as (G1 & G2 & G3).
    simpl in Ht. destruct Ht as [<-|[]].
    exists gc. split; [now apply node_path_in|]. split; [now right|].
    rewrite <- Hc3, <- G3. rewrite firstn_firstn. reflexivity.
Qed.

(** The entries of a group after its first one obey the cap. *)
Lemma group_items_tail_targets (nodes : nodes_t) (first3 : parts)
      (data : group_data) (t : string) :
  In t (flat_map item_targets (tl (group_items nodes first3 data))) ->
  exists p, In (p, t) nodes
            /\ (List.length p = 4 \/ List.length p = 5)
            /\ firstn 3 p = first3.
Proof.
  unfold group_items. cbn [tl]. intros H.
  apply in_flat_map in H. destruct H as (item & Hitem & Ht).
  apply in_map_iff in Hitem. destruct Hitem as (child & <- & Hchild).
  apply sorted_in in Hchild.
  now apply (child_entry_targets nodes first3 child).
Qed.

Lemma group_items_targets (nodes : nodes_t) (first3 : parts)
      (data : group_data) (t : string) :
  In t (flat_map item_targets (group_items nodes first3 data)) ->
  t = Index data
  \/ exists p, In (p, t) nodes
               /\ (List.length p = 4 \/ List.length p = 5)
               /\ firstn 3 p = first3.
Proof.
  intros H.
  assert (group_items nodes first3 data
          = NavLink (last_seg first3) (Index data)
              :: tl (group_items nodes first3 data)) as E by reflexivity.
  rewrite E in H. simpl in H. destruct H as [<-|H]; auto.
  right. now apply (group_items_tail_targets nodes first3 data).
Qed.

Lemma nav_targets_set (k : string) (v : nav_value) (d : package_nav) (t : string) :
  In t (nav_targets (dict_set String.eqb k v d)) ->
  In t (nav_targets d) \/ In t (value_targets v).
Proof.
  unfold nav_targets. intros H. apply in_flat_map in H.
  destruct H as ([k' v'] & Hin & Ht).
  apply (dict_set_in _ String.eqb_eq) in Hin. destruct Hin as [Hin|[-> ->]]; auto.
  left. apply in_flat_map. eauto.
Qed.

(** One turn of the loop over the groups: the keys and targets it adds. *)
Lemma place_group_keys (cfg : DocumentationConfig) (nodes : nodes_t)
      (pnav : package_nav) (first3 : parts) (data : group_data) (k : string) :
  In k (dict_keys (place_group cfg nodes pnav (first3, data))) ->
  k = join "." first3 \/ In k (dict_keys pnav).
Proof.
  unfold place_group.
  set (pnav1 := if dict_mem String.eqb (join "." first3) pnav then pnav
                else dict_set String.eqb (join "." first3) (NavItems []) pnav).
  assert (In k (dict_keys pnav1) -> k = join "." first3 \/ In k (dict_keys pnav))
    as H1.
  { unfold pnav1. destruct (dict_mem _ _ _); auto.
    now rewrite (dict_set_keys _ String.eqb_eq). }
  destruct (List.length _ =? 1)%nat; [destruct (single_entry_as_group cfg)|];
    rewrite (dict_set_keys _ String.eqb_eq); intuition.
Qed.

Lemma place_group_targets (cfg : DocumentationConfig) (nodes : nodes_t)
      (pnav : package_nav) (first3 : parts) (data : group_data) (t : string) :
  In t (nav_targets (place_group cfg nodes pnav (first3, data))) ->
  In t (nav_targets pnav)
  \/ In t (flat_map item_targets (group_items nodes first3 data)).
Proof.
  unfold place_group.
  set (pnav1 := if dict_mem String.eqb (join "." first3) pnav then pnav
                else dict_set String.eqb (join "." first3) (NavItems []) pnav).
  assert (In t (nav_targets pnav1) -> In t (nav_targets pnav)) as H1.
  { unfold pnav1. destruct (dict_mem _ _ _); auto.
    intros H. apply nav_targets_set in H. destruct H as [H|[]]; auto. }
  assert (group_items nodes first3 data
          = NavLink (last_seg first3) (Index data)
              :: tl (group_items nodes first3 data)) as E by reflexivity.
  destruct (List.length _ =? 1)%nat; [destruct (single_entry_as_group cfg)|];
    intros H; apply nav_targets_set in H; destruct H as [H|H]; auto.
  right. rewrite E. simpl in *. tauto.
Qed.

(* ===================================================================== *)
(** ** The classification loop *)
(* ===================================================================== *)

Lemma last_seg_app (l : list string) (x : string) : last_seg (l ++ [x]) = x.
Proof. unfold last_seg. apply last_last. Qed.

Lemma str_app_inv_tail (a b t : string) :
  (a ++ t = b ++ t)%string -> a = b.
Proof.
  revert b; induction a as [|x a IH]; intros [|y b] H; simpl in H; auto.
  - exfalso. apply (f_equal String.length) in H. simpl in H.
    rewrite str_length_app in H. lia.
  - exfalso. apply (f_equal String.length) in H. simpl in H.
    rewrite str_length_app in H. lia.
  - injection H as -> H. f_equal. now apply IH.
Qed.

Lemma init_file_name (stem : string) :
  String.eqb (stem ++ ".py") "__init__.py" = String.eqb stem "__init__".
Proof.
  destruct (String.eqb_spec stem "__init__") as [->|Hne].
  - reflexivity.
  - apply String.eqb_neq. intros H. apply Hne.
    now apply (@str_app_inv_tail stem "__init__" ".py").
Qed.

(** The module path returned for a package index is not empty. *)
Lemma process_init_module_parts {py : PythonAst} (dirs : list string)
      (stem : string) (doc_path : list string) (source : option string) :
  fst (fst (process_init_module (dirs ++ [stem]) doc_path source)) <> [].
Proof.
  unfold process_init_module.
  destruct (_parse_init_doc_and_all source) as [d exports].
  destruct (1 <? List.length (dirs ++ [stem]))%nat eqn:L; cbn [fst].
  - rewrite removelast_last. apply Nat.ltb_lt in L.
    rewrite List.length_app in L. simpl in L. destruct dirs; simpl in L; [lia|].
    discriminate.
  - destruct dirs; discriminate.
Qed.

Lemma process_init_module_has_all {py : PythonAst} (parts0 : parts)
      (doc_path : list string) (source : option string) :
  snd (process_init_module parts0 doc_path source)
  = (0 <? List.length (snd (_parse_init_doc_and_all source)))%nat.
Proof.
  unfold process_init_module.
  destruct (_parse_init_doc_and_all source) as [d exports].
  now destruct (1 <? List.length parts0)%nat.
Qed.

(** What one turn of the loop does to the nodes, the error list and the
    skipped list: an excluded file is added to the skipped list; a package
    index with a non-empty export list is registered; every other file
    leaves the three as they are. *)
Lemma visit_file_spec {py : PythonAst} (cfg : DocumentationConfig)
      (code_src : list string) (package_name : string) (st : scan_state)
      (f : py_file) :
  let st' := visit_file cfg code_src package_name st f in
  sc_errors st' = sc_errors st
  /\ sc_nodes st'
     = (if accepted_index cfg code_src f
        then dict_set parts_eqb (fst (init_entry cfg package_name f))
                      (snd (init_entry cfg package_name f)) (sc_nodes st)
        else sc_nodes st)
  /\ sc_skipped st'
     = (if should_exclude_path cfg (file_path code_src f)
        then sc_skipped st ++ [file_path code_src f] else sc_skipped st).
Proof.
  unfold visit_file, accepted_index, init_entry, exports_of.
  fold (file_path code_src f).
  destruct (should_exclude_path cfg (file_path code_src f)) eqn:X;
    cbn [negb andb]; [auto|].
  rewrite last_seg_app.
  pose proof (process_init_module_parts (pf_dirs f) (pf_stem f)
                (pf_dirs f ++ [with_suffix (pf_stem f) ".md"]) (pf_text f))
    as Hparts.
  pose proof (process_init_module_has_all (pf_dirs f ++ [pf_stem f])
                (pf_dirs f ++ [with_suffix (pf_stem f) ".md"]) (pf_text f))
    as Hall.
  assert (last_seg (file_path code_src f) = (pf_stem f ++ ".py")%string) as Hname.
  { unfold file_path. rewrite app_assoc. apply last_seg_app. }
  destruct (String.eqb (pf_stem f) "__init__") eqn:I; cbn [andb].
  - destruct (process_init_module _ _ _) as [[parts1 doc1] has_all].
    cbn [fst snd] in *. rewrite <- Hall.
    destruct parts1 as [|seg parts1]; [contradiction|].
    destruct has_all; cbn [negb]; [|auto].
    unfold record_node. rewrite Hname, init_file_name, I. cbn. auto.
  - destruct (String.eqb (pf_stem f) "__main__"); [auto|].
    destruct (only_index_pages cfg); [auto|].
    unfold record_node. rewrite Hname, init_file_name, I. auto.
Qed.

Section ScanFacts.
Context {py : PythonAst}.
Variables (cfg : DocumentationConfig) (code_src : list string)
          (package_name : string).

Lemma scan_errors (files : list py_file) (st : scan_state) :
  sc_errors (fold_left (visit_file cfg code_src package_name) files st)
  = sc_errors st.
Proof.
  revert st; induction files as [|f files IH]; intros st; simpl; auto.
  rewrite IH. apply visit_file_spec.
Qed.

(** The nodes after the loop are the nodes before it and the entries of the
    accepted package indices among the files. *)
Lemma scan_nodes_origin (Q : parts * string -> Prop) (files : list py_file)
      (st : scan_state) :
  (forall e, In e (sc_nodes st) -> Q e) ->
  (forall f, In f files -> accepted_index cfg code_src f = true ->
             Q (init_entry cfg package_name f)) ->
  forall e,
    In e (sc_nodes (fold_left (visit_file cfg code_src package_name) files st)) ->
    Q e.
Proof.
  revert st; induction files as [|f files IH]; intros st Hst Hacc; simpl; auto.
  apply IH.
  - intros e.
    destruct (visit_file_spec cfg code_src package_name st f) as (_ & -> & _).
    destruct (accepted_index cfg code_src f) eqn:A; auto.
    destruct e as [p t]. intros H.
    apply (dict_set_in _ parts_eqb_eq) in H. destruct H as [H|[-> ->]]; auto.
    rewrite <- surjective_pairing. apply Hacc; auto. now left.
  - intros f' Hf'. apply Hacc. now right.
Qed.

Lemma scan_keys_monotone (files : list py_file) (st : scan_state) (k : parts) :
  In k (dict_keys (sc_nodes st)) ->
  In k (dict_keys (sc_nodes
                     (fold_left (visit_file cfg code_src package_name) files st))).
Proof.
  revert st; induction files as [|f files IH]; intros st Hk; simpl; auto.
  apply IH.
  destruct (visit_file_spec cfg code_src package_name st f) as (_ & -> & _).
  destruct (accepted_index cfg code_src f); auto.
  apply (dict_set_keys _ parts_eqb_eq). now right.
Qed.

(** Every accepted package index among the files is registered. *)
Lemma scan_registers (files : list py_file) (st : scan_state) (f : py_file) :
  In f files ->
  accepted_index cfg code_src f = true ->
  In (fst (init_entry cfg package_name f))
     (dict_keys (sc_nodes
                   (fold_left (visit_file cfg code_src package_name) files st))).
Proof.
  revert st; induction files as [|f0 files IH]; intros st Hin Hacc;
    [destruct Hin|].
  destruct Hin as [<-|Hin]; simpl.
  - apply scan_keys_monotone.
    destruct (visit_file_spec cfg code_src package_name st f0) as (_ & -> & _).
    rewrite Hacc. apply (dict_set_keys _ parts_eqb_eq). now left.
  - now apply IH.
Qed.
End ScanFacts.

(** The targets and keys that [synthesize_nav] adds come from nodes of at
    least three segments. *)
Lemma synthesize_nav_targets (cfg : DocumentationConfig) (nodes : nodes_t)
      (pnav0 : package_nav) (t : string) :
  In t (nav_targets (synthesize_nav cfg nodes pnav0)) ->
  In t (nav_targets pnav0)
  \/ exists p, In (p, t) nodes /\ 3 <= List.length p.
Proof.
  unfold synthesize_nav. revert t.
  apply (@fold_left_invariant _ _ (place_group cfg nodes)
           (fun pnav => forall t, In t (nav_targets pnav) ->
              In t (nav_targets pnav0)
              \/ exists p, In (p, t) nodes /\ 3 <= List.length p)); auto.
  intros pnav [first3 data] Hg Hinv t Ht.
  apply place_group_targets in Ht. destruct Ht as [Ht|Ht]; auto.
  right. apply group_items_targets in Ht.
  destruct Ht as [->|(p & Hp & Hlen & _)].
  - apply build_groups_origin in Hg. destruct Hg as (p & Hp & Hlen & _). eauto.
  - exists p. split; auto. lia.
Qed.

Lemma synthesize_nav_keys (cfg : DocumentationConfig) (nodes : nodes_t)
      (pnav0 : package_nav) (k : string) :
  In k (dict_keys (synthesize_nav cfg nodes pnav0)) ->
  In k (dict_keys pnav0)
  \/ exists p t, In (p, t) nodes /\ 3 <= List.length p
                 /\ k = join "." (firstn 3 p).
Proof.
  unfold synthesize_nav. revert k.
  apply (@fold_left_invariant _ _ (place_group cfg nodes)
           (fun pnav => forall k, In k (dict_keys pnav) ->
              In k (dict_keys pnav0)
              \/ exists p t, In (p, t) nodes /\ 3 <= List.length p
                             /\ k = join "." (firstn 3 p))); auto.
  intros pnav [first3 data] Hg Hinv k Hk.
  apply place_group_keys in Hk. destruct Hk as [->|Hk]; auto.
  right. apply build_groups_origin in Hg.
  destruct Hg as (p & Hp & Hlen & ->). eauto.
Qed.

(* ===================================================================== *)
(** ** The structure pass *)
(* ===================================================================== *)

Section PassFacts.
Context {py : PythonAst}.
Variable cfg : DocumentationConfig.

Lemma bnso_errors (pkg : package) (g : generator) :
  error_files (_build_nav_structure_only cfg pkg g) = error_files g.
Proof.
  unfold _build_nav_structure_only. destruct (pkg_files pkg); auto.
  cbn [error_files]. now rewrite scan_errors.
Qed.

(** Nodes registered for a package name stay registered. *)
Lemma bnso_keeps_keys (pkg : package) (g : generator) (name : string)
      (nodes : nodes_t) (k : parts) :
  dict_get String.eqb name (package_nodes g) = Some nodes ->
  In k (dict_keys nodes) ->
  exists nodes',
    dict_get String.eqb name
             (package_nodes (_build_nav_structure_only cfg pkg g)) = Some nodes'
    /\ In k (dict_keys nodes').
Proof.
  intros Hget Hk. unfold _build_nav_structure_only.
  destruct (pkg_files pkg) as [files|]; [|eauto].
  cbn [package_nodes].
  destruct (String.eqb_spec name (pkg_name pkg)) as [<-|Hne].
  - rewrite (dict_get_set_same _ String.eqb_eq). eexists. split; [reflexivity|].
    rewrite Hget. now apply scan_keys_monotone.
  - rewrite (dict_get_set_other _ String.eqb_eq) by assumption. eauto.
Qed.

Lemma bnso_registers (pkg : package) (g : generator) (files : list py_file)
      (f : py_file) :
  pkg_files pkg = Some files ->
  In f files ->
  accepted_index cfg (pkg_src pkg) f = true ->
  exists nodes,
    dict_get String.eqb (pkg_name pkg)
             (package_nodes (_build_nav_structure_only cfg pkg g)) = Some nodes
    /\ In (fst (init_entry cfg (pkg_name pkg) f)) (dict_keys nodes).
Proof.
  intros Hfiles Hin Hacc. unfold _build_nav_structure_only. rewrite Hfiles.
  cbn [package_nodes]. rewrite (dict_get_set_same _ String.eqb_eq).
  eexists. split; [reflexivity|]. now apply scan_registers.
Qed.

Lemma first_pass_keeps_keys (packages : list package) (g : generator)
      (name : string) (nodes : nodes_t) (k : parts) :
  dict_get String.eqb name (package_nodes g) = Some nodes ->
  In k (dict_keys nodes) ->
  exists nodes',
    dict_get String.eqb name (package_nodes (first_pass cfg packages g))
    = Some nodes'
    /\ In k (dict_keys nodes').
Proof.
  revert g nodes; induction packages as [|pkg packages IH]; intros g nodes Hget Hk.
  - simpl. eauto.
  - simpl. destruct (@bnso_keeps_keys pkg g name nodes k Hget Hk) as (nodes' & H1 & H2).
    now apply (IH _ nodes').
Qed.

Lemma first_pass_registers (packages : list package) (g : generator)
      (pkg : package) (files : list py_file) (f : py_file) :
  In pkg packages ->
  pkg_files pkg = Some files ->
  In f files ->
  accepted_index cfg (pkg_src pkg) f = true ->
  exists nodes,
    dict_get String.eqb (pkg_name pkg) (package_nodes (first_pass cfg packages g))
    = Some nodes
    /\ In (fst (init_entry cfg (pkg_name pkg) f)) (dict_keys nodes).
Proof.
  revert g; induction packages as [|pkg0 packages IH]; intros g Hpkg Hfiles Hin Hacc;
    [destruct Hpkg|].
  destruct Hpkg as [->|Hpkg]; simpl.
  - destruct (@bnso_registers pkg g files f Hfiles Hin Hacc) as (nodes & H1 & H2).
    now apply (@first_pass_keeps_keys packages _ (pkg_name pkg) nodes _ H1).
  - now apply IH.
Qed.

(** What the pass over one package keeps true of the generator: the nodes
    and the links of the navigation structure are entries of accepted
    package indices, and the group keys are made of three segments. *)
Lemma bnso_origin (packages : list package) (pkg : package) (g : generator) :
  In pkg packages ->
  (forall name nodes e, In (name, nodes) (package_nodes g) -> In e nodes ->
                        has_origin cfg packages name e) ->
  (forall name pnav t, In (name, pnav) (nav_structure g) ->
                       In t (nav_targets pnav) ->
                       exists p, has_origin cfg packages name (p, t)) ->
  (forall name pnav k, In (name, pnav) (nav_structure g) ->
                       In k (dict_keys pnav) ->
                       exists segs, List.length segs = 3 /\ k = join "." segs) ->
  let g' := _build_nav_structure_only cfg pkg g in
  (forall name nodes e, In (name, nodes) (package_nodes g') -> In e nodes ->
                        has_origin cfg packages name e)
  /\ (forall name pnav t, In (name, pnav) (nav_structure g') ->
                          In t (nav_targets pnav) ->
                          exists p, has_origin cfg packages name (p, t))
  /\ (forall name pnav k, In (name, pnav) (nav_structure g') ->
                          In k (dict_keys pnav) ->
                          exists segs, List.length segs = 3 /\ k = join "." segs).
Proof.
  intros Hpkg Hnodes Hnav Hkeys. unfold _build_nav_structure_only.
  destruct (pkg_files pkg) as [files|] eqn:Hfiles; [|auto].
  set (nodes0 := match dict_get String.eqb (pkg_name pkg) (package_nodes g) with
                 | Some nodes => nodes | None => [] end).
  set (st := fold_left (visit_file cfg (pkg_src pkg) (pkg_name pkg)) files _).
  assert (forall e, In e (sc_nodes st) -> has_origin cfg packages (pkg_name pkg) e)
    as Hnew.
  { apply scan_nodes_origin.
    - cbn [sc_nodes]. unfold nodes0.
      destruct (dict_get String.eqb (pkg_name pkg) (package_nodes g)) as [n|] eqn:G;
        [|intros e []].
      apply (dict_get_in _ String.eqb_eq) in G. intros e. now apply Hnodes.
    - intros f Hf Hacc. exists pkg, files, f. auto 7. }
  cbn zeta. cbn [package_nodes nav_structure]. split; [|split].
  - intros name nodes e H. apply (dict_set_in _ String.eqb_eq) in H.
    destruct H as [H|[-> ->]]; [now apply Hnodes|apply Hnew].
  - intros name pnav t. destruct (sc_nodes st) as [|e0 rest] eqn:N; [apply Hnav|].
    rewrite <- N. intros H. apply (dict_set_in _ String.eqb_eq) in H.
    destruct H as [H|[-> ->]]; [now apply Hnav|].
    intros Ht. apply synthesize_nav_targets in Ht.
    destruct Ht as [Ht|(p & Hp & _)]; [|exists p; apply Hnew; now rewrite <- N].
    destruct (dict_get String.eqb (pkg_name pkg) (nav_structure g)) as [pnav0|] eqn:G;
      [|destruct Ht].
    apply (dict_get_in _ String.eqb_eq) in G. now apply (Hnav _ pnav0).
  - intros name pnav k. destruct (sc_nodes st) as [|e0 rest] eqn:N; [apply Hkeys|].
    rewrite <- N. intros H. apply (dict_set_in _ String.eqb_eq) in H.
    destruct H as [H|[-> ->]]; [intros Hk0; now apply (Hkeys name pnav)|].
    intros Hk. apply synthesize_nav_keys in Hk.
    destruct Hk as [Hk|(p & t & Hp & Hlen & ->)].
    + destruct (dict_get String.eqb (pkg_name pkg) (nav_structure g))
        as [pnav0|] eqn:G; [|destruct Hk].
      apply (dict_get_in _ String.eqb_eq) in G.
      now apply (Hkeys (pkg_name pkg) pnav0).
    + exists (firstn 3 p). split; auto. rewrite firstn_length_le; auto.
Qed.

Lemma first_pass_origin (packages : list package) :
  let g := first_pass cfg packages new_generator in
  (forall name nodes e, In (name, nodes) (package_nodes g) -> In e nodes ->
                        has_origin cfg packages name e)
  /\ (forall name pnav t, In (name, pnav) (nav_structure g) ->
                          In t (nav_targets pnav) ->
                          exists p, has_origin cfg packages name (p, t))
  /\ (forall name pnav k, In (name, pnav) (nav_structure g) ->
                          In k (dict_keys pnav) ->
                          exists segs, List.length segs = 3 /\ k = join "." segs).
Proof.
  unfold first_pass.
  apply (@fold_left_invariant _ _
           (fun g pkg => _build_nav_structure_only cfg pkg g)
           (fun g =>
              (forall name nodes e, In (name, nodes) (package_nodes g) ->
                                    In e nodes -> has_origin cfg packages name e)
              /\ (forall name pnav t, In (name, pnav) (nav_structure g) ->
                                      In t (nav_targets pnav) ->
                                      exists p, has_origin cfg packages name (p, t))
              /\ (forall name pnav k, In (name, pnav) (nav_structure g) ->
                                      In k (dict_keys pnav) ->
                                      exists segs, List.length segs = 3
                                                   /\ k = join "." segs))).
  - intros g pkg Hpkg (H1 & H2 & H3). now apply bnso_origin.
  - simpl. repeat split; intros ? ? ? [].
Qed.

Lemma first_pass_errors (packages : list package) :
  error_files (first_pass cfg packages new_generator) = [].
Proof.
  unfold first_pass.
  apply (@fold_left_invariant _ _
           (fun g pkg => _build_nav_structure_only cfg pkg g)
           (fun g => error_files g = [])); auto.
  intros g pkg _ H. now rewrite bnso_errors.
Qed.
End PassFacts.

(* ===================================================================== *)
(** ** Export lists *)
(* ===================================================================== *)

Section ExportFacts.
Context {py : PythonAst}.





End ExportFacts.





(* ===================================================================== *)
(** ** The claims about the tree builder *)
(* ===================================================================== *)

(** C4: a package index whose export list is empty is not accepted, and it
    is passed over without an error.  After the structure pass from a fresh
    generator every registered node and every link of the navigation
    structure is the entry of a package index with a non-empty export list;
    conversely every such index that the exclusion rules let through is
    registered; the error list is empty. *)
Theorem C4_export_list_gate
        (py : PythonAst) (cfg : DocumentationConfig) (packages : list package) :
  (forall code_src f, exports_of f = [] -> accepted_index cfg code_src f = false)
  /\ (forall name nodes e,
         In (name, nodes)
            (package_nodes (first_pass cfg packages new_generator)) ->
         In e nodes -> has_origin cfg packages name e)
  /\ (forall name pnav t,
         In (name, pnav) (nav_structure (first_pass cfg packages new_generator)) ->
         In t (nav_targets pnav) ->
         exists p, has_origin cfg packages name (p, t))
  /\ (forall pkg files f,
         In pkg packages -> pkg_files pkg = Some files -> In f files ->
         accepted_index cfg (pkg_src pkg) f = true ->
         exists nodes,
           dict_get String.eqb (pkg_name pkg)
                    (package_nodes (first_pass cfg packages new_generator))
           = Some nodes
           /\ In (fst (init_entry cfg (pkg_name pkg) f)) (dict_keys nodes))
  /\ error_files (first_pass cfg packages new_generator) = [].
Proof.
  destruct (first_pass_origin cfg packages) as (Hnodes & Hnav & _).
  split; [|split; [|split; [|split]]]; auto.
  - intros code_src f H. unfold accepted_index. rewrite H.
    cbn [List.length Nat.ltb Nat.leb]. apply andb_false_r.
  - intros pkg files f. apply first_pass_registers.
  - apply first_pass_errors.
Qed.

(** C4 on the scenario of the specification: [pkg.sub] is registered. *)
Lemma C4_export_list_gate_witness :
  exists nodes,
    dict_get String.eqb "bridgic-core"
             (package_nodes
                (@first_pass sample_ast sample_cfg [package_of scenario_files]
                             new_generator))
    = Some nodes
    /\ In ["pkg"; "sub"] (dict_keys nodes).
Proof.
  destruct (C4_export_list_gate sample_ast sample_cfg [package_of scenario_files])
    as (_ & _ & _ & H & _).
  apply (H (package_of scenario_files) (sort_files scenario_files)
           (init_file ["pkg"; "sub"] src_exports)).
  - now left.
  - reflexivity.
  - vm_compute. auto.
  - vm_compute. reflexivity.
Defined.

(** C10: the keys of the navigation of a package are made of exactly three
    segments, the first three of a node that has at least three, and every
    link goes to the page of such a node; so an index of one or two segments
    is left out.  This holds for the navigation built from any nodes and for
    the navigation structure after the structure pass. *)
Theorem C10_group_keys_have_three_segments
        (py : PythonAst) (cfg : DocumentationConfig) (packages : list package)
        (nodes : nodes_t) :
  (forall key value,
      In (key, value) (synthesize_nav cfg nodes []) ->
      exists p t, In (p, t) nodes /\ 3 <= List.length p
                  /\ List.length (firstn 3 p) = 3
                  /\ key = join "." (firstn 3 p))
  /\ (forall t,
         In t (nav_targets (synthesize_nav cfg nodes [])) ->
         exists p, In (p, t) nodes /\ 3 <= List.length p)
  /\ (forall name pnav key value,
         In (name, pnav) (nav_structure (first_pass cfg packages new_generator)) ->
         In (key, value) pnav ->
         exists segs, List.length segs = 3 /\ key = join "." segs).
Proof.
  split; [|split].
  - intros key value H.
    assert (In key (dict_keys (synthesize_nav cfg nodes []))) as Hk
        by (apply in_map_iff; exists (key, value); auto).
    apply synthesize_nav_keys in Hk.
    destruct Hk as [[]|(p & t & Hp & Hlen & ->)].
    exists p, t. repeat split; auto. now apply firstn_length_le.
  - intros t H. apply synthesize_nav_targets in H. now destruct H as [[]|H].
  - destruct (first_pass_origin cfg packages) as (_ & _ & Hkeys).
    intros name pnav key value Hn Hk. apply (Hkeys name pnav); auto.
    apply in_map_iff. exists (key, value). auto.
Qed.

(** C10 on the sample nodes: the key [pkg.sub.mod]. *)
Lemma C10_group_keys_have_three_segments_witness :
  exists p t,
    In (p, t) (sample_nodes "bridgic-core") /\ 3 <= List.length p
    /\ List.length (firstn 3 p) = 3
    /\ "pkg.sub.mod" = join "." (firstn 3 p).
Proof.
  destruct (C10_group_keys_have_three_segments sample_ast sample_cfg []
              (sample_nodes "bridgic-core")) as (H & _).
  apply (H "pkg.sub.mod"
           (NavItems
              [NavLink "mod" "reference/bridgic-core/pkg/sub/mod/index.md";
               NavLink "leaf" "reference/bridgic-core/pkg/sub/mod/leaf/index.md"])).
  vm_compute. auto.
Defined.

Lemma length_one (A : Type) (x : A) (l : list A) :
  List.length (x :: l) = 1 -> l = [].
Proof. destruct l; [reflexivity|discriminate]. Qed.

(** C8: a group that ends up with its index as the only entry is stored as
    the one-entry list when [single_entry_as_group] is set and as the bare
    path of the index when it is not; the renderer turns the first into a
    group with one child and the second into a single link. *)
Theorem C8_single_entry_policy
        (cfg : DocumentationConfig) (nodes : nodes_t) (pnav : package_nav)
        (first3 : parts) (data : group_data) :
  List.length (group_items nodes first3 data) = 1 ->
  group_items nodes first3 data = [NavLink (last_seg first3) (Index data)]
  /\ dict_get String.eqb (join "." first3)
              (place_group cfg nodes pnav (first3, data))
     = Some (if single_entry_as_group cfg
             then NavItems [NavLink (last_seg first3) (Index data)]
             else NavTarget (Index data))
  /\ _build_nav_structure
       [(join "." first3, NavItems [NavLink (last_seg first3) (Index data)])]
     = [NavGroup (format_key (join "." first3))
                 [NavLink (last_seg first3) (Index data)]]
  /\ _build_nav_structure [(join "." first3, NavTarget (Index data))]
     = [NavLink (format_key (join "." first3)) (Index data)].
Proof.
  intros Hlen.
  assert (group_items nodes first3 data
          = [NavLink (last_seg first3) (Index data)]) as Hitems.
  { unfold group_items in *. f_equal. now apply length_one in Hlen. }
  split; [exact Hitems|]. split; [|split; reflexivity].
  unfold place_group. rewrite Hlen. cbn [Nat.eqb].
  destruct (single_entry_as_group cfg);
    rewrite (dict_get_set_same _ String.eqb_eq); now rewrite ?Hitems.
Qed.

(** C8 on the group [a.b.solo] under both settings. *)
Lemma C8_single_entry_policy_witness :
  dict_get String.eqb "a.b.solo"
           (nav_structure_of_nodes sample_cfg solo_nodes)
  = Some (NavItems [NavLink "solo" "reference/bridgic-core/a/b/solo/index.md"])
  /\ dict_get String.eqb "a.b.solo"
              (nav_structure_of_nodes sample_cfg_collapsed solo_nodes)
     = Some (NavTarget "reference/bridgic-core/a/b/solo/index.md").
Proof.
  split.
  - apply (@C8_single_entry_policy sample_cfg solo_nodes []
             ["a"; "b"; "solo"]
             {| Index := "reference/bridgic-core/a/b/solo/index.md";
                children__ := solo_nodes |}).
    reflexivity.
  - apply (@C8_single_entry_policy sample_cfg_collapsed solo_nodes []
             ["a"; "b"; "solo"]
             {| Index := "reference/bridgic-core/a/b/solo/index.md";
                children__ := solo_nodes |}).
    reflexivity.
Defined.

(** C6 (the code departs from the claim): the index of a group is the page
    of the first node registered under its key, not that of the node whose
    path is the key.  With [zed_files] the scan order puts
    [a/b/c/Zed/__init__.py] before [a/b/c/__init__.py], both are registered,
    and the group [a.b.c] gets the page of [a.b.c.Zed] as its index; with
    [orphan_files] no node has the path [a.b.c] and the group gets the page
    of [a.b.c.d].  The label is the last segment of the key in both. *)
Lemma C6_index_is_first_registered_node :
  sort_files zed_files
  = [init_file ["a"; "b"; "c"; "Zed"] src_exports;
     init_file ["a"; "b"; "c"] src_exports]
  /\ package_nodes (@first_pass sample_ast sample_cfg [package_of zed_files]
                                new_generator)
     = [("bridgic-core",
         [(["a"; "b"; "c"; "Zed"], "reference/bridgic-core/a/b/c/Zed/index.md");
          (["a"; "b"; "c"], "reference/bridgic-core/a/b/c/index.md")])]
  /\ nav_structure (@first_pass sample_ast sample_cfg [package_of zed_files]
                                new_generator)
     = [("bridgic-core",
         [("a.b.c",
           NavItems
             [NavLink "c" "reference/bridgic-core/a/b/c/Zed/index.md";
              NavLink "Zed" "reference/bridgic-core/a/b/c/Zed/index.md"])])]
  /\ nav_structure (@first_pass sample_ast sample_cfg [package_of orphan_files]
                                new_generator)
     = [("bridgic-core",
         [("a.b.c",
           NavItems
             [NavLink "c" "reference/bridgic-core/a/b/c/d/index.md";
              NavLink "d" "reference/bridgic-core/a/b/c/d/index.md"])])].
Proof. repeat split; vm_compute; reflexivity. Qed.

(** C7 (the code departs from the claim): with [deep_files] the only
    registered node is [a.b.c.d.e.f], three segments beyond the key [a.b.c];
    it is the first node under that key, so its page is rendered as the
    index of the group.  With [nested_files], where the key has a node of
    its own, the child [x] is a nested group of its index and [u], and
    [a.b.c.x.u.v] is left out. *)
Lemma C7_deep_index_rendered_as_group_index :
  package_nodes (@first_pass sample_ast sample_cfg [package_of deep_files]
                             new_generator)
  = [("bridgic-core",
      [(["a"; "b"; "c"; "d"; "e"; "f"],
        "reference/bridgic-core/a/b/c/d/e/f/index.md")])]
  /\ nav_structure (@first_pass sample_ast sample_cfg [package_of deep_files]
                                new_generator)
     = [("bridgic-core",
         [("a.b.c",
           NavItems
             [NavLink "c" "reference/bridgic-core/a/b/c/d/e/f/index.md"])])]
  /\ dict_get String.eqb "bridgic-core"
       (nav_structure (@first_pass sample_ast sample_cfg
                                   [package_of nested_files] new_generator))
     = Some
         [("a.b.c",
           NavItems
             [NavLink "c" "reference/bridgic-core/a/b/c/index.md";
              NavGroup "x"
                [NavLink "x" "reference/bridgic-core/a/b/c/x/index.md";
                 NavLink "u" "reference/bridgic-core/a/b/c/x/u/index.md"];
              NavLink "y" "reference/bridgic-core/a/b/c/y/index.md"]);
          ("a.b.solo",
           NavItems [NavLink "solo" "reference/bridgic-core/a/b/solo/index.md"])].
Proof. repeat split; vm_compute; reflexivity. Qed.

(* ===================================================================== *)
(** ** Further properties and checks of the model *)
(* ===================================================================== *)

(** The two-level cap for the entries of a group after its index: each of
    them links only to nodes of four or five segments below the group key,
    whatever the nodes are. *)
Theorem nesting_cap_after_index
        (cfg : DocumentationConfig) (nodes : nodes_t) (first3 : parts)
        (data : group_data) (t : string) :
  In t (flat_map item_targets (tl (group_items nodes first3 data))) ->
  exists p, In (p, t) nodes
            /\ (List.length p = 4 \/ List.length p = 5)
            /\ firstn 3 p = first3.
Proof. apply group_items_tail_targets. Qed.

(** The cap on the sample nodes: the link to [leaf]. *)
Lemma nesting_cap_after_index_witness :
  exists p, In (p, "reference/bridgic-core/pkg/sub/mod/leaf/index.md")
               (sample_nodes "bridgic-core")
            /\ (List.length p = 4 \/ List.length p = 5)
            /\ firstn 3 p = ["pkg"; "sub"; "mod"].
Proof.
  apply (@nesting_cap_after_index sample_cfg (sample_nodes "bridgic-core")
           ["pkg"; "sub"; "mod"]
           {| Index := "reference/bridgic-core/pkg/sub/mod/index.md";
              children__ := [] |}).
  vm_compute. auto.
Defined.

(** Siblings are rendered in the order of their names: [a_mod] before
    [b_mod]. *)
Example siblings_are_sorted :
  group_items
    [ (["p"; "q"; "r"], "r.md");
      (["p"; "q"; "r"; "b_mod"], "b.md");
      (["p"; "q"; "r"; "a_mod"], "a.md") ]
    ["p"; "q"; "r"] {| Index := "r.md"; children__ := [] |}
  = [NavLink "r" "r.md"; NavLink "a_mod" "a.md"; NavLink "b_mod" "b.md"].
Proof. vm_compute. reflexivity. Qed.

(** The two regular expressions on inputs whose matches were read off
    Python's [re]. *)
Example search_nav_start_examples :
  search_nav_start "nav:" = Some (0, 4)
  /\ search_nav_start "nav: x" = None
  /\ search_nav_start "xnav:
nav:

q" = Some (6, 11)
  /\ search_nav_start "nav:


" = Some (0, 7)
  /\ search_nav_start "
nav:" = Some (1, 5).
Proof. repeat split; vm_compute; reflexivity. Qed.

Example search_next_config_examples :
  search_next_config "
ab_c:" = Some 0
  /\ search_next_config "
:" = None
  /\ search_next_config "
Ab:" = None
  /\ search_next_config "x

key: v" = Some 2
  /\ search_next_config "x
key: v" = None
  /\ search_next_config "
k9:" = None.
Proof. repeat split; vm_compute; reflexivity. Qed.

(** A second run of the legacy routine keeps the entries the first run
    rendered: they stand at the indentation of the [- API Reference:] line,
    where the skipping of the old section ends. *)
Example legacy_rerun_keeps_old_entries :
  let run := fun f => snd (_update_mkdocs_config_legacy NoFault
                             (sample_nav "bridgic-core") f) in
  mkdocs_file (run (run sample_fs_no_template))
  <> mkdocs_file (run sample_fs_no_template).
Proof. vm_compute. intros H. discriminate H. Qed.

(** *** The index of a group *)

Lemma first_under_key_app (done rest : nodes_t) (key : parts) :
  first_under_key (done ++ rest) key
  = match first_under_key done key with
    | Some t => Some t
    | None => first_under_key rest key
    end.
Proof.
  induction done as [|[p t] done IH]; simpl; auto.
  now destruct (under_key key p).
Qed.

Lemma dict_mem_set (k k0 : parts) (v : group_data) (d : dict parts group_data) :
  dict_mem parts_eqb k (dict_set parts_eqb k0 v d)
  = parts_eqb k k0 || dict_mem parts_eqb k d.
Proof.
  unfold dict_mem. destruct (parts_eqb k k0) eqn:E.
  - apply parts_eqb_eq in E. subst k0.
    now rewrite (dict_get_set_same _ parts_eqb_eq).
  - rewrite (dict_get_set_other _ parts_eqb_eq); auto.
    intros ->. now rewrite parts_eqb_refl in E.
Qed.

(** The loop that fills [groups], started after the nodes [done]: a key is
    in [groups] exactly when a node lies under it, and its index is the page
    of the first such node. *)
Lemma build_groups_from (rest done : nodes_t) (groups : dict parts group_data) :
  (forall key, dict_mem parts_eqb key groups = true
               <-> first_under_key done key <> None) ->
  (forall key data, In (key, data) groups ->
                    first_under_key done key = Some (Index data)) ->
  forall key data,
    In (key, data) (fold_left add_to_groups rest groups) ->
    first_under_key (done ++ rest) key = Some (Index data).
Proof.
  revert done groups.
  induction rest as [|[pt ip] rest IH]; intros done groups Hmem Hidx key data.
  - rewrite app_nil_r. apply Hidx.
  - cbn [fold_left].
    replace (done ++ (pt, ip) :: rest) with ((done ++ [(pt, ip)]) ++ rest)
      by now rewrite <- app_assoc.
    apply IH; clear IH key data.
    + (* membership *)
      intros key. rewrite first_under_key_app. cbn [first_under_key].
      unfold add_to_groups, under_key.
      destruct (3 <=? List.length pt)%nat eqn:L; cbn [andb].
      * set (key0 := firstn 3 pt).
        set (groups1 := if dict_mem parts_eqb key0 groups then groups
                        else dict_set parts_eqb key0
                               {| Index := ip; children__ := [] |} groups).
        assert (dict_mem parts_eqb key groups1
                = parts_eqb key0 key || dict_mem parts_eqb key groups) as M1.
        { unfold groups1.
          destruct (dict_mem parts_eqb key0 groups) eqn:D.
          - destruct (parts_eqb key0 key) eqn:E; auto.
            apply parts_eqb_eq in E. subst key. now rewrite D.
          - rewrite dict_mem_set.
            destruct (parts_eqb key key0) eqn:E.
            + apply parts_eqb_eq in E. subst key. now rewrite parts_eqb_refl.
            + destruct (parts_eqb key0 key) eqn:E'; auto.
              apply parts_eqb_eq in E'. subst key.
              now rewrite parts_eqb_refl in E. }
        assert (dict_mem parts_eqb key
                  match dict_get parts_eqb key0 groups1 with
                  | Some data =>
                      dict_set parts_eqb key0
                        {| Index := Index data;
                           children__ := dict_set parts_eqb pt ip
                                           (children__ data) |} groups1
                  | None => groups1
                  end
                = parts_eqb key0 key || dict_mem parts_eqb key groups) as M2.
        { destruct (dict_get parts_eqb key0 groups1) as [d0|]; [|exact M1].
          rewrite dict_mem_set, M1.
          destruct (parts_eqb key key0) eqn:E.
          - apply parts_eqb_eq in E. subst key. now rewrite parts_eqb_refl.
          - reflexivity. }
        rewrite M2. specialize (Hmem key).
        destruct (first_under_key done key) as [t|].
        -- split; [discriminate|]. intros _.
           assert (dict_mem parts_eqb key groups = true) as ->
               by (apply Hmem; discriminate).
           apply orb_true_r.
        -- destruct (parts_eqb key0 key); cbn [orb].
           ++ split; [discriminate|reflexivity].
           ++ split; [intros H; apply Hmem in H; contradiction|].
              intros H. now contradiction H.
      * specialize (Hmem key).
        destruct (first_under_key done key); [exact Hmem|].
        split; [intros H; apply Hmem in H; contradiction|].
        intros H. now contradiction H.
    + (* index *)
      intros key data. rewrite first_under_key_app. cbn [first_under_key].
      unfold add_to_groups, under_key.
      destruct (3 <=? List.length pt)%nat eqn:L; cbn [andb].
      2:{ intros H. now rewrite (Hidx key data H). }
      set (key0 := firstn 3 pt).
      set (groups1 := if dict_mem parts_eqb key0 groups then groups
                      else dict_set parts_eqb key0
                             {| Index := ip; children__ := [] |} groups).
      assert (forall k d, In (k, d) groups1 ->
                match first_under_key done k with
                | Some t => Some t
                | None => if parts_eqb key0 k then Some ip else None
                end = Some (Index d)) as H1.
      { intros k d. unfold groups1.
        destruct (dict_mem parts_eqb key0 groups) eqn:D.
        - intros H. now rewrite (Hidx k d H).
        - intros H. apply (dict_set_in _ parts_eqb_eq) in H.
          destruct H as [H|[-> ->]]; [now rewrite (Hidx k d H)|].
          rewrite parts_eqb_refl. cbn [Index].
          destruct (first_under_key done key0) as [t|] eqn:F; auto.
          assert (dict_mem parts_eqb key0 groups = true)
            by (apply Hmem; rewrite F; discriminate).
          congruence. }
      destruct (dict_get parts_eqb key0 groups1) as [d0|] eqn:G; [|apply H1].
      intros H. apply (dict_set_in _ parts_eqb_eq) in H.
      destruct H as [H|[-> ->]]; [now apply H1|].
      apply (dict_get_in _ parts_eqb_eq) in G. cbn [Index]. now apply H1.
Qed.

(** The index of a group is the page of the first registered node under
    its key; when the node whose path is the key comes first among them, the
    index is the page of that node. *)
Theorem group_index_is_first_under_key
        (nodes : nodes_t) (key : parts) (data : group_data) :
  In (key, data) (build_groups nodes) ->
  first_under_key nodes key = Some (Index data)
  /\ (forall pre post t,
         nodes = pre ++ (key, t) :: post ->
         List.length key = 3 ->
         first_under_key pre key = None ->
         Index data = t).
Proof.
  intros H.
  assert (first_under_key nodes key = Some (Index data)) as Hfirst.
  { apply (@build_groups_from nodes [] [] ); auto.
    - intros k. cbn. split; [discriminate|]. intros C. now contradiction C.
    - intros k d []. }
  split; [exact Hfirst|].
  intros pre post t -> Hlen Hpre. rewrite first_under_key_app, Hpre in Hfirst.
  cbn [first_under_key] in Hfirst. unfold under_key in Hfirst.
  rewrite Hlen in Hfirst. cbn [Nat.leb andb] in Hfirst.
  rewrite <- Hlen, firstn_all, parts_eqb_refl in Hfirst. congruence.
Qed.

(** The index of the group [pkg.sub.mod] of the sample nodes. *)
Lemma group_index_is_first_under_key_witness :
  first_under_key (sample_nodes "bridgic-core") ["pkg"; "sub"; "mod"]
  = Some "reference/bridgic-core/pkg/sub/mod/index.md".
Proof.
  apply (@group_index_is_first_under_key (sample_nodes "bridgic-core")
           ["pkg"; "sub"; "mod"]
           {| Index := "reference/bridgic-core/pkg/sub/mod/index.md";
              children__ := sample_nodes "bridgic-core" |}).
  vm_compute. auto.
Defined.

(** *** The order of siblings *)

Section SortedOrder.
Variables (A : Type) (ltb : A -> A -> bool).
Hypothesis ltb_asym : forall a b, ltb a b = true -> ltb b a = false.

Lemma insert_sorted_hd (x a : A) (l : list A) :
  ltb x a = false ->
  HdRel (fun a b => ltb b a = false) a l ->
  HdRel (fun a b => ltb b a = false) a (insert_sorted ltb x l).
Proof.
  intros Hxa Hhd. destruct l as [|y l]; simpl.
  - now constructor.
  - destruct (ltb y x); constructor; auto. now inversion Hhd.
Qed.

Lemma insert_sorted_sorted (x : A) (l : list A) :
  Sorted (fun a b => ltb b a = false) l ->
  Sorted (fun a b => ltb b a = false) (insert_sorted ltb x l).
Proof.
  induction l as [|y l IH]; intros Hs; simpl.
  - repeat constructor.
  - inversion Hs as [|? ? Hs' Hhd]; subst.
    destruct (ltb y x) eqn:E.
    + constructor; auto. apply insert_sorted_hd; auto.
    + constructor; auto.
Qed.

(** No element of [sorted l] is smaller than the one before it. *)
Lemma sorted_is_sorted (l : list A) :
  Sorted (fun a b => ltb b a = false) (sorted ltb l).
Proof.
  induction l as [|x l IH]; simpl; [constructor|].
  now apply insert_sorted_sorted.
Qed.
End SortedOrder.

Lemma parts_compare_antisym (a b : parts) :
  parts_compare a b = CompOpp (parts_compare b a).
Proof.
  revert b; induction a as [|x a IH]; intros [|y b]; simpl; auto.
  rewrite (String.compare_antisym x y).
  destruct (String.compare y x); simpl; auto.
Qed.

Lemma parts_ltb_asym (a b : parts) :
  parts_ltb a b = true -> parts_ltb b a = false.
Proof.
  unfold parts_ltb. rewrite (parts_compare_antisym b a).
  now destruct (parts_compare a b).
Qed.

(* ===================================================================== *)
(** ** Display names *)
(* ===================================================================== *)

Ltac each_ascii c :=
  destruct c as [[] [] [] [] [] [] [] []]; vm_compute; reflexivity.

Lemma to_lower_idem (c : ascii) : to_lower (to_lower c) = to_lower c.
Proof. each_ascii c. Qed.

Lemma to_lower_upper (c : ascii) : to_lower (to_upper c) = to_lower c.
Proof. each_ascii c. Qed.

Lemma to_upper_lower (c : ascii) : to_upper (to_lower c) = to_upper c.
Proof. each_ascii c. Qed.

Lemma is_cased_lower (c : ascii) : is_cased (to_lower c) = is_cased c.
Proof. each_ascii c. Qed.

Lemma underscore_lower (c : ascii) :
  Ascii.eqb (to_lower c) "_" = Ascii.eqb c "_".
Proof. each_ascii c. Qed.

Lemma underscore_upper (c : ascii) :
  Ascii.eqb (to_upper c) "_" = Ascii.eqb c "_".
Proof. each_ascii c. Qed.

Lemma lower_app (a b : string) : lower (a ++ b) = (lower a ++ lower b)%string.
Proof. induction a as [|c a IH]; simpl; auto. now rewrite IH. Qed.

Lemma lower_length (s : string) : String.length (lower s) = String.length s.
Proof. induction s as [|c s IH]; simpl; auto. Qed.

(** [title] looks at the letters only, not at their case. *)
Lemma title_from_lower (prev : bool) (s : string) :
  title_from prev (lower s) = title_from prev s.
Proof.
  revert prev; induction s as [|c s IH]; intros prev; simpl; auto.
  fold (is_cased (to_lower c)). fold (is_cased c).
  rewrite is_cased_lower, IH, to_lower_idem, to_upper_lower. reflexivity.
Qed.

Lemma lower_title_from (prev : bool) (s : string) :
  lower (title_from prev s) = lower s.
Proof.
  revert prev; induction s as [|c s IH]; intros prev; simpl; auto.
  rewrite IH. destruct prev; now rewrite ?to_lower_idem, ?to_lower_upper.
Qed.

Lemma title_same_letters (a b : string) :
  lower a = lower b -> title a = title b.
Proof.
  intros H. unfold title.
  now rewrite <- (title_from_lower false a), H, title_from_lower.
Qed.

Lemma title_idem (s : string) : title (title s) = title s.
Proof. apply title_same_letters. apply lower_title_from. Qed.

Lemma drop_length (k : nat) (s : string) :
  String.length (drop k s) <= String.length s.
Proof.
  revert s; induction k as [|k IH]; intros [|c s]; simpl; try lia.
  specialize (IH s). lia.
Qed.

(** Replacing [old] by a text with the same letters changes no letter. *)
Lemma lower_replace_from (old new : string) :
  old <> EmptyString -> lower old = lower new ->
  forall s, lower (replace_from old new 0 s) = lower s.
Proof.
  intros Hne Hlow.
  assert (forall n s, String.length s <= n ->
                      lower (replace_from old new 0 s) = lower s) as H.
  { induction n as [|n IH]; intros [|c s] Hlen; simpl in Hlen; try reflexivity;
      try lia.
    cbn [replace_from].
    destruct (startswith old (String c s)) eqn:S.
    - rewrite lower_app, replace_from_skip, IH.
      + apply startswith_split in S.
        assert (drop (String.length old) (String c s)
                = drop (String.length old - 1) s) as D.
        { destruct old as [|o old]; [congruence|].
          simpl. now rewrite Nat.sub_0_r. }
        rewrite D in S. rewrite S. now rewrite lower_app, Hlow.
      + pose proof (drop_length (String.length old - 1) s). lia.
    - simpl. f_equal. apply IH. lia. }
  intros s. now apply (H (String.length s)).
Qed.

Lemma lacks_app (c : ascii) (a b : string) :
  lacks c (a ++ b) = lacks c a && lacks c b.
Proof.
  unfold lacks. induction a as [|x a IH]; simpl; auto.
  now rewrite IH, andb_assoc.
Qed.

Lemma lacks_replace_from (c : ascii) (old new : string) :
  lacks c new = true ->
  forall s k, lacks c s = true -> lacks c (replace_from old new k s) = true.
Proof.
  intros Hnew. induction s as [|x s IH]; intros k Hs; [reflexivity|].
  unfold lacks in Hs. simpl in Hs. apply andb_true_iff in Hs.
  destruct Hs as [Hx Hs]. fold (lacks c s) in Hs.
  cbn [replace_from]. destruct k as [|k]; [|now apply IH].
  destruct (startswith old (String x s)).
  - rewrite lacks_app, Hnew. now apply IH.
  - unfold lacks. simpl. rewrite Hx. now apply IH.
Qed.

Lemma replace_char_step (a x : ascii) (new s : string) :
  replace_from (String a EmptyString) new 0 (String x s)
  = if Ascii.eqb a x
    then (new ++ replace_from (String a EmptyString) new 0 s)%string
    else String x (replace_from (String a EmptyString) new 0 s).
Proof.
  cbn [replace_from startswith String.length Nat.sub].
  destruct (Ascii.eqb a x); reflexivity.
Qed.

(** [name.replace('_', ' ')] leaves no underscore, and changes nothing when
    there is none. *)
Lemma replace_underscore_lacks (s : string) :
  lacks "_" (replace "_" " " s) = true.
Proof.
  cbn [replace]. induction s as [|x s IH]; [reflexivity|].
  rewrite replace_char_step.
  destruct (Ascii.eqb_spec "_"%char x) as [<-|Hne].
  - exact IH.
  - unfold lacks. cbn [str_forallb]. fold (lacks "_" (replace_from "_" " " 0 s)).
    rewrite IH. destruct (Ascii.eqb_spec x "_"%char); [congruence|reflexivity].
Qed.

Lemma replace_underscore_absent (s : string) :
  lacks "_" s = true -> replace "_" " " s = s.
Proof.
  cbn [replace]. induction s as [|x s IH]; [reflexivity|].
  unfold lacks. cbn [str_forallb]. intros H. apply andb_true_iff in H.
  destruct H as [Hx Hs]. rewrite replace_char_step.
  destruct (Ascii.eqb_spec "_"%char x) as [<-|Hne]; [discriminate|].
  f_equal. now apply IH.
Qed.

Lemma lacks_title_from (prev : bool) (s : string) :
  lacks "_" s = true -> lacks "_" (title_from prev s) = true.
Proof.
  revert prev; induction s as [|x s IH]; intros prev; [reflexivity|].
  unfold lacks. simpl. intros H. apply andb_true_iff in H. destruct H as [Hx Hs].
  fold (lacks "_" (title_from (is_upper x || is_lower x) s)).
  rewrite IH by exact Hs.
  destruct prev; now rewrite ?underscore_lower, ?underscore_upper, Hx.
Qed.

(** The table of acronyms changes the case of letters only. *)
Lemma replacements_same_letters :
  forallb (fun '(old, new) =>
             String.eqb (lower old) (lower new) && truthy old && lacks "_" new)
          replacements = true.
Proof. vm_compute. reflexivity. Qed.

Lemma apply_replacements (table : list (string * string)) (s : string) :
  forallb (fun '(old, new) =>
             String.eqb (lower old) (lower new) && truthy old && lacks "_" new)
          table = true ->
  lower (fold_left (fun formatted '(old, new) => replace old new formatted)
                   table s) = lower s
  /\ (lacks "_" s = true ->
      lacks "_" (fold_left (fun formatted '(old, new) => replace old new formatted)
                           table s) = true).
Proof.
  revert s; induction table as [|[old new] table IH]; intros s H; [auto|].
  cbn [forallb] in H. apply andb_true_iff in H. destruct H as [H Htable].
  apply andb_true_iff in H. destruct H as [H Hnew].
  apply andb_true_iff in H. destruct H as [Hlow Hold].
  apply String.eqb_eq in Hlow.
  cbn [fold_left]. destruct (IH (replace old new s) Htable) as [IH1 IH2].
  destruct old as [|o old]; [discriminate|]. cbn [replace] in *.
  split.
  - rewrite IH1. apply lower_replace_from; [discriminate|exact Hlow].
  - intros Hs. apply IH2. now apply lacks_replace_from.
Qed.

(** Formatting a display name a second time changes nothing: the label
    that [_generate_api_reference_content] formats twice is the label
    formatted once. *)
Theorem format_display_name_idempotent (name : string) :
  _format_display_name (_format_display_name name) = _format_display_name name.
Proof.
  unfold _format_display_name.
  set (t := title (replace "_" " " name)).
  destruct (apply_replacements replacements t replacements_same_letters)
    as [Hlow Hlacks].
  set (r := fold_left _ replacements t) in *.
  assert (lacks "_" r = true) as Hr.
  { apply Hlacks. unfold t, title. apply lacks_title_from.
    apply replace_underscore_lacks. }
  rewrite (replace_underscore_absent _ Hr).
  assert (title r = t) as ->.
  { rewrite (title_same_letters r t Hlow). apply title_idem. }
  reflexivity.
Qed.

(* ===================================================================== *)
(** ** Package names *)
(* ===================================================================== *)

Lemma replace_char_lacks (a : ascii) (new s : string) :
  lacks a new = true ->
  lacks a (replace_from (String a EmptyString) new 0 s) = true.
Proof.
  intros Hnew. induction s as [|x s IH]; [reflexivity|].
  rewrite replace_char_step.
  destruct (Ascii.eqb_spec a x) as [<-|Hne].
  - now rewrite lacks_app, Hnew.
  - unfold lacks. cbn [str_forallb].
    fold (lacks a (replace_from (String a EmptyString) new 0 s)).
    rewrite IH. destruct (Ascii.eqb_spec x a); [congruence|reflexivity].
Qed.

Lemma hyphen_lower (c : ascii) : Ascii.eqb (to_lower c) "-" = Ascii.eqb c "-".
Proof. each_ascii c. Qed.

Lemma lacks_hyphen_lower (s : string) : lacks "-" (lower s) = lacks "-" s.
Proof.
  unfold lacks. induction s as [|c s IH]; simpl; auto.
  now rewrite IH, hyphen_lower.
Qed.

(** A name without a hyphen is none of the names the generated text is
    made of. *)
Lemma no_hyphen_not_rendered (k : string) :
  lacks "-" k = true -> rendered_package k = false.
Proof.
  intros H. unfold rendered_package. apply orb_false_iff. split.
  - destruct (String.eqb_spec (lower k) "bridgic-core") as [E|]; auto.
    rewrite <- lacks_hyphen_lower, E in H. discriminate H.
  - destruct (startswith "bridgic-llms-" k) eqn:S; auto.
    apply startswith_split in S. rewrite S, lacks_app in H. discriminate H.
Qed.

(** A package without an entry in [package_info] gets a display name
    without a hyphen. *)
Lemma default_display_name_lacks_hyphen (info : package_info_t) (path : string) :
  dict_get String.eqb path info = None ->
  lacks "-" (get_package_display_name info path) = true.
Proof.
  intros H. unfold get_package_display_name. rewrite H.
  cbn [replace]. now apply replace_char_lacks.
Qed.

(** The packages of a configuration that lists plain paths, without names,
    are never rendered: the display name of such a package is the last
    component of its path with every hyphen turned into an underscore, so it
    is neither ['bridgic-core'] nor a ['bridgic-llms-*'] name, and the text
    generated for a navigation structure keyed by such names is empty. *)
Theorem default_display_names_not_rendered
        (info : package_info_t) (nav : nav_structure_t) :
  (forall k, In k (dict_keys nav) ->
             exists path, dict_get String.eqb path info = None
                          /\ k = get_package_display_name info path) ->
  (forall k, In k (dict_keys nav) -> rendered_package k = false)
  /\ _generate_api_reference_content nav = EmptyString.
Proof.
  intros H.
  assert (forall k, In k (dict_keys nav) -> rendered_package k = false) as Hno.
  { intros k Hk. destruct (H k Hk) as (path & Hpath & ->).
    apply no_hyphen_not_rendered. now apply default_display_name_lacks_hyphen. }
  split; [exact Hno|].
  rewrite content_of_rendered_part.
  assert (rendered_part nav = []) as ->; [|reflexivity].
  clear H. unfold rendered_part, dict_keys in *.
  induction nav as [|[k v] nav IH]; [reflexivity|].
  cbn [filter fst]. rewrite (Hno k) by now left.
  apply IH. intros k' Hk'. apply Hno. now right.
Qed.

(** The theorem on the package path [packages/bridgic-core] listed without
    a name. *)
Lemma default_display_names_not_rendered_witness :
  get_package_display_name [] "packages/bridgic-core" = "bridgic_core"
  /\ _generate_api_reference_content (sample_nav "bridgic_core") = EmptyString.
Proof.
  split; [reflexivity|].
  apply (@default_display_names_not_rendered [] (sample_nav "bridgic_core")).
  intros k [<-|[]]. exists "packages/bridgic-core". split; reflexivity.
Defined.

(* ===================================================================== *)
(** ** Exclusion *)
(* ===================================================================== *)

Lemma str_in_app (x : string) (p q : list string) :
  str_in x (p ++ q) = str_in x p || str_in x q.
Proof. unfold str_in. apply existsb_app. Qed.

(** An excluded directory excludes everything below it. *)
Lemma excluded_below (cfg : DocumentationConfig) (p q : list string) :
  existsb (fun pattern => str_in pattern p) (exclude_patterns cfg) = true ->
  should_exclude_path cfg (p ++ q) = true.
Proof.
  intros H. unfold should_exclude_path.
  assert (existsb (fun pattern => str_in pattern (p ++ q)) (exclude_patterns cfg)
          = true) as ->; [|reflexivity].
  apply existsb_exists in H. destruct H as (pattern & Hin & Hp).
  apply existsb_exists. exists pattern. split; auto.
  now rewrite str_in_app, Hp.
Qed.

Section ExcludedRoot.
Context {py : PythonAst}.
Variable cfg : DocumentationConfig.

Lemma scan_excluded_root (code_src : list string) (package_name : string)
      (files : list py_file) (st : scan_state) :
  existsb (fun pattern => str_in pattern code_src) (exclude_patterns cfg) = true ->
  sc_nodes (fold_left (visit_file cfg code_src package_name) files st)
  = sc_nodes st
  /\ sc_skipped (fold_left (visit_file cfg code_src package_name) files st)
     = sc_skipped st ++ map (file_path code_src) files.
Proof.
  intros H. revert st; induction files as [|f files IH]; intros st.
  - simpl. now rewrite app_nil_r.
  - cbn [fold_left map].
    destruct (IH (visit_file cfg code_src package_name st f)) as [-> ->].
    destruct (visit_file_spec cfg code_src package_name st f) as (_ & -> & ->).
    unfold accepted_index.
    assert (should_exclude_path cfg (file_path code_src f) = true) as ->
        by (unfold file_path; now apply excluded_below).
    cbn [negb andb]. split; [reflexivity|]. now rewrite <- app_assoc.
Qed.
End ExcludedRoot.

(** A package whose root lies in or below a directory named by an exclusion
    pattern contributes nothing: every file of it goes to the skipped list,
    and after the structure pass over such packages alone no node is
    registered and the navigation structure is empty. *)
Theorem excluded_root_registers_nothing
        (py : PythonAst) (cfg : DocumentationConfig) (packages : list package) :
  (forall pkg, In pkg packages ->
               existsb (fun pattern => str_in pattern (pkg_src pkg))
                       (exclude_patterns cfg) = true) ->
  nav_structure (first_pass cfg packages new_generator) = []
  /\ (forall name nodes,
         In (name, nodes) (package_nodes (first_pass cfg packages new_generator)) ->
         nodes = [])
  /\ skipped_files (first_pass cfg packages new_generator)
     = flat_map (fun pkg => match pkg_files pkg with
                            | Some files => map (file_path (pkg_src pkg)) files
                            | None => []
                            end) packages.
Proof.
  intros H.
  assert (forall l g,
             (forall pkg, In pkg l ->
                existsb (fun pattern => str_in pattern (pkg_src pkg))
                        (exclude_patterns cfg) = true) ->
             nav_structure g = [] ->
             (forall name nodes, In (name, nodes) (package_nodes g) -> nodes = []) ->
             nav_structure (first_pass cfg l g) = []
             /\ (forall name nodes,
                    In (name, nodes) (package_nodes (first_pass cfg l g)) ->
                    nodes = [])
             /\ skipped_files (first_pass cfg l g)
                = skipped_files g
                    ++ flat_map (fun pkg => match pkg_files pkg with
                                            | Some files =>
                                                map (file_path (pkg_src pkg)) files
                                            | None => []
                                            end) l) as Hgen.
  { induction l as [|pkg l IH]; intros g Hl Hnav Hnodes.
    - simpl. now rewrite app_nil_r.
    - cbn [first_pass fold_left flat_map].
      fold (first_pass cfg l (_build_nav_structure_only cfg pkg g)).
      assert (existsb (fun pattern => str_in pattern (pkg_src pkg))
                      (exclude_patterns cfg) = true) as Hpkg
          by (apply Hl; now left).
      destruct (IH (_build_nav_structure_only cfg pkg g)) as (I1 & I2 & I3).
      + intros p Hp. apply Hl. now right.
      + unfold _build_nav_structure_only.
        destruct (pkg_files pkg) as [files|]; [|exact Hnav].
        cbn [nav_structure].
        destruct (scan_excluded_root cfg (pkg_src pkg) (pkg_name pkg) files
                    {| sc_skipped := skipped_files g;
                       sc_errors := error_files g;
                       sc_nodes :=
                         match dict_get String.eqb (pkg_name pkg)
                                        (package_nodes g) with
                         | Some nodes => nodes
                         | None => []
                         end;
                       sc_has_all := None |} Hpkg) as [-> _].
        cbn [sc_nodes].
        destruct (dict_get String.eqb (pkg_name pkg) (package_nodes g))
          as [nodes|] eqn:G; [|exact Hnav].
        apply (dict_get_in _ String.eqb_eq) in G. apply Hnodes in G.
        subst nodes. exact Hnav.
      + unfold _build_nav_structure_only.
        destruct (pkg_files pkg) as [files|]; [|exact Hnodes].
        cbn [package_nodes]. intros name nodes Hin.
        apply (dict_set_in _ String.eqb_eq) in Hin.
        destruct Hin as [Hin|[-> ->]]; [now apply (Hnodes name)|].
        destruct (scan_excluded_root cfg (pkg_src pkg) (pkg_name pkg) files
                    {| sc_skipped := skipped_files g;
                       sc_errors := error_files g;
                       sc_nodes :=
                         match dict_get String.eqb (pkg_name pkg)
                                        (package_nodes g) with
                         | Some nodes => nodes
                         | None => []
                         end;
                       sc_has_all := None |} Hpkg) as [-> _].
        cbn [sc_nodes].
        destruct (dict_get String.eqb (pkg_name pkg) (package_nodes g))
          as [nodes|] eqn:G; [|reflexivity].
        apply (dict_get_in _ String.eqb_eq) in G. now apply Hnodes in G.
      + split; [exact I1|]. split; [exact I2|]. rewrite I3.
        rewrite app_assoc. f_equal.
        unfold _build_nav_structure_only.
        destruct (pkg_files pkg) as [files|]; [|now rewrite app_nil_r].
        cbn [skipped_files].
        now destruct (scan_excluded_root cfg (pkg_src pkg) (pkg_name pkg) files
                        {| sc_skipped := skipped_files g;
                           sc_errors := error_files g;
                           sc_nodes :=
                             match dict_get String.eqb (pkg_name pkg)
                                            (package_nodes g) with
                             | Some nodes => nodes
                             | None => []
                             end;
                           sc_has_all := None |} Hpkg) as [_ ->]. }
  destruct (Hgen packages new_generator H eq_refl) as (H1 & H2 & H3).
  - intros name nodes [].
  - auto.
Qed.

(** The theorem on the scenario placed below a directory [tests]. *)
Lemma excluded_root_registers_nothing_witness :
  nav_structure
    (@first_pass sample_ast sample_cfg
                 [{| pkg_name := "bridgic-core";
                     pkg_src := ["/"; "repo"; "tests"; "bridgic-core"];
                     pkg_files := Some (sort_files scenario_files) |}]
                 new_generator) = [].
Proof.
  apply (excluded_root_registers_nothing sample_ast sample_cfg).
  intros pkg [<-|[]]. reflexivity.
Defined.

(* ===================================================================== *)
(** ** Rendering *)
(* ===================================================================== *)

Lemma nav_item_induction (P : nav_item -> Prop) :
  (forall label target, P (NavLink label target)) ->
  (forall label items, Forall P items -> P (NavGroup label items)) ->
  forall item, P item.
Proof.
  intros Hlink Hgroup. fix IH 1. intros [label target|label items].
  - apply Hlink.
  - apply Hgroup. induction items as [|x items IHitems]; constructor.
    + apply IH.
    + exact IHitems.
Qed.

Lemma item_lines_group (indent : nat) (key : string) (value : list nav_item) :
  item_lines indent (NavGroup key value)
  = (spaces indent ++ "- " ++ key ++ ":")%string
    :: sub_lines (join NL (flat_map (item_lines (indent + 2)) value)).
Proof.
  cbn [item_lines].
  first [ reflexivity
        | do 3 f_equal; induction value as [|x value IH];
          [ reflexivity | cbn [flat_map]; now rewrite IH ] ].
Qed.

Lemma render_item_group (indent : nat) (key : string) (value : list nav_item) :
  render_item indent (NavGroup key value)
  = (spaces indent ++ "- " ++ key ++ ":")%string
    :: flat_map (render_item (indent + 2)) value.
Proof.
  cbn [render_item].
  first [ reflexivity
        | f_equal; induction value as [|x value IH];
          [ reflexivity | cbn [flat_map]; now rewrite IH ] ].
Qed.

Lemma item_plain_group (key : string) (value : list nav_item) :
  item_plain (NavGroup key value) = lacks nl key && forallb item_plain value.
Proof.
  cbn [item_plain].
  first [ reflexivity
        | f_equal; induction value as [|x value IH];
          [ reflexivity | cbn [forallb]; now rewrite IH ] ].
Qed.

Lemma item_count_group (key : string) (value : list nav_item) :
  item_count (NavGroup key value) = S (list_sum (map item_count value)).
Proof.
  cbn [item_count].
  first [ reflexivity
        | f_equal; induction value as [|x value IH];
          [ reflexivity | cbn [map list_sum]; now rewrite IH ] ].
Qed.

(** *** Splitting what was joined *)

Lemma split_nl_plain (s : string) :
  lacks nl s = true -> split_nl s = [s].
Proof.
  unfold lacks. induction s as [|c s IH]; [reflexivity|].
  cbn [str_forallb split_nl]. intros H. apply andb_true_iff in H.
  destruct H as [Hc Hs]. apply negb_true_iff in Hc. rewrite Hc.
  now rewrite IH.
Qed.

Lemma split_nl_app_plain (a b : string) :
  lacks nl a = true ->
  split_nl (a ++ String nl b) = a :: split_nl b.
Proof.
  unfold lacks. induction a as [|c a IH]; intros H.
  - cbn [append split_nl]. now rewrite Ascii.eqb_refl.
  - cbn [str_forallb] in H. apply andb_true_iff in H. destruct H as [Hc Ha].
    apply negb_true_iff in Hc.
    change ((String c a ++ String nl b)%string)
      with (String c (a ++ String nl b)).
    cbn [split_nl]. rewrite Hc, IH by exact Ha. reflexivity.
Qed.

(** [split('\n')] undoes ['\n'.join] on lines without a line break. *)
Lemma split_join_lines (lines : list string) :
  lines <> [] ->
  forallb (lacks nl) lines = true ->
  split_nl (join NL lines) = lines.
Proof.
  induction lines as [|x lines IH]; [congruence|]. intros _ H.
  cbn [forallb] in H. apply andb_true_iff in H. destruct H as [Hx Hl].
  destruct lines as [|y lines].
  - cbn [join]. now apply split_nl_plain.
  - change (join NL (x :: y :: lines))
      with ((x ++ String nl (join NL (y :: lines)))%string).
    rewrite split_nl_app_plain by exact Hx.
    f_equal. apply IH; [discriminate|exact Hl].
Qed.

(** *** The lines of an entry *)

Lemma lacks_spaces (n : nat) : lacks nl (spaces n) = true.
Proof. induction n; [reflexivity|exact IHn]. Qed.

Lemma rstrip_nonempty (c : ascii) (s : string) :
  is_space c = false -> truthy (rstrip (String c s)) = true.
Proof.
  intros H. cbn [rstrip]. destruct (rstrip s); [now rewrite H|reflexivity].
Qed.

(** A line that begins with blanks and a hyphen is not blank. *)
Lemma entry_line_not_blank (n : nat) (rest : string) :
  truthy (strip (spaces n ++ String "-" rest)) = true.
Proof.
  unfold strip.
  assert (lstrip (spaces n ++ String "-" rest) = String "-" rest) as ->.
  { induction n as [|n IH]; [reflexivity|]. exact IH. }
  now apply rstrip_nonempty.
Qed.

Lemma render_item_lines_ok (item : nav_item) :
  item_plain item = true ->
  forall indent,
    forallb (lacks nl) (render_item indent item) = true
    /\ forallb (fun line => truthy (strip line)) (render_item indent item) = true.
Proof.
  induction item as [key value|key value IH] using nav_item_induction.
  - cbn [item_plain render_item forallb]. intros H indent.
    apply andb_true_iff in H. destruct H as [Hk Hv].
    rewrite !lacks_app, lacks_spaces, Hk, Hv.
    split; [reflexivity|]. rewrite andb_true_r.
    apply (entry_line_not_blank indent (" " ++ key ++ ": " ++ value)).
  - rewrite item_plain_group. intros H indent.
    apply andb_true_iff in H. destruct H as [Hk Hv].
    rewrite render_item_group. cbn [forallb].
    assert (forallb (lacks nl) (flat_map (render_item (indent + 2)) value) = true
            /\ forallb (fun line => truthy (strip line))
                       (flat_map (render_item (indent + 2)) value) = true)
      as [E1 E2].
    { induction value as [|x value IHv]; [split; reflexivity|].
      cbn [forallb] in Hv. apply andb_true_iff in Hv. destruct Hv as [Hx Hv].
      inversion IH as [|? ? IHx IHrest]; subst.
      cbn [flat_map]. rewrite !forallb_app.
      destruct (IHx Hx (indent + 2)) as [-> ->].
      destruct (IHv IHrest Hv) as [-> ->]. split; reflexivity. }
    rewrite E1, E2, !andb_true_r. split.
    + now rewrite !lacks_app, lacks_spaces, Hk.
    + apply (entry_line_not_blank indent (" " ++ key ++ ":")).
Qed.

Lemma filter_all (A : Type) (p : A -> bool) (l : list A) :
  forallb p l = true -> filter p l = l.
Proof.
  induction l as [|x l IH]; [reflexivity|]. cbn [forallb filter].
  intros H. apply andb_true_iff in H. destruct H as [-> H]. now rewrite IH.
Qed.

Lemma sub_lines_join (lines : list string) :
  forallb (lacks nl) lines = true ->
  forallb (fun line => truthy (strip line)) lines = true ->
  sub_lines (join NL lines) = lines.
Proof.
  intros Hplain Hblank. unfold sub_lines.
  destruct lines as [|x lines]; [reflexivity|].
  assert (truthy (join NL (x :: lines)) = true) as ->.
  { cbn [forallb] in Hblank. apply andb_true_iff in Hblank.
    destruct Hblank as [Hx _].
    destruct x as [|c x]; [discriminate Hx|].
    destruct lines; reflexivity. }
  rewrite split_join_lines; [|discriminate|exact Hplain].
  now apply filter_all.
Qed.

Lemma item_lines_render (item : nav_item) :
  item_plain item = true ->
  forall indent, item_lines indent item = render_item indent item.
Proof.
  induction item as [key value|key value IH] using nav_item_induction.
  - reflexivity.
  - intros H indent. rewrite item_lines_group, render_item_group. f_equal.
    rewrite item_plain_group in H. apply andb_true_iff in H.
    destruct H as [_ Hv].
    assert (flat_map (item_lines (indent + 2)) value
            = flat_map (render_item (indent + 2)) value) as ->.
    { induction value as [|x value IHv]; [reflexivity|].
      cbn [forallb] in Hv. apply andb_true_iff in Hv. destruct Hv as [Hx Hv].
      inversion IH as [|? ? IHx IHrest]; subst.
      cbn [flat_map]. now rewrite IHx, IHv. }
    apply sub_lines_join.
    + clear IH. induction value as [|x value IHv]; [reflexivity|].
      cbn [forallb] in Hv. apply andb_true_iff in Hv. destruct Hv as [Hx Hv].
      cbn [flat_map]. rewrite forallb_app, IHv by exact Hv.
      now destruct (render_item_lines_ok x Hx (indent + 2)) as [-> _].
    + clear IH. induction value as [|x value IHv]; [reflexivity|].
      cbn [forallb] in Hv. apply andb_true_iff in Hv. destruct Hv as [Hx Hv].
      cbn [flat_map]. rewrite forallb_app, IHv by exact Hv.
      now destruct (render_item_lines_ok x Hx (indent + 2)) as [_ ->].
Qed.

Lemma render_item_count (item : nav_item) (indent : nat) :
  List.length (render_item indent item) = item_count item.
Proof.
  revert indent.
  induction item as [key value|key value IH] using nav_item_induction;
    intros indent; [reflexivity|].
  rewrite render_item_group, item_count_group. cbn [List.length]. f_equal.
  induction value as [|x value IHv]; [reflexivity|].
  inversion IH as [|? ? IHx IHrest]; subst.
  cbn [flat_map map list_sum]. rewrite List.length_app, IHx, IHv; auto.
Qed.

(** When no label and no target holds a line break, the text of
    [_nav_to_yaml_string] is the entries written out one per line, a group
    followed by its entries two columns further in: the splitting and the
    dropping of blank lines lose nothing, and the text has as many lines as
    the list has entries. *)
Theorem nav_to_yaml_string_one_line_per_entry
        (nav_list : list nav_item) (indent : nat) :
  forallb item_plain nav_list = true ->
  _nav_to_yaml_string nav_list indent
  = join NL (flat_map (render_item indent) nav_list)
  /\ (nav_list <> [] ->
      List.length (split_nl (_nav_to_yaml_string nav_list indent))
      = list_sum (map item_count nav_list)).
Proof.
  intros H.
  assert (flat_map (item_lines indent) nav_list
          = flat_map (render_item indent) nav_list) as E.
  { induction nav_list as [|x l IH]; [reflexivity|].
    cbn [forallb] in H. apply andb_true_iff in H. destruct H as [Hx Hl].
    cbn [flat_map]. now rewrite item_lines_render, IH. }
  unfold _nav_to_yaml_string. rewrite E. split; [reflexivity|].
  intros Hne. rewrite split_join_lines.
  - clear E Hne. induction nav_list as [|x l IH]; [reflexivity|].
    cbn [forallb] in H. apply andb_true_iff in H. destruct H as [Hx Hl].
    cbn [flat_map map list_sum].
    now rewrite List.length_app, render_item_count, IH.
  - destruct nav_list as [|x l]; [congruence|]. cbn [flat_map].
    destruct x as [k v|k v]; [discriminate|].
    rewrite render_item_group. discriminate.
  - clear E Hne. induction nav_list as [|x l IH]; [reflexivity|].
    cbn [forallb] in H. apply andb_true_iff in H. destruct H as [Hx Hl].
    cbn [flat_map]. rewrite forallb_app, IH by exact Hl.
    now destruct (render_item_lines_ok x Hx indent) as [-> _].
Qed.

(** The theorem on the entries of the sample package. *)
Lemma nav_to_yaml_string_one_line_per_entry_witness :
  _nav_to_yaml_string
    [NavGroup "pkg.sub.mod" [NavLink "mod" "m.md"; NavLink "leaf" "l.md"]] 6
  = join NL ["      - pkg.sub.mod:"; "        - mod: m.md"; "        - leaf: l.md"].
Proof.
  apply (@nav_to_yaml_string_one_line_per_entry
           [NavGroup "pkg.sub.mod" [NavLink "mod" "m.md"; NavLink "leaf" "l.md"]]
           6).
  reflexivity.
Defined.

(* ===================================================================== *)
(** ** The legacy routine: rebuilding the region *)
(* ===================================================================== *)

Lemma keep_lines_in (skip : bool) (lines : list string) (line : string) :
  In line (keep_lines skip lines) ->
  In line lines /\ startswith "- API Reference:" (strip line) = false.
Proof.
  revert skip; induction lines as [|x lines IH]; intros skip; [intros []|].
  cbn [keep_lines].
  destruct (startswith "- API Reference:" (strip x)) eqn:M.
  - intros H. apply IH in H. destruct H; split; auto. now right.
  - destruct skip.
    + destruct (startswith "  - " x && negb (startswith "    " x)).
      * intros [<-|H]; [split; auto; now left|].
        apply IH in H. destruct H; split; auto. now right.
      * intros H. apply IH in H. destruct H; split; auto. now right.
    + intros [<-|H]; [split; auto; now left|].
      apply IH in H. destruct H; split; auto. now right.
Qed.

Lemma keep_lines_no_marker (lines : list string) :
  (forall line, In line lines ->
                startswith "- API Reference:" (strip line) = false) ->
  keep_lines false lines = lines.
Proof.
  induction lines as [|x lines IH]; intros H; [reflexivity|].
  cbn [keep_lines]. rewrite (H x) by now left.
  f_equal. apply IH. intros line Hl. apply H. now right.
Qed.

Lemma keep_lines_skipping (sub rest : list string) :
  (forall line, In line sub -> startswith "  - " line = false) ->
  keep_lines true (sub ++ rest) = keep_lines true rest.
Proof.
  induction sub as [|x sub IH]; intros H; [reflexivity|].
  cbn [app keep_lines]. rewrite (H x) by now left. cbn [andb].
  assert (keep_lines true (sub ++ rest) = keep_lines true rest) as ->
      by (apply IH; intros line Hl; apply H; now right).
  now destruct (startswith "- API Reference:" (strip x)).
Qed.

Lemma keep_lines_app (pre rest : list string) :
  (forall line, In line pre ->
                startswith "- API Reference:" (strip line) = false) ->
  keep_lines false (pre ++ rest) = pre ++ keep_lines false rest.
Proof.
  induction pre as [|x pre IH]; intros H; [reflexivity|].
  cbn [app keep_lines]. rewrite (H x) by now left.
  f_equal. apply IH. intros line Hl. apply H. now right.
Qed.

Lemma list_item_not_deeper (line : string) :
  startswith "  - " line = true -> startswith "    " line = false.
Proof.
  destruct line as [|a [|b [|c line]]]; cbn [startswith].
  - discriminate.
  - destruct (Ascii.eqb " " a); discriminate.
  - destruct (Ascii.eqb " " a); [|discriminate].
    destruct (Ascii.eqb " " b); discriminate.
  - destruct (Ascii.eqb " " a); [|reflexivity].
    destruct (Ascii.eqb " " b); [|reflexivity].
    destruct (Ascii.eqb_spec "-"%char c) as [<-|]; [reflexivity|discriminate].
Qed.

(** The first loop of [_rebuild_nav_content].  No [- API Reference:] line
    is kept and no line is made up; lines without such a line are kept as
    they are; after the first such line every line is dropped up to the next
    line that begins with ["  - "], which is kept unless it is itself an
    [- API Reference:] line. *)
Theorem keep_lines_drops_old_section
        (pre sub rest : list string) (marker : string) :
  (forall line, In line pre ->
                startswith "- API Reference:" (strip line) = false) ->
  startswith "- API Reference:" (strip marker) = true ->
  (forall line, In line sub -> startswith "  - " line = false) ->
  (forall skip line,
      In line (keep_lines skip (pre ++ marker :: sub ++ rest)) ->
      In line (pre ++ marker :: sub ++ rest)
      /\ startswith "- API Reference:" (strip line) = false)
  /\ keep_lines false pre = pre
  /\ keep_lines false (pre ++ marker :: sub ++ rest)
     = pre ++ keep_lines true rest
  /\ (forall next rest',
         rest = next :: rest' ->
         startswith "  - " next = true ->
         startswith "- API Reference:" (strip next) = false ->
         keep_lines false (pre ++ marker :: sub ++ rest)
         = pre ++ next :: keep_lines false rest').
Proof.
  intros Hpre Hmarker Hsub.
  assert (keep_lines false (pre ++ marker :: sub ++ rest)
          = pre ++ keep_lines true rest) as Hmain.
  { rewrite keep_lines_app by exact Hpre. f_equal.
    cbn [keep_lines]. rewrite Hmarker. now apply keep_lines_skipping. }
  split; [|split; [|split]].
  - intros skip line. apply keep_lines_in.
  - now apply keep_lines_no_marker.
  - exact Hmain.
  - intros next rest' -> Hnext Hno. rewrite Hmain. f_equal.
    cbn [keep_lines]. rewrite Hno, Hnext.
    now rewrite (list_item_not_deeper _ Hnext).
Qed.

(** The theorem on a region with an old section of two lines. *)
Lemma keep_lines_drops_old_section_witness :
  keep_lines false
    (["  - Home: index.md"]
       ++ "  - API Reference:" :: ["    - Core:"; "      - a: a.md"]
       ++ ["  - About: about.md"; ""])
  = ["  - Home: index.md"] ++ "  - About: about.md" :: keep_lines false [""].
Proof.
  destruct (@keep_lines_drops_old_section
              ["  - Home: index.md"] ["    - Core:"; "      - a: a.md"]
              ["  - About: about.md"; ""] "  - API Reference:")
    as (_ & _ & _ & H).
  - intros line [<-|[]]. reflexivity.
  - reflexivity.
  - intros line [<-|[<-|[]]]; reflexivity.
  - apply (H "  - About: about.md" [""]); reflexivity.
Defined.

Lemma find_about_some (lines : list string) :
  forall i k,
    find_about i lines = Some k ->
    exists pre about post,
      lines = pre ++ about :: post
      /\ k = i + List.length pre
      /\ startswith "- About:" (strip about) = true
      /\ (forall line, In line pre ->
                       startswith "- About:" (strip line) = false).
Proof.
  induction lines as [|x lines IH]; intros i k; [discriminate|].
  cbn [find_about]. destruct (startswith "- About:" (strip x)) eqn:A.
  - intros [= <-]. exists [], x, lines.
    split; [reflexivity|]. split; [simpl; lia|]. split; [exact A|].
    intros line [].
  - intros H. apply IH in H. destruct H as (pre & about & post & -> & -> & Ha & Hp).
    exists (x :: pre), about, post.
    split; [reflexivity|]. split; [simpl; lia|]. split; [exact Ha|].
    intros line [<-|Hl]; auto.
Qed.

Lemma find_about_none (lines : list string) :
  forall i, find_about i lines = None ->
            forall line, In line lines ->
                         startswith "- About:" (strip line) = false.
Proof.
  induction lines as [|x lines IH]; intros i H line; [intros []|].
  cbn [find_about] in H. destruct (startswith "- About:" (strip x)) eqn:A;
    [discriminate|].
  intros [<-|Hl]; [exact A|]. now apply (IH (S i)).
Qed.

(** Where [_rebuild_nav_content] puts the new section: right before the
    first [- About:] line, followed by an empty line; without such a line at
    the end, after an empty line unless the last line is blank already.  The
    other lines stay in their order. *)
Theorem splice_section_position (lines : list string) (section : string) :
  (forall pre about post,
      lines = pre ++ about :: post ->
      startswith "- About:" (strip about) = true ->
      (forall line, In line pre -> startswith "- About:" (strip line) = false) ->
      splice_section lines section
      = pre ++ [section; EmptyString] ++ about :: post)
  /\ ((forall line, In line lines ->
                    startswith "- About:" (strip line) = false) ->
      splice_section lines section
      = lines ++ (if truthy (strip (last lines EmptyString))
                  then [EmptyString; section] else [section])).
Proof.
  split.
  - intros pre about post -> Ha Hpre. unfold splice_section.
    destruct (find_about 0 (pre ++ about :: post)) as [k|] eqn:F.
    + apply find_about_some in F.
      destruct F as (pre' & about' & post' & E & -> & Ha' & Hpre').
      cbn [Nat.add].
      assert (pre' = pre) as ->.
      { clear - E Ha Ha' Hpre Hpre'. revert pre' E Hpre'.
        induction pre as [|x pre IH]; intros [|y pre'] E Hpre'.
        - reflexivity.
        - cbn [app] in E. injection E as <- _.
          rewrite (Hpre' about) in Ha by now left. discriminate.
        - cbn [app] in E. injection E as -> _.
          rewrite (Hpre about') in Ha' by now left. discriminate.
        - cbn [app] in E. injection E as <- E. f_equal.
          apply IH; auto.
          + intros line Hl. apply Hpre. now right.
          + intros line Hl. apply Hpre'. now right. }
      rewrite firstn_app, firstn_all, Nat.sub_diag, app_nil_r.
      rewrite skipn_app, skipn_all, Nat.sub_diag. reflexivity.
    + pose proof (find_about_none _ _ F about) as H.
      rewrite H in Ha; [discriminate|]. apply in_or_app. right. now left.
  - intros H. unfold splice_section.
    destruct (find_about 0 lines) as [k|] eqn:F.
    + apply find_about_some in F.
      destruct F as (pre & about & post & -> & _ & Ha & _).
      rewrite H in Ha; [discriminate|]. apply in_or_app. right. now left.
    + destruct (truthy (strip (last lines EmptyString))); [|reflexivity].
      now rewrite <- app_assoc.
Qed.

(* ===================================================================== *)
(** ** The keys of the groups in the rendered navigation *)
(* ===================================================================== *)

Lemma contains_app (sub pre post : string) :
  contains sub (pre ++ sub ++ post) = true.
Proof.
  apply contains_find. induction pre as [|c pre [n IH]].
  - exists 0. change ((EmptyString ++ sub ++ post)%string)
      with ((sub ++ post)%string).
    apply find_here, startswith_app.
  - change ((String c pre ++ sub ++ post)%string)
      with (String c (pre ++ sub ++ post)).
    cbn [find]. destruct (startswith sub (String c (pre ++ sub ++ post)));
      [now exists 0|].
    rewrite IH. now exists (S n).
Qed.

Lemma format_key_dotted (segs : list string) :
  List.length segs = 3 -> format_key (join "." segs) = join "." segs.
Proof.
  destruct segs as [|a [|b [|c [|d segs]]]]; try discriminate. intros _.
  unfold format_key. cbn [join].
  now rewrite (contains_app "." a (b ++ "." ++ c)).
Qed.

Lemma build_nav_structure_dotted (structure : package_nav) :
  (forall k, In k (dict_keys structure) ->
             exists segs, List.length segs = 3 /\ k = join "." segs) ->
  _build_nav_structure structure
  = map verbatim_item
        (sorted (fun a b => String.ltb (fst a) (fst b)) structure).
Proof.
  intros H. unfold _build_nav_structure. apply map_ext_in.
  intros [key value] Hin. apply sorted_in in Hin.
  destruct (H key) as (segs & Hlen & ->).
  { apply in_map_iff. now exists (key, value). }
  unfold verbatim_item. cbn [fst snd].
  now rewrite (format_key_dotted _ Hlen).
Qed.

(** The groups of a package go to the navigation under their dotted keys as
    they are, in the order of the keys: [_format_display_name] is never
    applied to the key of a group, only to the name of the package.  This
    holds for the navigation of every package after the structure pass. *)
Theorem group_keys_rendered_verbatim
        (py : PythonAst) (cfg : DocumentationConfig) (packages : list package)
        (name : string) (pnav : package_nav) :
  In (name, pnav) (nav_structure (first_pass cfg packages new_generator)) ->
  _build_nav_structure pnav
  = map verbatim_item (sorted (fun a b => String.ltb (fst a) (fst b)) pnav)
  /\ In (NavGroup (_format_display_name name)
                  (map verbatim_item
                       (sorted (fun a b => String.ltb (fst a) (fst b)) pnav)))
        (_build_api_reference_nav
           (nav_structure (first_pass cfg packages new_generator))).
Proof.
  intros Hin.
  assert (_build_nav_structure pnav
          = map verbatim_item
                (sorted (fun a b => String.ltb (fst a) (fst b)) pnav)) as E.
  { apply build_nav_structure_dotted. intros k Hk.
    destruct (first_pass_origin cfg packages) as (_ & _ & Hkeys).
    now apply (Hkeys name pnav). }
  split; [exact E|].
  unfold _build_api_reference_nav. apply in_map_iff.
  exists (name, pnav). split; [|exact Hin]. now rewrite E.
Qed.

(** The theorem on a package with the groups [a.b.c] and [a.b.solo]. *)
Lemma group_keys_rendered_verbatim_witness :
  exists pnav,
    In ("bridgic-core", pnav)
       (nav_structure (@first_pass sample_ast sample_cfg
                                   [package_of nested_files] new_generator))
    /\ map (fun item => match item with
                        | NavLink label _ => label
                        | NavGroup label _ => label
                        end)
           (_build_nav_structure pnav)
       = ["a.b.c"; "a.b.solo"].
Proof.
  eexists. split.
  - vm_compute. left. reflexivity.
  - destruct (@group_keys_rendered_verbatim
                sample_ast sample_cfg [package_of nested_files]
                "bridgic-core" _ ltac:(vm_compute; left; reflexivity))
      as (-> & _).
    vm_compute. reflexivity.
Defined.

(* ===================================================================== *)
(** ** Assignments to a dictionary, repeated *)
(* ===================================================================== *)

Section DictAlgebra.
Variables (K V : Type) (keq : K -> K -> bool).
Hypothesis keq_eq : forall a b, keq a b = true <-> a = b.

Lemma keq_refl (k : K) : keq k k = true.
Proof. now apply keq_eq. Qed.

Lemma keq_neq (k k' : K) : k <> k' -> keq k k' = false.
Proof.
  intros H. destruct (keq k k') eqn:E; auto. apply keq_eq in E. contradiction.
Qed.

Lemma dict_set_same (k : K) (v : V) (d : dict K V) :
  dict_get keq k d = Some v -> dict_set keq k v d = d.
Proof.
  induction d as [|[k' v'] d IH]; cbn [dict_get dict_set]; [discriminate|].
  destruct (keq k k') eqn:E.
  - now intros [= ->].
  - intros H. now rewrite IH.
Qed.

Lemma dict_set_set (k : K) (v v' : V) (d : dict K V) :
  dict_set keq k v (dict_set keq k v' d) = dict_set keq k v d.
Proof.
  induction d as [|[k0 v0] d IH]; cbn [dict_set].
  - now rewrite keq_refl.
  - destruct (keq k k0) eqn:E; cbn [dict_set]; rewrite E; [reflexivity|].
    now rewrite IH.
Qed.

Lemma dict_set_new (k : K) (v : V) (d : dict K V) :
  ~ In k (dict_keys d) -> dict_set keq k v d = d ++ [(k, v)].
Proof.
  induction d as [|[k0 v0] d IH]; cbn [dict_set dict_keys map fst app];
    [reflexivity|].
  intros H. rewrite keq_neq by (intros ->; apply H; now left).
  rewrite IH; [reflexivity|]. intros Hin. apply H. now right.
Qed.

Lemma dict_set_app (k : K) (v : V) (d rest : dict K V) :
  In k (dict_keys d) -> dict_set keq k v (d ++ rest) = dict_set keq k v d ++ rest.
Proof.
  induction d as [|[k0 v0] d IH]; cbn [dict_set dict_keys map fst app];
    [intros []|].
  intros H. destruct (keq k k0) eqn:E; [reflexivity|].
  rewrite IH; [reflexivity|].
  destruct H as [<-|H]; [|exact H]. now rewrite keq_refl in E.
Qed.

Lemma dict_set_keys_same (k : K) (v : V) (d : dict K V) :
  In k (dict_keys d) -> dict_keys (dict_set keq k v d) = dict_keys d.
Proof.
  induction d as [|[k0 v0] d IH]; cbn [dict_set dict_keys map fst];
    [intros []|].
  intros H. destruct (keq k k0) eqn:E; [reflexivity|].
  cbn [map fst]. f_equal. apply IH.
  destruct H as [<-|H]; [|exact H]. now rewrite keq_refl in E.
Qed.

(** Assignments to different keys commute when one of the keys is there. *)
Lemma dict_set_comm (k k1 : K) (v v1 : V) (d : dict K V) :
  k <> k1 -> In k (dict_keys d) ->
  dict_set keq k1 v1 (dict_set keq k v d)
  = dict_set keq k v (dict_set keq k1 v1 d).
Proof.
  intros Hne. induction d as [|[k0 v0] d IH];
    cbn [dict_set dict_keys map fst]; [intros []|].
  intros H. destruct (keq k k0) eqn:E; destruct (keq k1 k0) eqn:E1;
    cbn [dict_set]; rewrite ?E, ?E1; try reflexivity.
  - apply keq_eq in E, E1. congruence.
  - f_equal. apply IH. destruct H as [<-|H]; [|exact H].
    now rewrite keq_refl in E.
Qed.

(** [assign ops d]: the assignments [d[k] = v] of [ops], in order. *)
Lemma assign_keys_in (ops : list (K * V)) (d : dict K V) (k : K) :
  In k (dict_keys d) ->
  In k (dict_keys (fold_left (fun d op => dict_set keq (fst op) (snd op) d)
                             ops d)).
Proof.
  revert d; induction ops as [|[k1 v1] ops IH]; intros d H; cbn [fold_left];
    [exact H|].
  apply IH. cbn [fst snd]. apply (dict_set_keys _ keq_eq). now right.
Qed.

Lemma assign_keys_ops (ops : list (K * V)) (d : dict K V) (k : K) :
  In k (map fst ops) ->
  In k (dict_keys (fold_left (fun d op => dict_set keq (fst op) (snd op) d)
                             ops d)).
Proof.
  revert d; induction ops as [|[k1 v1] ops IH]; intros d; cbn [fold_left map fst];
    [intros []|].
  intros [<-|H]; [|now apply IH].
  apply assign_keys_in. cbn [fst snd]. apply (dict_set_keys _ keq_eq). now left.
Qed.

Lemma assign_over (ops : list (K * V)) (d : dict K V) (k : K) (v : V) :
  In k (dict_keys d) ->
  dict_set keq k v
    (fold_left (fun d op => dict_set keq (fst op) (snd op) d) ops
               (dict_set keq k v d))
  = dict_set keq k v
      (fold_left (fun d op => dict_set keq (fst op) (snd op) d) ops d).
Proof.
  revert d; induction ops as [|[k1 v1] ops IH]; intros d H; cbn [fold_left fst snd].
  - apply dict_set_set.
  - destruct (keq k k1) eqn:E.
    + apply keq_eq in E. subst k1. now rewrite dict_set_set.
    + assert (k <> k1) as Hne by (intros ->; now rewrite keq_refl in E).
      rewrite (@dict_set_comm k k1 v v1 d Hne H). apply IH.
      apply (dict_set_keys _ keq_eq). now right.
Qed.

Lemma assign_app (ops : list (K * V)) (d rest : dict K V) :
  (forall k, In k (map fst ops) -> In k (dict_keys d)) ->
  fold_left (fun d op => dict_set keq (fst op) (snd op) d) ops (d ++ rest)
  = fold_left (fun d op => dict_set keq (fst op) (snd op) d) ops d ++ rest.
Proof.
  revert d; induction ops as [|[k1 v1] ops IH]; intros d H; cbn [fold_left fst snd];
    [reflexivity|].
  rewrite dict_set_app by (apply H; now left).
  apply IH. intros k Hk. apply (dict_set_keys _ keq_eq). right. apply H. now right.
Qed.

(** Running the same assignments once more changes nothing. *)
Lemma assign_idempotent (ops : list (K * V)) (d : dict K V) :
  fold_left (fun d op => dict_set keq (fst op) (snd op) d) ops
            (fold_left (fun d op => dict_set keq (fst op) (snd op) d) ops d)
  = fold_left (fun d op => dict_set keq (fst op) (snd op) d) ops d.
Proof.
  revert d. induction ops as [|[k v] ops IH] using rev_ind; intros d;
    [reflexivity|].
  rewrite !fold_left_app. cbn [fold_left fst snd].
  set (A := fold_left (fun d op => dict_set keq (fst op) (snd op) d) ops) in *.
  assert (In k (dict_keys (A d)) \/ ~ In k (dict_keys (A d))) as [Hin|Hout].
  { destruct (dict_get keq k (A d)) as [v0|] eqn:G.
    - left. apply (dict_get_in _ keq_eq) in G.
      apply in_map_iff. now exists (k, v0).
    - right. intros Hin. apply (dict_keys_in _ keq_eq) in Hin.
      destruct Hin as [v0 Hv0]. congruence. }
  - transitivity (dict_set keq k v (A (A d)));
      [exact (@assign_over ops (A d) k v Hin)|now rewrite IH].
  - rewrite (@dict_set_new k v (A d) Hout).
    assert (A (A d ++ [(k, v)]) = A (A d) ++ [(k, v)]) as ->.
    { apply assign_app. intros k' Hk'. now apply assign_keys_ops. }
    rewrite IH. rewrite <- (@dict_set_new k v (A d) Hout). apply dict_set_set.
Qed.
End DictAlgebra.

(* ===================================================================== *)
(** ** The navigation of a package, rebuilt *)
(* ===================================================================== *)

Lemma place_group_assign (cfg : DocumentationConfig) (nodes : nodes_t)
      (pnav : package_nav) (first3 : parts) (data : group_data) :
  place_group cfg nodes pnav (first3, data)
  = dict_set String.eqb (join "." first3) (group_value cfg nodes first3 data) pnav.
Proof.
  unfold place_group, group_value.
  assert (forall v,
             dict_set String.eqb (join "." first3) v
               (if dict_mem String.eqb (join "." first3) pnav then pnav
                else dict_set String.eqb (join "." first3) (NavItems []) pnav)
             = dict_set String.eqb (join "." first3) v pnav) as E.
  { intros v. destruct (dict_mem String.eqb (join "." first3) pnav); [reflexivity|].
    apply (dict_set_set _ String.eqb_eq). }
  destruct (List.length (group_items nodes first3 data) =? 1)%nat;
    [destruct (single_entry_as_group cfg)|]; apply E.
Qed.

Lemma synthesize_nav_assign (cfg : DocumentationConfig) (nodes : nodes_t)
      (pnav : package_nav) :
  synthesize_nav cfg nodes pnav
  = fold_left (fun d op => dict_set String.eqb (fst op) (snd op) d)
              (map (fun g => (join "." (fst g),
                              group_value cfg nodes (fst g) (snd g)))
                   (build_groups nodes))
              pnav.
Proof.
  unfold synthesize_nav. generalize (build_groups nodes) as groups.
  intros groups. revert pnav.
  induction groups as [|[first3 data] groups IH]; intros pnav; [reflexivity|].
  cbn [fold_left map fst snd]. rewrite place_group_assign. apply IH.
Qed.

(** Building the navigation of a package from the same nodes a second time
    changes nothing, whatever the package had before. *)
Lemma synthesize_nav_idempotent (cfg : DocumentationConfig) (nodes : nodes_t)
      (pnav : package_nav) :
  synthesize_nav cfg nodes (synthesize_nav cfg nodes pnav)
  = synthesize_nav cfg nodes pnav.
Proof.
  rewrite !synthesize_nav_assign. apply (assign_idempotent _ String.eqb_eq).
Qed.

Lemma same_long_refl (a : nodes_t) : same_long a a.
Proof. induction a; constructor; auto. Qed.

Lemma same_long_keys (a b : nodes_t) :
  same_long a b -> dict_keys a = dict_keys b.
Proof.
  induction 1 as [|e e' a b [Hk _] _ IH]; [reflexivity|].
  cbn [dict_keys map]. f_equal; [exact Hk|exact IH].
Qed.

Lemma same_long_length (a b : nodes_t) :
  same_long a b -> List.length a = List.length b.
Proof. induction 1; simpl; auto. Qed.

Lemma same_long_get (a b : nodes_t) (k : parts) :
  same_long a b -> 2 <= List.length k ->
  dict_get parts_eqb k a = dict_get parts_eqb k b.
Proof.
  intros H Hlen. induction H as [|[k1 v1] [k2 v2] a b [Hk Hv] _ IH];
    [reflexivity|].
  cbn [fst snd] in Hk, Hv. subst k2. cbn [dict_get].
  destruct (parts_eqb k k1) eqn:E; [|exact IH].
  apply parts_eqb_eq in E. subst k1. now rewrite Hv.
Qed.

Lemma same_long_groups (a b : nodes_t) :
  same_long a b -> build_groups a = build_groups b.
Proof.
  unfold build_groups. generalize (@nil (parts * group_data)) as groups.
  intros groups H. revert groups.
  induction H as [|[k1 v1] [k2 v2] a b [Hk Hv] _ IH]; intros groups;
    [reflexivity|].
  cbn [fst snd] in Hk, Hv. subst k2. cbn [fold_left].
  assert (add_to_groups groups (k1, v1) = add_to_groups groups (k1, v2)) as ->;
    [|apply IH].
  unfold add_to_groups. destruct (3 <=? List.length k1)%nat eqn:L; [|reflexivity].
  apply Nat.leb_le in L. now rewrite Hv by lia.
Qed.

Lemma same_long_children (a b : nodes_t) (first3 : parts) :
  same_long a b -> child_index_map a first3 = child_index_map b first3.
Proof.
  unfold child_index_map. generalize (@nil (parts * string)) as m.
  intros m H. revert m.
  induction H as [|[k1 v1] [k2 v2] a b [Hk Hv] _ IH]; intros m;
    [reflexivity|].
  cbn [fst snd] in Hk, Hv. subst k2. cbn [fold_left].
  destruct (List.length k1 =? 4)%nat eqn:L; cbn [andb]; [|apply IH].
  apply Nat.eqb_eq in L. rewrite Hv by lia. apply IH.
Qed.

Lemma same_long_items (a b : nodes_t) (first3 : parts) (data : group_data) :
  same_long a b -> group_items a first3 data = group_items b first3 data.
Proof.
  intros H. unfold group_items.
  rewrite (same_long_children first3 H). f_equal.
  apply map_ext. intros child_parts. unfold child_entry, has_deeper, grand_children.
  rewrite (same_long_keys H).
  destruct (negb _); [reflexivity|]. f_equal. f_equal.
  apply map_ext_in. intros gc Hgc. f_equal.
  apply sorted_in, filter_In in Hgc. destruct Hgc as [_ Hgc].
  apply andb_true_iff in Hgc. destruct Hgc as [Hgc _]. apply Nat.eqb_eq in Hgc.
  unfold node_path. rewrite (@same_long_get a b gc H); [reflexivity|lia].
Qed.

(** The navigation of a package does not depend on the pages of the nodes
    of one segment. *)
Lemma same_long_synthesize (cfg : DocumentationConfig) (a b : nodes_t)
      (pnav : package_nav) :
  same_long a b -> synthesize_nav cfg a pnav = synthesize_nav cfg b pnav.
Proof.
  intros H. rewrite !synthesize_nav_assign. rewrite (same_long_groups H).
  f_equal. apply map_ext. intros [first3 data]. cbn [fst snd].
  unfold group_value. now rewrite (same_long_items first3 data H).
Qed.

Lemma same_long_set (a b : nodes_t) (k : parts) (v : string) :
  same_long a b ->
  In k (dict_keys a) ->
  (2 <= List.length k -> forall e, In e a -> fst e = k -> snd e = v) ->
  same_long a (dict_set parts_eqb k v b).
Proof.
  intros H. induction H as [|[k1 v1] [k2 v2] a b [Hk Hv] Hrest IH];
    intros Hin Hcanon; [destruct Hin|].
  cbn [fst snd] in Hk, Hv. subst k2. cbn [dict_set].
  destruct (parts_eqb k k1) eqn:E.
  - apply parts_eqb_eq in E. subst k1. constructor; [|exact Hrest].
    split; [reflexivity|]. cbn [fst snd]. intros Hlen.
    apply (Hcanon Hlen (k, v1)); [now left|reflexivity].
  - constructor; [now split|]. apply IH.
    + destruct Hin as [Hin|Hin]; [|exact Hin]. cbn [fst] in Hin. subst k1.
      assert (parts_eqb k k = true) by now apply parts_eqb_eq. congruence.
    + intros Hlen e He. apply Hcanon; auto. now right.
Qed.

Lemma same_long_long_nodes (a b : nodes_t) :
  same_long a b -> long_nodes a = long_nodes b.
Proof.
  induction 1 as [|[k1 v1] [k2 v2] a b [Hk Hv] _ IH]; [reflexivity|].
  cbn [fst snd] in Hk, Hv. subst k2. unfold long_nodes in *. cbn [filter fst].
  destruct (2 <=? List.length k1)%nat eqn:L; [|exact IH].
  apply Nat.leb_le in L. now rewrite Hv, IH.
Qed.

(* ===================================================================== *)
(** ** The page pass *)
(* ===================================================================== *)

Section PageFacts.
Context {py : PythonAst} {gen_files : GenFiles}.
Variable cfg : DocumentationConfig.

Lemma bnso_place_package (pkg : package) (g : generator) :
  _build_nav_structure_only cfg pkg g
  = match pkg_files pkg with
    | None => g
    | Some python_files =>
        place_package cfg (pkg_name pkg) g
          (fold_left (visit_file cfg (pkg_src pkg) (pkg_name pkg)) python_files
             {| sc_skipped := skipped_files g; sc_errors := error_files g;
                sc_nodes := match dict_get String.eqb (pkg_name pkg)
                                           (package_nodes g) with
                            | Some nodes => nodes
                            | None => []
                            end;
                sc_has_all := None |})
    end.
Proof. reflexivity. Qed.

Lemma accepted_page_file (code_src : list string) (f : py_file) :
  accepted_index cfg code_src f
  = page_file cfg code_src f && String.eqb (pf_stem f) "__init__".
Proof.
  unfold accepted_index, page_file.
  destruct (should_exclude_path cfg (file_path code_src f)); cbn [negb andb];
    [reflexivity|].
  destruct (String.eqb (pf_stem f) "__init__"); cbn [andb].
  - now rewrite andb_true_r.
  - now rewrite andb_false_r.
Qed.

Lemma init_entry_page (package_name : string) (f : py_file) :
  String.eqb (pf_stem f) "__init__" = true ->
  init_entry cfg package_name f
  = (fst (page_entry f), index_path_of cfg package_name (snd (page_entry f))).
Proof.
  intros I. unfold init_entry, page_entry. rewrite I.
  now destruct (process_init_module _ _ _) as [[parts1 doc1] has_all].
Qed.

(** What one turn of the loop of [process_package] does. *)
Lemma document_file_spec (code_src : list string) (package_name : string)
      (st : page_state) (f : py_file) :
  let st' := document_file cfg code_src package_name st f in
  sc_skipped (pg_scan st')
  = (if should_exclude_path cfg (file_path code_src f)
     then sc_skipped (pg_scan st) ++ [file_path code_src f]
     else sc_skipped (pg_scan st))
  /\ sc_errors (pg_scan st')
     = (if page_file cfg code_src f && page_fails cfg code_src package_name f
        then sc_errors (pg_scan st) ++ [file_path code_src f]
        else sc_errors (pg_scan st))
  /\ pg_generated st'
     = (if page_file cfg code_src f
           && negb (page_fails cfg code_src package_name f)
        then pg_generated st ++ [page_path cfg package_name f]
        else pg_generated st)
  /\ pg_nav st'
     = (if page_file cfg code_src f && negb (nav_fails package_name f)
        then pg_nav st ++ [nav_entry package_name f]
        else pg_nav st)
  /\ sc_nodes (pg_scan st')
     = (if accepted_index cfg code_src f
           && negb (page_fails cfg code_src package_name f)
        then dict_set parts_eqb (fst (init_entry cfg package_name f))
                      (snd (init_entry cfg package_name f))
                      (sc_nodes (pg_scan st))
        else sc_nodes (pg_scan st)).
Proof.
  cbn zeta. rewrite accepted_page_file.
  unfold document_file, page_file. fold (file_path code_src f).
  destruct (should_exclude_path cfg (file_path code_src f)) eqn:X;
    cbn [negb andb pg_scan sc_skipped sc_errors sc_nodes pg_generated pg_nav];
    [auto 6|].
  rewrite last_seg_app.
  assert (last_seg (file_path code_src f) = (pf_stem f ++ ".py")%string) as Hname.
  { unfold file_path. rewrite app_assoc. apply last_seg_app. }
  assert (forall st0 parts1 doc_path,
             (String.eqb (pf_stem f) "__init__" = true ->
              sc_has_all (pg_scan st0) = Some true) ->
             negb (only_index_pages cfg) || String.eqb (pf_stem f) "__init__"
             = true ->
             (fst (page_entry f), snd (page_entry f)) = (parts1, doc_path) ->
             let st' := write_page cfg package_name (file_path code_src f)
                                   parts1 doc_path st0 in
             sc_skipped (pg_scan st') = sc_skipped (pg_scan st0)
             /\ sc_errors (pg_scan st')
                = (if page_fails cfg code_src package_name f
                   then sc_errors (pg_scan st0) ++ [file_path code_src f]
                   else sc_errors (pg_scan st0))
             /\ pg_generated st'
                = (if negb (page_fails cfg code_src package_name f)
                   then pg_generated st0 ++ [page_path cfg package_name f]
                   else pg_generated st0)
             /\ pg_nav st'
                = (if negb (nav_fails package_name f)
                   then pg_nav st0 ++ [nav_entry package_name f]
                   else pg_nav st0)
             /\ sc_nodes (pg_scan st')
                = (if String.eqb (pf_stem f) "__init__"
                      && negb (page_fails cfg code_src package_name f)
                   then dict_set parts_eqb (fst (page_entry f))
                          (index_path_of cfg package_name (snd (page_entry f)))
                          (sc_nodes (pg_scan st0))
                   else sc_nodes (pg_scan st0))) as Hwrite.
  { intros st0 parts1 doc_path Hall Hnav [= <- <-]. cbn zeta.
    unfold write_page, page_fails, nav_fails, page_path, nav_entry,
      create_documentation_file.
    cbn [fst snd]. rewrite Hname, init_file_name.
    assert (negb (only_index_pages cfg)
            || only_index_pages cfg && String.eqb (pf_stem f) "__init__"
            = negb (only_index_pages cfg) || String.eqb (pf_stem f) "__init__")
      as -> by now destruct (only_index_pages cfg).
    rewrite Hnav. cbn [andb].
    destruct (nav_set_raises _ _); cbn [orb negb andb];
      [rewrite andb_false_r; cbn; auto 6|].
    destruct (page_raises _ _ _); cbn [orb negb andb];
      [rewrite andb_false_r; cbn; auto 6|].
    unfold record_node. rewrite Hname, init_file_name.
    cbn [pg_scan pg_generated pg_nav].
    destruct (String.eqb (pf_stem f) "__init__") eqn:I; cbn [andb];
      [|auto 6].
    rewrite (Hall eq_refl). cbn. auto 6. }
  destruct (String.eqb (pf_stem f) "__init__") eqn:I.
  - rewrite andb_true_r.
    pose proof (process_init_module_parts (pf_dirs f) (pf_stem f)
                  (pf_dirs f ++ [with_suffix (pf_stem f) ".md"]) (pf_text f))
      as Hparts.
    pose proof (process_init_module_has_all (pf_dirs f ++ [pf_stem f])
                  (pf_dirs f ++ [with_suffix (pf_stem f) ".md"]) (pf_text f))
      as Hall.
    rewrite (init_entry_page package_name f I). cbn [fst snd].
    unfold exports_of. rewrite <- Hall.
    assert ((fst (page_entry f), snd (page_entry f))
            = fst (process_init_module (pf_dirs f ++ [pf_stem f])
                     (pf_dirs f ++ [with_suffix (pf_stem f) ".md"]) (pf_text f)))
      as Hentry.
    { unfold page_entry. rewrite I. symmetry. apply surjective_pairing. }
    destruct (process_init_module _ _ _) as [[parts1 doc1] has_all].
    cbn [fst snd] in *.
    destruct parts1 as [|seg parts1]; [contradiction|].
    destruct has_all; cbn [negb andb]; [|cbn; auto 6].
    match goal with
    | |- context [write_page _ _ _ _ _ ?s] =>
        destruct (Hwrite s (seg :: parts1) doc1) as (H1 & H2 & H3 & H4 & H5)
    end; [reflexivity|now rewrite orb_true_r|exact Hentry|].
    rewrite H1, H2, H3, H4, H5. cbn. auto 6.
  - rewrite andb_false_r. cbn [andb].
    destruct (String.eqb (pf_stem f) "__main__"); cbn [negb andb]; [auto 6|].
    destruct (only_index_pages cfg) eqn:O; cbn [negb andb]; [auto 6|].
    destruct (Hwrite st (pf_dirs f ++ [pf_stem f])
                     (pf_dirs f ++ [with_suffix (pf_stem f) ".md"]))
      as (H1 & H2 & H3 & H4 & H5).
    + intros [=].
    + reflexivity.
    + unfold page_entry. now rewrite I.
    + rewrite H1, H2, H3, H4, H5. cbn. auto 6.
Qed.

Lemma document_scan (code_src : list string) (package_name : string)
      (files : list py_file) (st : page_state) :
  let st' := fold_left (document_file cfg code_src package_name) files st in
  sc_skipped (pg_scan st')
  = sc_skipped (pg_scan st)
      ++ filter (should_exclude_path cfg) (map (file_path code_src) files)
  /\ sc_errors (pg_scan st')
     = sc_errors (pg_scan st)
         ++ map (file_path code_src)
                (filter (fun f => page_file cfg code_src f
                                  && page_fails cfg code_src package_name f)
                        files)
  /\ pg_generated st'
     = pg_generated st
         ++ map (page_path cfg package_name)
                (filter (fun f => page_file cfg code_src f
                                  && negb (page_fails cfg code_src package_name f))
                        files)
  /\ pg_nav st'
     = pg_nav st
         ++ map (nav_entry package_name)
                (filter (fun f => page_file cfg code_src f
                                  && negb (nav_fails package_name f))
                        files).
Proof.
  revert st; induction files as [|f files IH]; intros st.
  - cbn. now rewrite !app_nil_r.
  - cbn [fold_left]. cbn zeta in *.
    destruct (IH (document_file cfg code_src package_name st f))
      as (-> & -> & -> & ->).
    destruct (document_file_spec code_src package_name st f)
      as (-> & -> & -> & -> & _).
    cbn [map filter].
    destruct (should_exclude_path cfg (file_path code_src f));
      destruct (page_file cfg code_src f);
      destruct (page_fails cfg code_src package_name f);
      destruct (nav_fails package_name f);
      cbn [andb negb map]; rewrite <- ?app_assoc; auto.
Qed.

Lemma visit_scan_skipped (code_src : list string) (package_name : string)
      (files : list py_file) (st : scan_state) :
  sc_skipped (fold_left (visit_file cfg code_src package_name) files st)
  = sc_skipped st
      ++ filter (should_exclude_path cfg) (map (file_path code_src) files).
Proof.
  revert st; induction files as [|f files IH]; intros st.
  - cbn. now rewrite app_nil_r.
  - cbn [fold_left]. rewrite IH.
    destruct (visit_file_spec cfg code_src package_name st f) as (_ & _ & ->).
    cbn [map filter].
    destruct (should_exclude_path cfg (file_path code_src f));
      rewrite <- ?app_assoc; auto.
Qed.

(** The entry of a package index in a directory of the package has the page
    [index.md] of that directory. *)
Lemma init_entry_canonical (code_src : list string) (package_name : string)
      (f : py_file) :
  accepted_index cfg code_src f = true ->
  2 <= List.length (fst (init_entry cfg package_name f)) ->
  snd (init_entry cfg package_name f)
  = index_of_parts cfg package_name (fst (init_entry cfg package_name f)).
Proof.
  unfold accepted_index, init_entry, index_of_parts, process_init_module.
  intros H. apply andb_true_iff in H. destruct H as [H _].
  apply andb_true_iff in H. destruct H as [_ I]. apply String.eqb_eq in I.
  rewrite I. destruct (_parse_init_doc_and_all (pf_text f)) as [d exports].
  destruct (1 <? List.length (pf_dirs f ++ ["__init__"]))%nat eqn:L;
    cbn [fst snd].
  - intros _. unfold with_name_index. now rewrite !removelast_last.
  - apply Nat.ltb_ge in L. rewrite List.length_app in *. cbn in *. lia.
Qed.

(** The nodes after the loop of [process_package] have the keys they had,
    and the pages they had for the keys of two or more segments, when every
    package index of the files is registered already. *)
Lemma document_scan_nodes (code_src : list string) (package_name : string)
      (nodes : nodes_t) (files : list py_file) (st : page_state) :
  (forall e, In e nodes -> 2 <= List.length (fst e) ->
             snd e = index_of_parts cfg package_name (fst e)) ->
  (forall f, In f files -> accepted_index cfg code_src f = true ->
             In (fst (init_entry cfg package_name f)) (dict_keys nodes)) ->
  same_long nodes (sc_nodes (pg_scan st)) ->
  same_long nodes
    (sc_nodes (pg_scan (fold_left (document_file cfg code_src package_name)
                                  files st))).
Proof.
  intros Hcanon. revert st; induction files as [|f files IH]; intros st Hreg Hst;
    [exact Hst|].
  cbn [fold_left]. apply IH; [intros f' Hf'; apply Hreg; now right|].
  destruct (document_file_spec code_src package_name st f)
    as (_ & _ & _ & _ & ->).
  destruct (accepted_index cfg code_src f) eqn:A; cbn [andb]; [|exact Hst].
  destruct (negb (page_fails cfg code_src package_name f)); [|exact Hst].
  apply same_long_set; [exact Hst|apply Hreg; [now left|exact A]|].
  intros Hlen e He Hk. rewrite (init_entry_canonical _ _ _ A Hlen).
  rewrite <- Hk. apply Hcanon; [exact He|]. now rewrite Hk.
Qed.
End PageFacts.

(* ===================================================================== *)
(** ** The two passes of [generate] *)
(* ===================================================================== *)

Lemma nodes_agree_refl (a : dict string nodes_t) : nodes_agree a a.
Proof.
  induction a; constructor; auto. split; [reflexivity|apply same_long_refl].
Qed.

Lemma nodes_agree_get (a b : dict string nodes_t) (name : string)
      (nodes : nodes_t) :
  nodes_agree a b ->
  dict_get String.eqb name a = Some nodes ->
  exists nodes', dict_get String.eqb name b = Some nodes'
                 /\ same_long nodes nodes'.
Proof.
  induction 1 as [|[n1 v1] [n2 v2] a b [Hn Hv] _ IH]; [discriminate|].
  cbn [fst snd] in Hn, Hv. subst n2. cbn [dict_get].
  destruct (String.eqb name n1); [|exact IH].
  intros [= <-]. eauto.
Qed.

Lemma nodes_agree_set (a b : dict string nodes_t) (name : string)
      (nodes nodes' : nodes_t) :
  nodes_agree a b ->
  dict_get String.eqb name a = Some nodes ->
  same_long nodes nodes' ->
  nodes_agree a (dict_set String.eqb name nodes' b).
Proof.
  intros H. induction H as [|[n1 v1] [n2 v2] a b [Hn Hv] Hrest IH];
    [discriminate|].
  cbn [fst snd] in Hn, Hv. subst n2. cbn [dict_get dict_set].
  destruct (String.eqb name n1).
  - intros [= <-] Hs. constructor; [now split|exact Hrest].
  - intros Hget Hs. constructor; [now split|]. now apply IH.
Qed.

Lemma nodes_agree_long (a b : dict string nodes_t) :
  nodes_agree a b ->
  map (fun e => (fst e, long_nodes (snd e))) a
  = map (fun e => (fst e, long_nodes (snd e))) b
  /\ map (fun e => (fst e, dict_keys (snd e))) a
     = map (fun e => (fst e, dict_keys (snd e))) b.
Proof.
  induction 1 as [|[n1 v1] [n2 v2] a b [Hn Hv] _ [IH1 IH2]]; [now split|].
  cbn [fst snd] in Hn, Hv. subst n2. cbn [map fst snd].
  rewrite IH1, IH2, (same_long_long_nodes Hv), (same_long_keys Hv). now split.
Qed.

Section TwoPasses.
Context {py : PythonAst} {gen_files : GenFiles}.
Variable cfg : DocumentationConfig.

Lemma place_package_fixpoint (package_name : string) (g : generator)
      (st : scan_state) :
  (forall name nodes,
      dict_get String.eqb name (package_nodes g) = Some nodes -> nodes <> [] ->
      exists pnav, dict_get String.eqb name (nav_structure g) = Some pnav
                   /\ synthesize_nav cfg nodes pnav = pnav) ->
  forall name nodes,
    dict_get String.eqb name
             (package_nodes (place_package cfg package_name g st)) = Some nodes ->
    nodes <> [] ->
    exists pnav,
      dict_get String.eqb name
               (nav_structure (place_package cfg package_name g st)) = Some pnav
      /\ synthesize_nav cfg nodes pnav = pnav.
Proof.
  intros H name nodes. unfold place_package. cbn [package_nodes nav_structure].
  destruct (String.eqb_spec name package_name) as [->|Hne].
  - rewrite (dict_get_set_same _ String.eqb_eq). intros [= <-] Hnodes.
    destruct (sc_nodes st) as [|e rest] eqn:N; [contradiction|].
    rewrite (dict_get_set_same _ String.eqb_eq).
    eexists. split; [reflexivity|]. apply synthesize_nav_idempotent.
  - rewrite (dict_get_set_other _ String.eqb_eq) by assumption.
    intros Hget Hnodes. destruct (H name nodes Hget Hnodes) as (pnav & Hp & Hs).
    exists pnav. split; [|exact Hs].
    destruct (sc_nodes st); [exact Hp|].
    now rewrite (dict_get_set_other _ String.eqb_eq).
Qed.

(** After the structure pass the navigation of every package is the one its
    nodes give. *)
Lemma first_pass_fixpoint (packages : list package) :
  forall name nodes,
    dict_get String.eqb name
             (package_nodes (first_pass cfg packages new_generator)) = Some nodes ->
    nodes <> [] ->
    exists pnav,
      dict_get String.eqb name
               (nav_structure (first_pass cfg packages new_generator)) = Some pnav
      /\ synthesize_nav cfg nodes pnav = pnav.
Proof.
  unfold first_pass.
  apply (@fold_left_invariant _ _
           (fun g pkg => _build_nav_structure_only cfg pkg g)
           (fun g =>
              forall name nodes,
                dict_get String.eqb name (package_nodes g) = Some nodes ->
                nodes <> [] ->
                exists pnav,
                  dict_get String.eqb name (nav_structure g) = Some pnav
                  /\ synthesize_nav cfg nodes pnav = pnav)).
  - intros g pkg _ H. rewrite bnso_place_package.
    destruct (pkg_files pkg); [|exact H]. now apply place_package_fixpoint.
  - intros name nodes [=].
Qed.

Lemma bnso_keeps_name (pkg : package) (g : generator) (name : string)
      (nodes : nodes_t) :
  dict_get String.eqb name (package_nodes g) = Some nodes ->
  exists nodes',
    dict_get String.eqb name
             (package_nodes (_build_nav_structure_only cfg pkg g)) = Some nodes'.
Proof.
  intros Hget. rewrite bnso_place_package.
  destruct (pkg_files pkg); [|eauto]. unfold place_package. cbn [package_nodes].
  destruct (String.eqb_spec name (pkg_name pkg)) as [->|Hne].
  - rewrite (dict_get_set_same _ String.eqb_eq). eauto.
  - rewrite (dict_get_set_other _ String.eqb_eq) by assumption. eauto.
Qed.

Lemma first_pass_keeps_name (packages : list package) (g : generator)
      (name : string) (nodes : nodes_t) :
  dict_get String.eqb name (package_nodes g) = Some nodes ->
  exists nodes',
    dict_get String.eqb name (package_nodes (first_pass cfg packages g))
    = Some nodes'.
Proof.
  revert g nodes; induction packages as [|pkg packages IH]; intros g nodes Hget.
  - simpl. eauto.
  - simpl. destruct (@bnso_keeps_name pkg g name nodes Hget) as (nodes' & H1).
    now apply (IH _ nodes').
Qed.

Lemma first_pass_named (packages : list package) (g : generator)
      (pkg : package) (files : list py_file) :
  In pkg packages ->
  pkg_files pkg = Some files ->
  exists nodes,
    dict_get String.eqb (pkg_name pkg) (package_nodes (first_pass cfg packages g))
    = Some nodes.
Proof.
  revert g; induction packages as [|pkg0 packages IH]; intros g Hpkg Hfiles;
    [destruct Hpkg|].
  destruct Hpkg as [->|Hpkg]; simpl; [|now apply IH].
  apply (@first_pass_keeps_name packages _ (pkg_name pkg)
           (sc_nodes (fold_left (visit_file cfg (pkg_src pkg) (pkg_name pkg)) files
              {| sc_skipped := skipped_files g; sc_errors := error_files g;
                 sc_nodes := match dict_get String.eqb (pkg_name pkg)
                                            (package_nodes g) with
                             | Some nodes => nodes
                             | None => []
                             end;
                 sc_has_all := None |}))).
  rewrite bnso_place_package, Hfiles. unfold place_package. cbn [package_nodes].
  apply (dict_get_set_same _ String.eqb_eq).
Qed.

Lemma first_pass_canonical (packages : list package) (name : string)
      (nodes : nodes_t) (e : parts * string) :
  dict_get String.eqb name
           (package_nodes (first_pass cfg packages new_generator)) = Some nodes ->
  In e nodes -> 2 <= List.length (fst e) ->
  snd e = index_of_parts cfg name (fst e).
Proof.
  intros Hget He Hlen. apply (dict_get_in _ String.eqb_eq) in Hget.
  destruct (first_pass_origin cfg packages) as (Horigin & _).
  destruct (Horigin name nodes e Hget He)
    as (pkg & files & f & _ & _ & _ & _ & Hacc & <-).
  now apply (init_entry_canonical cfg (pkg_src pkg)).
Qed.

(** One package of the page pass keeps the navigation structure of the
    structure pass, and the nodes up to the pages of the keys of one
    segment. *)
Lemma process_package_keeps (packages : list package) (pkg : package)
      (d : documentation) :
  In pkg packages ->
  nav_structure (doc_generator d)
  = nav_structure (first_pass cfg packages new_generator) ->
  nodes_agree (package_nodes (first_pass cfg packages new_generator))
              (package_nodes (doc_generator d)) ->
  nav_structure (doc_generator (process_package cfg pkg d))
  = nav_structure (first_pass cfg packages new_generator)
  /\ nodes_agree (package_nodes (first_pass cfg packages new_generator))
                 (package_nodes (doc_generator (process_package cfg pkg d))).
Proof.
  intros Hpkg Hnav Hagree. unfold process_package.
  destruct (pkg_files pkg) as [files|] eqn:Hfiles; [|now split].
  destruct (@first_pass_named packages new_generator pkg files Hpkg Hfiles)
    as (nodes1 & Hget1).
  destruct (nodes_agree_get (pkg_name pkg) Hagree Hget1) as (nodes' & Hget' & Hsame).
  rewrite Hget'.
  match goal with
  | |- context [fold_left ?step files ?st0] =>
      set (st := fold_left step files st0)
  end.
  assert (same_long nodes1 (sc_nodes (pg_scan st))) as Hst.
  { unfold st. apply document_scan_nodes.
    - intros e He Hlen. now apply (@first_pass_canonical packages (pkg_name pkg) nodes1).
    - intros f Hf Hacc.
      destruct (@first_pass_registers py cfg packages new_generator pkg files f
                  Hpkg Hfiles Hf Hacc) as (nodes2 & Hget2 & Hin).
      rewrite Hget1 in Hget2. now injection Hget2 as <-.
    - exact Hsame. }
  cbn [doc_generator]. unfold place_package. cbn [nav_structure package_nodes].
  split; [|now apply (nodes_agree_set (pkg_name pkg) Hagree Hget1)].
  destruct (sc_nodes (pg_scan st)) as [|e rest] eqn:N; [exact Hnav|].
  assert (nodes1 <> []) as Hne.
  { intros ->. apply same_long_length in Hst. discriminate. }
  rewrite <- N in Hst |- *.
  destruct (@first_pass_fixpoint packages (pkg_name pkg) nodes1 Hget1 Hne)
    as (pnav & Hp & Hfix).
  rewrite Hnav, Hp. rewrite <- (same_long_synthesize cfg pnav Hst), Hfix.
  now apply dict_set_same.
Qed.

Lemma bnso_skipped (pkg : package) (g : generator) :
  skipped_files (_build_nav_structure_only cfg pkg g)
  = skipped_files g ++ excluded_paths cfg pkg.
Proof.
  rewrite bnso_place_package. unfold excluded_paths.
  destruct (pkg_files pkg); [|now rewrite app_nil_r].
  unfold place_package. cbn [skipped_files]. now rewrite visit_scan_skipped.
Qed.

Lemma first_pass_skipped (packages : list package) (g : generator) :
  skipped_files (first_pass cfg packages g)
  = skipped_files g ++ flat_map (excluded_paths cfg) packages.
Proof.
  revert g; induction packages as [|pkg packages IH]; intros g.
  - cbn. now rewrite app_nil_r.
  - cbn [first_pass fold_left flat_map]. unfold first_pass in IH.
    now rewrite IH, bnso_skipped, app_assoc.
Qed.

Lemma process_package_lists (pkg : package) (d : documentation) :
  let d' := process_package cfg pkg d in
  skipped_files (doc_generator d')
  = skipped_files (doc_generator d) ++ excluded_paths cfg pkg
  /\ error_files (doc_generator d')
     = error_files (doc_generator d) ++ failed_sources cfg pkg
  /\ generated_files d' = generated_files d ++ written_pages cfg pkg
  /\ nav d' = nav d ++ nav_assignments cfg pkg.
Proof.
  cbn zeta. unfold process_package, excluded_paths, failed_sources,
              written_pages, nav_assignments, files_of.
  destruct (pkg_files pkg) as [files|]; [|cbn; now rewrite !app_nil_r].
  cbn [doc_generator generated_files nav]. unfold place_package.
  cbn [skipped_files error_files].
  match goal with
  | |- context [fold_left ?step files ?st0] =>
      destruct (document_scan cfg (pkg_src pkg) (pkg_name pkg) files st0)
        as (-> & -> & -> & ->)
  end.
  cbn. auto.
Qed.

Lemma second_pass_lists (packages : list package) (d : documentation) :
  let d' := second_pass cfg packages d in
  skipped_files (doc_generator d')
  = skipped_files (doc_generator d) ++ flat_map (excluded_paths cfg) packages
  /\ error_files (doc_generator d')
     = error_files (doc_generator d) ++ flat_map (failed_sources cfg) packages
  /\ generated_files d'
     = generated_files d ++ flat_map (written_pages cfg) packages
  /\ nav d' = nav d ++ flat_map (nav_assignments cfg) packages.
Proof.
  revert d; induction packages as [|pkg packages IH]; intros d.
  - cbn. now rewrite !app_nil_r.
  - cbn [second_pass fold_left flat_map]. cbn zeta in IH. unfold second_pass in IH.
    destruct (IH (process_package cfg pkg d)) as (-> & -> & -> & ->).
    destruct (process_package_lists pkg d) as (-> & -> & -> & ->).
    now rewrite <- !app_assoc.
Qed.
End TwoPasses.

(** The page pass changes nothing of what the structure pass built.  For
    every behaviour of the calls that write pages, after both passes
    [nav_structure] is the one left by the structure pass, from which
    [mkdocs.yml] was written between the passes; [package_nodes] has the
    same packages and the same keys, and the same page for every key of two
    or more segments. *)
Theorem page_pass_keeps_navigation
        (py : PythonAst) (gen_files : GenFiles) (cfg : DocumentationConfig)
        (packages : list package) :
  nav_structure (doc_generator (both_passes cfg packages))
  = nav_structure (first_pass cfg packages new_generator)
  /\ map (fun e => (fst e, long_nodes (snd e)))
         (package_nodes (first_pass cfg packages new_generator))
     = map (fun e => (fst e, long_nodes (snd e)))
           (package_nodes (doc_generator (both_passes cfg packages)))
  /\ map (fun e => (fst e, dict_keys (snd e)))
         (package_nodes (first_pass cfg packages new_generator))
     = map (fun e => (fst e, dict_keys (snd e)))
           (package_nodes (doc_generator (both_passes cfg packages))).
Proof.
  assert (nav_structure (doc_generator (both_passes cfg packages))
          = nav_structure (first_pass cfg packages new_generator)
          /\ nodes_agree (package_nodes (first_pass cfg packages new_generator))
                         (package_nodes (doc_generator (both_passes cfg packages))))
    as [Hnav Hagree].
  { unfold both_passes, second_pass.
    apply (@fold_left_invariant _ _
             (fun d pkg => process_package cfg pkg d)
             (fun d =>
                nav_structure (doc_generator d)
                = nav_structure (first_pass cfg packages new_generator)
                /\ nodes_agree
                     (package_nodes (first_pass cfg packages new_generator))
                     (package_nodes (doc_generator d)))).
    - intros d pkg Hpkg [H1 H2]. now apply process_package_keeps.
    - split; [reflexivity|apply nodes_agree_refl]. }
  split; [exact Hnav|]. now apply nodes_agree_long.
Qed.

(** What the two passes leave in the lists of the generator, for every
    behaviour of the calls that write pages.  Every excluded file is in
    [skipped_files] twice, once for each pass; [error_files] has the sources
    whose turn of the page pass met an exception, and nothing from the
    structure pass; [generated_files] has the pages of the other files that
    get a page; [self.nav] was assigned once for every file that gets a
    page, unless that assignment raised. *)
Theorem two_passes_accounts
        (py : PythonAst) (gen_files : GenFiles) (cfg : DocumentationConfig)
        (packages : list package) :
  skipped_files (doc_generator (both_passes cfg packages))
  = skipped_files (first_pass cfg packages new_generator)
      ++ skipped_files (first_pass cfg packages new_generator)
  /\ skipped_files (first_pass cfg packages new_generator)
     = flat_map (excluded_paths cfg) packages
  /\ error_files (doc_generator (both_passes cfg packages))
     = flat_map (failed_sources cfg) packages
  /\ generated_files (both_passes cfg packages)
     = flat_map (written_pages cfg) packages
  /\ nav (both_passes cfg packages)
     = flat_map (nav_assignments cfg) packages.
Proof.
  unfold both_passes.
  destruct (second_pass_lists cfg packages
              {| doc_generator := first_pass cfg packages new_generator;
                 generated_files := []; nav := [] |}) as (-> & -> & -> & ->).
  cbn [doc_generator generated_files nav].
  rewrite first_pass_errors, first_pass_skipped. cbn [skipped_files new_generator app].
  auto.
Qed.

(* ===================================================================== *)
(** ** The heading of a page *)
(* ===================================================================== *)

Lemma split_on_nonempty (c : ascii) (s : string) : split_on c s <> [].
Proof.
  destruct s as [|x s]; cbn [split_on]; [discriminate|].
  destruct (Ascii.eqb x c); [discriminate|].
  destruct (split_on c s); discriminate.
Qed.

Lemma split_on_lacks (c : ascii) (s : string) :
  lacks c s = true -> split_on c s = [s].
Proof.
  unfold lacks. induction s as [|x s IH]; cbn [split_on str_forallb];
    [reflexivity|].
  intros H. apply andb_true_iff in H. destruct H as [Hx Hs].
  apply negb_true_iff in Hx. rewrite Hx, (IH Hs). reflexivity.
Qed.

Lemma split_on_pieces (c : ascii) (s piece : string) :
  In piece (split_on c s) -> lacks c piece = true.
Proof.
  unfold lacks. revert piece; induction s as [|x s IH]; intros piece;
    cbn [split_on].
  - intros [<-|[]]. reflexivity.
  - destruct (Ascii.eqb x c) eqn:E.
    + intros [<-|H]; [reflexivity|now apply IH].
    + destruct (split_on c s) as [|l ls].
      * intros [<-|[]]. cbn [str_forallb]. now rewrite E.
      * intros [<-|H].
        -- cbn [str_forallb]. rewrite E. cbn [negb andb]. apply IH. now left.
        -- apply IH. now right.
Qed.

Lemma split_on_after (c : ascii) (a b : string) :
  exists pre, pre <> []
              /\ split_on c (a ++ String c b) = pre ++ split_on c b.
Proof.
  induction a as [|x a (pre & Hpre & IH)].
  - exists [EmptyString]. split; [discriminate|].
    change ((EmptyString ++ String c b)%string) with (String c b).
    cbn [split_on]. now rewrite Ascii.eqb_refl.
  - change ((String x a ++ String c b)%string) with (String x (a ++ String c b)).
    cbn [split_on]. rewrite IH. destruct (Ascii.eqb x c).
    + exists (EmptyString :: pre). split; [discriminate|reflexivity].
    + destruct pre as [|p0 pre]; [contradiction|].
      exists (String x p0 :: pre). split; [discriminate|reflexivity].
Qed.

Lemma last_after (A : Type) (pre l : list A) (d : A) :
  l <> [] -> last (pre ++ l) d = last l d.
Proof.
  intros Hl. induction pre as [|x pre IH]; [reflexivity|].
  cbn [app]. destruct (pre ++ l) eqn:E; [|exact IH].
  destruct pre; [contradiction|discriminate].
Qed.

Lemma contains_dot (s : string) : contains "." s = negb (lacks "." s).
Proof.
  unfold contains, lacks. induction s as [|x s IH]; [reflexivity|].
  cbn [find startswith str_forallb]. rewrite (Ascii.eqb_sym "."%char x).
  destruct (Ascii.eqb x "."); cbn [negb andb].
  - now destruct s.
  - rewrite <- IH. now destruct (find "." s).
Qed.

Lemma last_piece_of_join (segs : list string) :
  last (split_on "." (join "." segs)) EmptyString
  = last (split_on "." (last_seg segs)) EmptyString.
Proof.
  unfold last_seg. induction segs as [|p [|q segs] IH]; [reflexivity..|].
  change (join "." (p :: q :: segs))
    with ((p ++ String "."%char (join "." (q :: segs)))%string).
  destruct (split_on_after "."%char p (join "." (q :: segs))) as (pre & _ & ->).
  rewrite last_after by apply split_on_nonempty. exact IH.
Qed.

Lemma module_title_of_join (segs : list string) :
  module_title (generate_module_identifier segs) = module_title (last_seg segs).
Proof.
  unfold module_title, generate_module_identifier.
  destruct (contains "." (join "." segs)) eqn:C.
  - rewrite last_piece_of_join.
    destruct (contains "." (last_seg segs)) eqn:D; [reflexivity|].
    rewrite contains_dot in D. apply negb_false_iff in D.
    now rewrite (split_on_lacks _ _ D).
  - destruct segs as [|p [|q segs]]; [reflexivity| |].
    + change (last_seg [p]) with p. change (join "." [p]) with p in *.
      now rewrite C.
    + change (join "." (p :: q :: segs))
        with ((p ++ "." ++ join "." (q :: segs))%string) in C.
      now rewrite contains_app in C.
Qed.

Lemma module_title_lacks_dot (identifier : string) :
  lacks "." (module_title identifier) = true.
Proof.
  unfold module_title. destruct (contains "." identifier) eqn:C.
  - apply (@split_on_pieces "."%char identifier).
    destruct (@exists_last _ (split_on "." identifier)
                           (@split_on_nonempty "."%char identifier))
      as (init & x & E).
    rewrite E, last_last. apply in_or_app. right. now left.
  - rewrite contains_dot in C. now apply negb_false_iff in C.
Qed.

(** The heading of a page is the text after the last dot of the
    identifier, which is the last segment of the module path when that
    segment has no dot (for a package index, the name of its directory); the
    heading never has a dot; the page begins with the heading and ends with
    the [:::] line of the identifier. *)
Theorem page_heading_is_last_segment
        (package_info : package_info_t) (segs : list string)
        (source_path : list string) (package_path : string) :
  module_title (generate_module_identifier segs) = module_title (last_seg segs)
  /\ lacks "." (module_title (generate_module_identifier segs)) = true
  /\ (lacks "." (last_seg segs) = true ->
      module_title (generate_module_identifier segs) = last_seg segs
      /\ exists body,
           page_text package_info (generate_module_identifier segs)
                     source_path package_path
           = ("# " ++ last_seg segs ++ NL ++ NL ++ body
                   ++ "::: " ++ generate_module_identifier segs ++ NL)%string).
Proof.
  split; [apply module_title_of_join|]. split; [apply module_title_lacks_dot|].
  intros H.
  assert (module_title (generate_module_identifier segs) = last_seg segs) as E.
  { rewrite module_title_of_join. unfold module_title.
    rewrite contains_dot, H. reflexivity. }
  split; [exact E|]. unfold page_text. rewrite E.
  destruct (String.eqb (last_seg source_path) "__init__.py").
  - exists (if String.eqb (generate_module_identifier segs) "bridgic.core.automa"
            then ("::: bridgic.core.automa.worker._worker_decorator" ++ NL)%string
            else EmptyString).
    now rewrite !str_app_assoc.
  - exists (if truthy package_path
            then if truthy (get_package_description package_info package_path)
                 then ("> " ++ get_package_description package_info package_path
                            ++ NL ++ NL)%string
                 else EmptyString
            else EmptyString).
    now rewrite !str_app_assoc.
Qed.

(* ===================================================================== *)
(** ** The children of a group, each once and in order *)
(* ===================================================================== *)

Section SortedPermutation.
Variables (A : Type) (ltb : A -> A -> bool).

Lemma insert_sorted_perm (x : A) (l : list A) :
  Permutation (insert_sorted ltb x l) (x :: l).
Proof.
  induction l as [|y l IH]; cbn [insert_sorted]; [reflexivity|].
  destruct (ltb y x); [|reflexivity].
  rewrite IH. apply perm_swap.
Qed.

Lemma sorted_perm (l : list A) : Permutation (sorted ltb l) l.
Proof.
  induction l as [|x l IH]; cbn [sorted]; [reflexivity|].
  rewrite insert_sorted_perm. now constructor.
Qed.
End SortedPermutation.

Lemma dict_set_nodup (K V : Type) (keq : K -> K -> bool)
      (keq_eq : forall a b, keq a b = true <-> a = b)
      (k : K) (v : V) (d : dict K V) :
  NoDup (dict_keys d) -> NoDup (dict_keys (dict_set keq k v d)).
Proof.
  intros H.
  assert (In k (dict_keys d) \/ ~ In k (dict_keys d)) as [Hin|Hout].
  { destruct (dict_get keq k d) as [v0|] eqn:G.
    - left. apply (dict_get_in _ keq_eq) in G.
      apply in_map_iff. now exists (k, v0).
    - right. intros Hin. apply (dict_keys_in _ keq_eq) in Hin.
      destruct Hin as [v0 Hv0]. congruence. }
  - now rewrite (@dict_set_keys_same K V keq keq_eq k v d Hin).
  - rewrite (@dict_set_new K V keq keq_eq k v d Hout).
    unfold dict_keys in *. rewrite map_app. cbn [map fst].
    apply NoDup_app; [exact H|repeat constructor; intros []|].
    intros a Ha [<-|[]]. contradiction.
Qed.

Lemma child_index_map_nodup (nodes : nodes_t) (first3 : parts) :
  NoDup (dict_keys (child_index_map nodes first3)).
Proof.
  unfold child_index_map.
  apply (@fold_left_invariant _ _
           (fun (m : nodes_t) (e : parts * string) =>
              let '(parts_tuple, index_path) := e in
              if (List.length parts_tuple =? 4)%nat
                 && parts_eqb (firstn 3 parts_tuple) first3
              then dict_set parts_eqb parts_tuple index_path m else m)
           (fun m => NoDup (dict_keys m))); [|constructor].
  intros m [pt ip] _ Hm.
  destruct ((List.length pt =? 4)%nat && parts_eqb (firstn 3 pt) first3);
    [|exact Hm].
  now apply (@dict_set_nodup _ _ parts_eqb parts_eqb_eq).
Qed.

(** The keys of [child_index_map] are the keys of the nodes that have four
    segments, the first three of which are the key of the group. *)
Lemma child_index_map_keys (nodes : nodes_t) (first3 p : parts) :
  In p (dict_keys (child_index_map nodes first3))
  <-> In p (dict_keys nodes) /\ List.length p = 4 /\ firstn 3 p = first3.
Proof.
  unfold child_index_map.
  assert (forall m,
             In p (dict_keys
                     (fold_left
                        (fun (m : nodes_t) '(parts_tuple, index_path) =>
                           if (List.length parts_tuple =? 4)%nat
                              && parts_eqb (firstn 3 parts_tuple) first3
                           then dict_set parts_eqb parts_tuple index_path m
                           else m) nodes m))
             <-> In p (dict_keys m)
                 \/ (In p (dict_keys nodes) /\ List.length p = 4
                     /\ firstn 3 p = first3)) as H.
  { induction nodes as [|[pt ip] nodes IH]; intros m; cbn [fold_left].
    - cbn. tauto.
    - rewrite IH. cbn [dict_keys map fst].
      destruct ((List.length pt =? 4)%nat && parts_eqb (firstn 3 pt) first3)
        eqn:C.
      + rewrite (dict_set_keys _ parts_eqb_eq).
        apply andb_true_iff in C. destruct C as [C1 C2].
        apply Nat.eqb_eq in C1. apply parts_eqb_eq in C2.
        split.
        * intros [[->|H]|H]; [right; split; [now left|now split]|now left|].
          right. destruct H as (H1 & H2 & H3). split; [now right|now split].
        * intros [H|([<-|H1] & H2 & H3)]; [left; now right|left; now left|].
          right. split; [exact H1|now split].
      + split.
        * intros [H|H]; [now left|]. right.
          destruct H as (H1 & H2 & H3). split; [now right|now split].
        * intros [H|([<-|H1] & H2 & H3)]; [now left| |].
          -- apply andb_false_iff in C. destruct C as [C|C].
             ++ apply Nat.eqb_neq in C. contradiction.
             ++ assert (parts_eqb (firstn 3 pt) first3 = true)
                  by now apply parts_eqb_eq.
                congruence.
          -- right. split; [exact H1|now split]. }
  rewrite H. cbn. tauto.
Qed.

Lemma parts_compare_eq (a b : parts) : parts_compare a b = Eq -> a = b.
Proof.
  revert b; induction a as [|x a IH]; intros [|y b]; cbn [parts_compare];
    try discriminate; [reflexivity|].
  destruct (String.compare x y) eqn:C; try discriminate.
  apply String.compare_eq_iff in C. subst y. intros H. f_equal. now apply IH.
Qed.

Lemma parts_ltb_total (a b : parts) :
  parts_ltb b a = false -> a <> b -> parts_ltb a b = true.
Proof.
  unfold parts_ltb. rewrite (parts_compare_antisym b a).
  destruct (parts_compare a b) eqn:C; cbn; try discriminate; auto.
  intros _ H. apply parts_compare_eq in C. contradiction.
Qed.

(** A list without repetition in which no element is smaller than the one
    before it is strictly ascending. *)
Lemma strictly_sorted (l : list parts) :
  Sorted (fun a b => parts_ltb b a = false) l -> NoDup l ->
  Sorted (fun a b => parts_ltb a b = true) l.
Proof.
  induction 1 as [|a l Hs IH Hhd]; intros Hnd; [constructor|].
  inversion Hnd as [|? ? Hnotin Hnd']; subst.
  constructor; [now apply IH|].
  destruct Hhd as [|b l Hab]; constructor.
  apply parts_ltb_total; [exact Hab|]. intros ->. apply Hnotin. now left.
Qed.

(** The entries of a group after its index are the entries of its children,
    each child once, in the strictly ascending lexicographic order of their
    module paths (the order of tuples of segments).  The children are the
    keys of the nodes that have four segments and begin with the key of the
    group. *)
Theorem siblings_in_path_order
        (nodes : nodes_t) (first3 : parts) (data : group_data) :
  exists children,
    tl (group_items nodes first3 data)
    = map (child_entry nodes (child_index_map nodes first3)) children
    /\ List.length (group_items nodes first3 data) = S (List.length children)
    /\ Sorted (fun a b => parts_ltb a b = true) children
    /\ NoDup children
    /\ Permutation children (dict_keys (child_index_map nodes first3))
    /\ (forall p, In p children
                  <-> In p (dict_keys nodes) /\ List.length p = 4
                      /\ firstn 3 p = first3).
Proof.
  exists (sorted parts_ltb (dict_keys (child_index_map nodes first3))).
  assert (NoDup (sorted parts_ltb (dict_keys (child_index_map nodes first3))))
    as Hnd.
  { apply (Permutation_NoDup (l := dict_keys (child_index_map nodes first3))).
    - symmetry. apply sorted_perm.
    - apply child_index_map_nodup. }
  split; [reflexivity|]. split; [|split; [|split; [|split]]].
  - unfold group_items. cbn [List.length]. now rewrite length_map.
  - apply strictly_sorted; [|exact Hnd].
    apply sorted_is_sorted. exact parts_ltb_asym.
  - exact Hnd.
  - apply sorted_perm.
  - intros p. rewrite sorted_in. apply child_index_map_keys.
Qed.
